(** * A shallow embedding of the sample-app client cache wiring and the
      widget libraries, with the properties of its specification.

    The development follows the source files:
    - [CacheMapModel]: the cache map of the cache framework, as far as the
      application code calls into it;
    - [WidgetCache], [WidgetTypeCache], [WidgetComponentCache]: the three
      cache modules (options, instance, [getCacheStats]);
    - [CacheIndex]: the event subscriptions of [client/cache/index.ts];
    - [ClientCache]: the lazily initialised module state of
      [client/cache/ClientCache.ts];
    - [CacheInitializer]: the start-up effect of the React initializer;
    - [WidgetLib], [WidgetComponentLib]: validators and hooks of the
      server-side libraries;
    - [QuerySignature]: the query signature of the cache framework;
    - [Routes]: the response wrapper of the widget routers, the summary
      and the dashboard of the HTTP routes;
    - [ClientGetters], [Startup]: the asynchronous getters of
      [ClientCache.ts] and the outcomes of the initializer's wait;
    - [WidgetList]: the filter, order and data cells of the widget list. *)

From stdpp Require Import gmap strings list fin_maps sorting.
From Stdlib Require Import Ascii String ZArith Lia.
From Stdlib Require Import DecimalString DecimalZ DecimalPos OrderedTypeEx.

Local Open Scope string_scope.

(** ** JavaScript values that the code inspects *)

(** A property that holds a string, [null] or [undefined]
    ([event.item?.id], [widget.name], ...). *)
Inductive JsStr :=
  | js_undefined
  | js_null
  | js_string (s : string).

(** Truthiness of such a value: only a non-empty string is truthy. *)
Definition truthy (v : JsStr) : bool :=
  match v with
  | js_string s => negb (String.eqb s EmptyString)
  | _ => false
  end.

(** ** The cache map *)

Module CacheMapModel.

Inductive Completeness := complete | partial.

(** A location scope: the ordered (type tag, identifier) segments. *)
Abbreviation LocationScope := (list (string * string)).

(** An item key: type tag, identifier and location segments. *)
Abbreviation ItemKey := (string * string * LocationScope)%type.

Record ItemEntry := {
  ie_id : JsStr;
  ie_bytes : nat;
  ie_stamp : nat
}.

Record QueryEntry := {
  qe_keys : list ItemKey;
  qe_completeness : Completeness;
  qe_stamp : nat
}.

(** The [twoLayer] options object of the cache modules. *)
Record TwoLayerOptions := {
  itemTTL : nat;
  queryTTL : nat;
  facetTTL : nat;
  debug : bool
}.

(** Modelled from the spec: the cache map of the cache framework, which
    is a dependency and has no source in this repository. Section 3 and
    4.2 of the specification give it three partitions: items by key,
    complete-query results and facet results by (signature, scope), each
    entry with a freshness timestamp, and the TTL options it was built
    with. *)
Record CacheMap := {
  cm_items : gmap ItemKey ItemEntry;
  cm_queries : gmap (string * LocationScope) QueryEntry;
  cm_facets : gmap (string * LocationScope) QueryEntry;
  cm_opts : TwoLayerOptions
}.

Definition emptyCacheMap (o : TwoLayerOptions) : CacheMap :=
  {| cm_items := ∅; cm_queries := ∅; cm_facets := ∅; cm_opts := o |}.

(** An entry stamped at [stamp] is live at [now] under [ttl] seconds. *)
Definition live (ttl stamp now : nat) : bool := Nat.ltb now (stamp + ttl).

Definition item_live (cm : CacheMap) (now : nat) (k : ItemKey) : bool :=
  match cm_items cm !! k with
  | Some ie => live (itemTTL (cm_opts cm)) (ie_stamp ie) now
  | None => false
  end.

(** Modelled from the spec: validity of a query or facet entry (section
    3, invariants): not expired under the TTL of its class, and every key
    it references has a live item entry. *)
Definition entry_valid (cm : CacheMap) (now ttl : nat) (e : QueryEntry)
  : bool :=
  live ttl (qe_stamp e) now && forallb (item_live cm now) (qe_keys e).

(** Modelled from the spec: [queryIn(signature, locationScope)] returns
    the cached key list, or null for "not cached, fetch". *)
Definition queryIn (cm : CacheMap) (now : nat) (sig : string)
    (scope : LocationScope) : option (list ItemKey) :=
  match cm_queries cm !! (sig, scope) with
  | Some e =>
      if entry_valid cm now (queryTTL (cm_opts cm)) e
      then Some (qe_keys e) else None
  | None =>
      match cm_facets cm !! (sig, scope) with
      | Some e =>
          if entry_valid cm now (facetTTL (cm_opts cm)) e
          then Some (qe_keys e) else None
      | None => None
      end
  end.

(** Modelled from the spec: [setQueryResult] stores the result in the
    partition of its completeness class, stamped with the current time. *)
Definition setQueryResult (cm : CacheMap) (now : nat) (sig : string)
    (scope : LocationScope) (keys : list ItemKey) (c : Completeness)
  : CacheMap :=
  let e := {| qe_keys := keys; qe_completeness := c; qe_stamp := now |} in
  match c with
  | complete =>
      {| cm_items := cm_items cm;
         cm_queries := <[(sig, scope) := e]> (cm_queries cm);
         cm_facets := delete (sig, scope) (cm_facets cm);
         cm_opts := cm_opts cm |}
  | partial =>
      {| cm_items := cm_items cm;
         cm_queries := delete (sig, scope) (cm_queries cm);
         cm_facets := <[(sig, scope) := e]> (cm_facets cm);
         cm_opts := cm_opts cm |}
  end.

(** Modelled from the spec: [set(key, record)] writes the item partition
    and stamps freshness. *)
Definition set (cm : CacheMap) (now : nat) (k : ItemKey) (id : JsStr)
    (bytes : nat) : CacheMap :=
  {| cm_items :=
       <[k := {| ie_id := id; ie_bytes := bytes; ie_stamp := now |}]>
         (cm_items cm);
     cm_queries := cm_queries cm;
     cm_facets := cm_facets cm;
     cm_opts := cm_opts cm |}.

(** Modelled from the spec: [clearQueryResults()] wipes both the query
    and the facet partition and does not touch items. *)
Definition clearQueryResults (cm : CacheMap) : CacheMap :=
  {| cm_items := cm_items cm;
     cm_queries := ∅;
     cm_facets := ∅;
     cm_opts := cm_opts cm |}.

Record SizeInfo := { itemCount : nat; sizeBytes : nat }.

(** Modelled from the spec: [getCurrentSize()] gives the item count and
    a byte estimate. *)
Definition getCurrentSize (cm : CacheMap) : SizeInfo :=
  {| itemCount := size (cm_items cm);
     sizeBytes := map_fold (fun _ ie acc => ie_bytes ie + acc) 0
                           (cm_items cm) |}.

Record QueryMetadata := { qm_complete : nat; qm_partial : nat }.
Record TwoLayerStats := { queryMetadata : QueryMetadata }.

(** Modelled from the spec: [getTwoLayerStats()] counts the live
    (non-expired) entries per completeness class. *)
Definition getTwoLayerStats (cm : CacheMap) (now : nat) : TwoLayerStats :=
  {| queryMetadata :=
       {| qm_complete :=
            size (filter
                    (fun p => live (queryTTL (cm_opts cm))
                                   (qe_stamp (snd p)) now = true)
                    (cm_queries cm));
          qm_partial :=
            size (filter
                    (fun p => live (facetTTL (cm_opts cm))
                                   (qe_stamp (snd p)) now = true)
                    (cm_facets cm)) |} |}.

(** The [getTwoLayerStats] property of a cache map object, as the
    [in]-and-[typeof] test of the cache modules sees it. *)
Inductive StatsProp :=
  | prop_absent
  | prop_not_function
  | prop_function (f : CacheMap -> nat -> TwoLayerStats).

(** A cache map object: its contents and the optional stats method. *)
Record CacheMapObj := {
  contents : CacheMap;
  statsProp : StatsProp
}.

Definition obj_clearQueryResults (o : CacheMapObj) : CacheMapObj :=
  {| contents := clearQueryResults (contents o);
     statsProp := statsProp o |}.

End CacheMapModel.

(** ** The cache framework's instances, as the cache modules build them *)

Module CacheFramework.
Import CacheMapModel.

Inductive CacheType := indexedDB | memory.
Inductive EvictionType := lru.

Record IndexedDBConfig := {
  dbName : string;
  version : nat;
  storeName : string
}.

(** The options object that [createCacheOptions] returns. *)
Record CacheOptions := {
  cacheType : CacheType;
  indexedDBConfig : IndexedDBConfig;
  enableDebugLogging : bool;
  autoSync : bool;
  maxRetries : nat;
  retryDelay : Z;
  ttl : Z;
  evictionConfig : EvictionType;
  twoLayer : TwoLayerOptions
}.

(** A cache instance: its coordinate (key type array), the options it
    was constructed with, and its cache map object. *)
Record Cache := {
  api : string;
  coordinate : list string;
  options : CacheOptions;
  cacheMap : CacheMapObj
}.

(** Modelled from the spec: [createCache] of the cache framework (a
    dependency). The options are supplied once, here, and the instance
    starts with empty partitions and the two-layer statistics method. *)
Definition createCache (api : string) (coordinate : list string)
    (o : CacheOptions) : Cache :=
  {| api := api;
     coordinate := coordinate;
     options := o;
     cacheMap := {| contents := emptyCacheMap (twoLayer o);
                    statsProp := prop_function getTwoLayerStats |} |}.

(** The object that every [getCacheStats] returns. *)
Record CacheStats := {
  stat_itemCount : nat;
  queryCount : nat;
  facetCount : nat
}.

(** [cache.cacheMap.clearQueryResults()] on an instance. *)
Definition clearQueries (c : Cache) : Cache :=
  {| api := api c;
     coordinate := coordinate c;
     options := options c;
     cacheMap := obj_clearQueryResults (cacheMap c) |}.

End CacheFramework.

(** *** client/cache/WidgetCache.ts *)

Module WidgetCache.
Import CacheMapModel CacheFramework.

Definition createCacheOptions (dbName storeName : string) : CacheOptions :=
  {| cacheType := indexedDB;
     indexedDBConfig :=
       {| dbName := dbName; version := 1; storeName := storeName |};
     enableDebugLogging := true;
     autoSync := true;
     maxRetries := 5;
     retryDelay := 2000%Z;
     ttl := 900000%Z;
     evictionConfig := lru;
     twoLayer :=
       {| itemTTL := 900; queryTTL := 300; facetTTL := 60;
          debug := true |} |}.

Definition widgetCache : Cache :=
  createCache "widgetApi" ["widget"]
    (createCacheOptions "WidgetAppCache_Widgets" "widgets").

Definition invalidate (widgetCache : Cache) : Cache :=
  clearQueries widgetCache.

Definition getCacheStats (widgetCache : Cache) (now : nat) : CacheStats :=
  let sizeInfo := getCurrentSize (contents (cacheMap widgetCache)) in
  let counts :=
    match statsProp (cacheMap widgetCache) with
    | prop_function getTwoLayerStats =>
        let twoLayerStats :=
          getTwoLayerStats (contents (cacheMap widgetCache)) now in
        (qm_complete (queryMetadata twoLayerStats),
         qm_partial (queryMetadata twoLayerStats))
    | _ => (0, 0)
    end in
  {| stat_itemCount := itemCount sizeInfo;
     queryCount := fst counts;
     facetCount := snd counts |}.

End WidgetCache.

(** *** client/cache/WidgetTypeCache.ts *)

Module WidgetTypeCache.
Import CacheMapModel CacheFramework.

Definition createCacheOptions (dbName storeName : string) : CacheOptions :=
  {| cacheType := indexedDB;
     indexedDBConfig :=
       {| dbName := dbName; version := 1; storeName := storeName |};
     enableDebugLogging := true;
     autoSync := true;
     maxRetries := 5;
     retryDelay := 2000%Z;
     ttl := 900000%Z;
     evictionConfig := lru;
     twoLayer :=
       {| itemTTL := 900; queryTTL := 300; facetTTL := 60;
          debug := true |} |}.

Definition widgetTypeCache : Cache :=
  createCache "widgetTypeApi" ["widgetType"]
    (createCacheOptions "WidgetAppCache_WidgetTypes" "widgetTypes").

Definition invalidate (widgetTypeCache : Cache) : Cache :=
  clearQueries widgetTypeCache.

Definition getCacheStats (widgetTypeCache : Cache) (now : nat)
  : CacheStats :=
  let sizeInfo := getCurrentSize (contents (cacheMap widgetTypeCache)) in
  let counts :=
    match statsProp (cacheMap widgetTypeCache) with
    | prop_function getTwoLayerStats =>
        let twoLayerStats :=
          getTwoLayerStats (contents (cacheMap widgetTypeCache)) now in
        (qm_complete (queryMetadata twoLayerStats),
         qm_partial (queryMetadata twoLayerStats))
    | _ => (0, 0)
    end in
  {| stat_itemCount := itemCount sizeInfo;
     queryCount := fst counts;
     facetCount := snd counts |}.

End WidgetTypeCache.

(** *** client/cache/WidgetComponentCache.ts *)

Module WidgetComponentCache.
Import CacheMapModel CacheFramework.

Definition createCacheOptions (dbName storeName : string) : CacheOptions :=
  {| cacheType := indexedDB;
     indexedDBConfig :=
       {| dbName := dbName; version := 1; storeName := storeName |};
     enableDebugLogging := true;
     autoSync := true;
     maxRetries := 5;
     retryDelay := 2000%Z;
     ttl := 900000%Z;
     evictionConfig := lru;
     twoLayer :=
       {| itemTTL := 900; queryTTL := 300; facetTTL := 60;
          debug := true |} |}.

Definition widgetComponentCache : Cache :=
  createCache "widgetComponentApi" ["widgetComponent"; "widget"]
    (createCacheOptions "FjellTestCache_Components" "widget_components").

Definition invalidate (widgetComponentCache : Cache) : Cache :=
  clearQueries widgetComponentCache.

Definition getCacheStats (widgetComponentCache : Cache) (now : nat)
  : CacheStats :=
  let sizeInfo :=
    getCurrentSize (contents (cacheMap widgetComponentCache)) in
  let counts :=
    match statsProp (cacheMap widgetComponentCache) with
    | prop_function getTwoLayerStats =>
        let twoLayerStats :=
          getTwoLayerStats (contents (cacheMap widgetComponentCache)) now in
        (qm_complete (queryMetadata twoLayerStats),
         qm_partial (queryMetadata twoLayerStats))
    | _ => (0, 0)
    end in
  {| stat_itemCount := itemCount sizeInfo;
     queryCount := fst counts;
     facetCount := snd counts |}.

End WidgetComponentCache.

(** *** client/cache/index.ts: the cross-cache event subscriptions *)

Module CacheIndex.
Import CacheMapModel CacheFramework.

(** The three module-level cache instances. *)
Record Caches := {
  widgetCache : Cache;
  widgetTypeCache : Cache;
  widgetComponentCache : Cache
}.

Definition initialCaches : Caches :=
  {| widgetCache := WidgetCache.widgetCache;
     widgetTypeCache := WidgetTypeCache.widgetTypeCache;
     widgetComponentCache := WidgetComponentCache.widgetComponentCache |}.

Inductive CacheName := Widget | WidgetType | WidgetComponent.

(** The three item events of the specification; the framework emits
    further event types, which the handlers' tests let fall through. *)
Inductive EventType :=
  | item_created
  | item_updated
  | item_removed
  | other_event (name : string).

Definition eventTypeName (t : EventType) : string :=
  match t with
  | item_created => "item_created"
  | item_updated => "item_updated"
  | item_removed => "item_removed"
  | other_event n => n
  end.

Record Item := { id : JsStr }.

Record CacheEvent := {
  type : EventType;
  item : option Item
}.

(** [event.item?.id] *)
Definition item_id (event : CacheEvent) : JsStr :=
  match item event with
  | Some i => id i
  | None => js_undefined
  end.

Inductive Level := level_log | level_warn | level_error.

(** What a handler does to the outside: a console line (level, text and
    the value printed after it) or a [clearQueryResults] call. *)
Inductive Effect :=
  | console (l : Level) (text : string) (arg : JsStr)
  | clearQueryResultsCall (target : CacheName).

Definition Handler := CacheEvent -> Caches -> Caches * list Effect.

(** [event.type === 'item_created' || ... 'item_updated' || ...
    'item_removed'] *)
Definition isItemEvent (t : EventType) : bool :=
  match t with
  | item_created | item_updated | item_removed => true
  | other_event _ => false
  end.

Definition isRemoved (t : EventType) : bool :=
  match t with
  | item_removed => true
  | _ => false
  end.

Definition clearWidgetQueries (c : Caches) : Caches :=
  {| widgetCache := clearQueries (widgetCache c);
     widgetTypeCache := widgetTypeCache c;
     widgetComponentCache := widgetComponentCache c |}.

Definition clearWidgetComponentQueries (c : Caches) : Caches :=
  {| widgetCache := widgetCache c;
     widgetTypeCache := widgetTypeCache c;
     widgetComponentCache := clearQueries (widgetComponentCache c) |}.

(** First subscription on [widgetCache]. *)
Definition widgetLogHandler : Handler := fun event c =>
  if isItemEvent (type event) then
    (c, [console level_log
           ("Widget " +:+ eventTypeName (type event) +:+ " detected:")
           (item_id event)])
  else (c, []).

(** Subscription on [widgetTypeCache]. *)
Definition widgetTypeHandler : Handler := fun event c =>
  if isItemEvent (type event) then
    let line :=
      console level_log
        ("WidgetType " +:+ eventTypeName (type event) +:+ " detected:")
        (item_id event) in
    if isRemoved (type event) && truthy (item_id event) then
      (clearWidgetQueries c, [line; clearQueryResultsCall Widget])
    else (c, [line])
  else (c, []).

(** Second subscription on [widgetCache]. *)
Definition widgetRemovedHandler : Handler := fun event c =>
  if isRemoved (type event) && truthy (item_id event) then
    (clearWidgetComponentQueries c,
     [console level_log
        "Widget removed, invalidating related components:"
        (item_id event);
      clearQueryResultsCall WidgetComponent])
  else (c, []).

(** Subscription on [widgetComponentCache]. *)
Definition widgetComponentHandler : Handler := fun event c =>
  if isItemEvent (type event) then
    (c, [console level_log
           ("WidgetComponent " +:+ eventTypeName (type event)
              +:+ " detected:")
           (item_id event)])
  else (c, []).

(** The subscribers of each cache, in subscription order. *)
Definition subscribers (source : CacheName) : list Handler :=
  match source with
  | Widget => [widgetLogHandler; widgetRemovedHandler]
  | WidgetType => [widgetTypeHandler]
  | WidgetComponent => [widgetComponentHandler]
  end.

(** Modelled from the spec: the event bus delivers an event
    synchronously to the subscribers, in subscription order. *)
Fixpoint deliver (hs : list Handler) (event : CacheEvent) (c : Caches)
  : Caches * list Effect :=
  match hs with
  | [] => (c, [])
  | h :: hs' =>
      let '(c1, e1) := h event c in
      let '(c2, e2) := deliver hs' event c1 in
      (c2, (e1 ++ e2)%list)
  end.

Definition emit (source : CacheName) (event : CacheEvent) (c : Caches)
  : Caches * list Effect :=
  deliver (subscribers source) event c.

Definition cacheOf (n : CacheName) (c : Caches) : Cache :=
  match n with
  | Widget => widgetCache c
  | WidgetType => widgetTypeCache c
  | WidgetComponent => widgetComponentCache c
  end.

Definition isClear (e : Effect) : bool :=
  match e with
  | clearQueryResultsCall _ => true
  | _ => false
  end.

Definition isWarning (e : Effect) : bool :=
  match e with
  | console level_warn _ _ => true
  | _ => false
  end.

Definition isLogLine (e : Effect) : bool :=
  match e with
  | console level_log _ _ => true
  | _ => false
  end.

(** [utils.invalidateAll] *)
Definition invalidateAll (c : Caches) : Caches :=
  {| widgetCache := WidgetCache.invalidate (widgetCache c);
     widgetTypeCache := WidgetTypeCache.invalidate (widgetTypeCache c);
     widgetComponentCache :=
       WidgetComponentCache.invalidate (widgetComponentCache c) |}.

End CacheIndex.

(** *** The rule table of section 4.5, read off the subscriptions *)

Module Coordinator.
Import CacheMapModel CacheFramework CacheIndex.

(** The effects of delivering [event] from [source]. *)
Definition effectsOf (source : CacheName) (event : CacheEvent) (c : Caches)
  : list Effect :=
  snd (emit source event c).

(** An invalidation rule was applied, or a warning was logged. *)
Definition ruleOrWarning (effects : list Effect) : bool :=
  existsb isClear effects || existsb isWarning effects.

(** The label that the log line of each source starts with. *)
Definition sourceLabel (source : CacheName) : string :=
  match source with
  | Widget => "Widget"
  | WidgetType => "WidgetType"
  | WidgetComponent => "WidgetComponent"
  end.

(** The dependent cache that a removal in [source] invalidates. *)
Definition dependent (source : CacheName) : option CacheName :=
  match source with
  | WidgetType => Some Widget
  | Widget => Some WidgetComponent
  | WidgetComponent => None
  end.

Definition hasNonEmptyId (event : CacheEvent) : Prop :=
  exists i s, item event = Some i /\ id i = js_string s /\ s <> EmptyString.

End Coordinator.

(** *** Sample data: a component of widget "w1" and its cached listing *)

Module Sample.
Import CacheMapModel CacheFramework CacheIndex.

Definition componentKey : ItemKey :=
  ("widgetComponent", "c1", [("widget", "w1")]).

Definition widgetKey : ItemKey := ("widget", "w1", []).

(** The component cache after a [byWidget] query for "w1" at time 10. *)
Definition componentsCached : Cache :=
  let c := WidgetComponentCache.widgetComponentCache in
  let m := set (contents (cacheMap c)) 10 componentKey (js_string "c1") 64 in
  let m := setQueryResult m 10 "byWidget" [("widget", "w1")]
             [componentKey] partial in
  {| api := api c; coordinate := coordinate c; options := options c;
     cacheMap := {| contents := m; statsProp := statsProp (cacheMap c) |} |}.

(** The widget cache after an unfiltered "all" query at time 10. *)
Definition widgetsCached : Cache :=
  let c := WidgetCache.widgetCache in
  let m := set (contents (cacheMap c)) 10 widgetKey (js_string "w1") 64 in
  let m := setQueryResult m 10 "all" [] [widgetKey] complete in
  {| api := api c; coordinate := coordinate c; options := options c;
     cacheMap := {| contents := m; statsProp := statsProp (cacheMap c) |} |}.

Definition caches : Caches :=
  {| widgetCache := widgetsCached;
     widgetTypeCache := WidgetTypeCache.widgetTypeCache;
     widgetComponentCache := componentsCached |}.

Definition removed (i : string) : CacheEvent :=
  {| type := item_removed; item := Some {| id := js_string i |} |}.

Definition created (i : string) : CacheEvent :=
  {| type := item_created; item := Some {| id := js_string i |} |}.

End Sample.

(** *** What the specification asks of options and statistics *)

Module CacheModuleProps.
Import CacheMapModel CacheFramework.

(** The TTL triple of the two-layer options, and its ordering. *)
Definition ttlsAsSpecified (o : CacheOptions) : Prop :=
  itemTTL (twoLayer o) = 900 /\ queryTTL (twoLayer o) = 300 /\
  facetTTL (twoLayer o) = 60 /\
  facetTTL (twoLayer o) <= queryTTL (twoLayer o) /\
  queryTTL (twoLayer o) <= itemTTL (twoLayer o).

(** The three fields of a statistics object. *)
Definition statsAsSpecified (c : Cache) (now : nat) (s : CacheStats) : Prop :=
  stat_itemCount s = itemCount (getCurrentSize (contents (cacheMap c))) /\
  match statsProp (cacheMap c) with
  | prop_function f =>
      queryCount s =
        qm_complete (queryMetadata (f (contents (cacheMap c)) now)) /\
      facetCount s =
        qm_partial (queryMetadata (f (contents (cacheMap c)) now))
  | _ => queryCount s = 0 /\ facetCount s = 0
  end.

End CacheModuleProps.

(** *** client/cache/ClientCache.ts *)

Module ClientCache.
Import CacheFramework.

(** The module-level variables. A cache variable holds an instance or
    [null]; [_initPromise] holds a promise (by its number) or [null]. *)
Record Vars := {
  _widgetCache : option Cache;
  _widgetTypeCache : option Cache;
  _widgetComponentCache : option Cache;
  _isInitializing : bool;
  _initPromise : option nat
}.

Inductive PromiseState := pending | fulfilled | rejected.

(** The [await import(...)] at which a started initialization is suspended. *)
Inductive Stage :=
  | importWidgetCache
  | importWidgetTypeCache
  | importWidgetComponentCache.

(** The three cache modules that are imported dynamically. *)
Inductive CacheModule := modWidgetCache | modWidgetTypeCache
                       | modWidgetComponentCache.

(** The console lines of the file:
    - [starting]: "Starting cache initialization..." (log);
    - [loading m], [loaded m]: "Loading ... module..." and "... loaded";
    - [allInitialized]: "All caches initialized successfully" (log);
    - [failed]: "Failed to initialize caches:" (error);
    - [notInitialized m]: "... cache not initialized! Call
      initializeCaches() first." (error). *)
Inductive Line :=
  | starting
  | loading (m : CacheModule)
  | loaded (m : CacheModule)
  | allInitialized
  | failed
  | notInitialized (m : CacheModule).

(** The state of the page: whether [window] is defined, the variables,
    the promises created so far (a promise is its index), the suspended
    initialization bodies (promise of the body, stage), the modules
    evaluated so far (an ECMAScript module is evaluated at its first
    import, which is when its cache instance is constructed), the callers
    suspended at [await _initPromise], the calls that have settled
    ([true]: resolved, [false]: rejected), and the console. *)
Record World := {
  browser : bool;
  vars : Vars;
  promises : list PromiseState;
  bodies : list (nat * Stage);
  evaluated : list CacheModule;
  awaiting : list (nat * nat);
  settled : list (nat * bool);
  console : list Line
}.

Definition initialVars : Vars :=
  {| _widgetCache := None; _widgetTypeCache := None;
     _widgetComponentCache := None; _isInitializing := false;
     _initPromise := None |}.

Definition initialWorld (browser : bool) : World :=
  {| browser := browser; vars := initialVars; promises := [];
     bodies := []; evaluated := []; awaiting := []; settled := [];
     console := [] |}.

Definition isSome {A} (o : option A) : bool :=
  match o with Some _ => true | None => false end.

(** [_isInitializing || (_widgetCache && _widgetTypeCache &&
    _widgetComponentCache)] *)
Definition alreadyInitializing (v : Vars) : bool :=
  _isInitializing v ||
  (isSome (_widgetCache v) && isSome (_widgetTypeCache v)
     && isSome (_widgetComponentCache v)).

Definition moduleEqb (a b : CacheModule) : bool :=
  match a, b with
  | modWidgetCache, modWidgetCache
  | modWidgetTypeCache, modWidgetTypeCache
  | modWidgetComponentCache, modWidgetComponentCache => true
  | _, _ => false
  end.

(** The module evaluated by a successful [import]: recorded at its first
    import only. *)
Definition evaluate (m : CacheModule) (ms : list CacheModule)
  : list CacheModule :=
  if existsb (moduleEqb m) ms then ms else (ms ++ [m])%list.

(** The instance that a cache module exports. *)
Definition exported (m : CacheModule) : Cache :=
  match m with
  | modWidgetCache => WidgetCache.widgetCache
  | modWidgetTypeCache => WidgetTypeCache.widgetTypeCache
  | modWidgetComponentCache => WidgetComponentCache.widgetComponentCache
  end.

Definition moduleOf (s : Stage) : CacheModule :=
  match s with
  | importWidgetCache => modWidgetCache
  | importWidgetTypeCache => modWidgetTypeCache
  | importWidgetComponentCache => modWidgetComponentCache
  end.

(** [initializeCaches()], called by [caller], up to its first suspension.
    When initialization is in flight or done, the call awaits the existing
    promise, or returns at once when there is none. Otherwise it sets the
    flag and runs the asynchronous body up to its first [await]: outside a
    browser the body throws at once (its [catch] resets flag and promise,
    and the assignment to [_initPromise] that follows stores the rejected
    promise); in a browser it is suspended at the first import. *)
Definition initializeCaches (caller : nat) (w : World) : World :=
  let v := vars w in
  if alreadyInitializing v then
    match _initPromise v with
    | Some p =>
        {| browser := browser w; vars := v; promises := promises w;
           bodies := bodies w; evaluated := evaluated w;
           awaiting := (awaiting w ++ [(caller, p)])%list;
           settled := settled w; console := console w |}
    | None =>
        {| browser := browser w; vars := v; promises := promises w;
           bodies := bodies w; evaluated := evaluated w;
           awaiting := awaiting w;
           settled := (settled w ++ [(caller, true)])%list;
           console := console w |}
    end
  else
    let p := List.length (promises w) in
    if browser w then
      {| browser := browser w;
         vars := {| _widgetCache := _widgetCache v;
                    _widgetTypeCache := _widgetTypeCache v;
                    _widgetComponentCache := _widgetComponentCache v;
                    _isInitializing := true;
                    _initPromise := Some p |};
         promises := (promises w ++ [pending])%list;
         bodies := (bodies w ++ [(p, importWidgetCache)])%list;
         evaluated := evaluated w;
         awaiting := (awaiting w ++ [(caller, p)])%list;
         settled := settled w;
         console :=
           (console w ++ [starting; loading modWidgetCache])%list |}
    else
      {| browser := browser w;
         vars := {| _widgetCache := _widgetCache v;
                    _widgetTypeCache := _widgetTypeCache v;
                    _widgetComponentCache := _widgetComponentCache v;
                    _isInitializing := false;
                    _initPromise := Some p |};
         promises := (promises w ++ [rejected])%list;
         bodies := bodies w;
         evaluated := evaluated w;
         awaiting := (awaiting w ++ [(caller, p)])%list;
         settled := settled w;
         console := (console w ++ [starting; failed])%list |}.

Definition stageOf (p : nat) (bs : list (nat * Stage)) : option Stage :=
  snd <$> List.find (fun b => Nat.eqb (fst b) p) bs.

Definition removeBody (p : nat) (bs : list (nat * Stage))
  : list (nat * Stage) :=
  List.filter (fun b => negb (Nat.eqb (fst b) p)) bs.

Definition setStage (p : nat) (s : Stage) (bs : list (nat * Stage))
  : list (nat * Stage) :=
  List.map (fun b => if Nat.eqb (fst b) p then (p, s) else b) bs.

Definition settle (p : nat) (s : PromiseState) (ps : list PromiseState)
  : list PromiseState :=
  <[p := s]> ps.

(** The assignment after a resolved import. *)
Definition assign (s : Stage) (v : Vars) : Vars :=
  match s with
  | importWidgetCache =>
      {| _widgetCache := Some (exported modWidgetCache);
         _widgetTypeCache := _widgetTypeCache v;
         _widgetComponentCache := _widgetComponentCache v;
         _isInitializing := _isInitializing v;
         _initPromise := _initPromise v |}
  | importWidgetTypeCache =>
      {| _widgetCache := _widgetCache v;
         _widgetTypeCache := Some (exported modWidgetTypeCache);
         _widgetComponentCache := _widgetComponentCache v;
         _isInitializing := _isInitializing v;
         _initPromise := _initPromise v |}
  | importWidgetComponentCache =>
      {| _widgetCache := _widgetCache v;
         _widgetTypeCache := _widgetTypeCache v;
         _widgetComponentCache := Some (exported modWidgetComponentCache);
         _isInitializing := _isInitializing v;
         _initPromise := _initPromise v |}
  end.

(** [finally { _isInitializing = false }] *)
Definition clearFlag (v : Vars) : Vars :=
  {| _widgetCache := _widgetCache v;
     _widgetTypeCache := _widgetTypeCache v;
     _widgetComponentCache := _widgetComponentCache v;
     _isInitializing := false;
     _initPromise := _initPromise v |}.

(** [catch]: [_isInitializing = false; _initPromise = null] *)
Definition resetOnFailure (v : Vars) : Vars :=
  {| _widgetCache := _widgetCache v;
     _widgetTypeCache := _widgetTypeCache v;
     _widgetComponentCache := _widgetComponentCache v;
     _isInitializing := false;
     _initPromise := None |}.

(** The import awaited by the body with promise [p] settles: resolved
    ([ok]) or rejected. A resolved import assigns the variable and runs the
    body to its next [await], or to its end after the third import
    ([finally] clears the flag, the body's promise is fulfilled). A
    rejected import runs [catch] and [finally] and rejects the promise. *)
Definition importSettles (p : nat) (ok : bool) (w : World) : World :=
  match stageOf p (bodies w) with
  | None => w
  | Some s =>
      if ok then
        let v := assign s (vars w) in
        let ev := evaluate (moduleOf s) (evaluated w) in
        match s with
        | importWidgetCache =>
            {| browser := browser w; vars := v; promises := promises w;
               bodies := setStage p importWidgetTypeCache (bodies w);
               evaluated := ev; awaiting := awaiting w;
               settled := settled w;
               console := (console w ++ [loaded modWidgetCache;
                                         loading modWidgetTypeCache])%list |}
        | importWidgetTypeCache =>
            {| browser := browser w; vars := v; promises := promises w;
               bodies := setStage p importWidgetComponentCache (bodies w);
               evaluated := ev; awaiting := awaiting w;
               settled := settled w;
               console :=
                 (console w ++ [loaded modWidgetTypeCache;
                                loading modWidgetComponentCache])%list |}
        | importWidgetComponentCache =>
            {| browser := browser w; vars := clearFlag v;
               promises := settle p fulfilled (promises w);
               bodies := removeBody p (bodies w);
               evaluated := ev; awaiting := awaiting w;
               settled := settled w;
               console :=
                 (console w ++ [loaded modWidgetComponentCache;
                                allInitialized])%list |}
        end
      else
        {| browser := browser w;
           vars := clearFlag (resetOnFailure (vars w));
           promises := settle p rejected (promises w);
           bodies := removeBody p (bodies w);
           evaluated := evaluated w; awaiting := awaiting w;
           settled := settled w;
           console := (console w ++ [failed])%list |}
  end.

(** A caller suspended at [await _initPromise] continues once the promise
    has settled: its call resolves or rejects with the promise. *)
Definition resume (caller : nat) (w : World) : World :=
  match List.find (fun a => Nat.eqb (fst a) caller) (awaiting w) with
  | None => w
  | Some (_, p) =>
      match promises w !! p with
      | Some fulfilled | Some rejected =>
          {| browser := browser w; vars := vars w; promises := promises w;
             bodies := bodies w; evaluated := evaluated w;
             awaiting :=
               List.filter (fun a => negb (Nat.eqb (fst a) caller))
                           (awaiting w);
             settled :=
               (settled w ++
                  [(caller,
                    match promises w !! p with
                    | Some fulfilled => true
                    | _ => false
                    end)])%list;
             console := console w |}
      | _ => w
      end
  end.

(** What can happen next on the page. *)
Inductive Action :=
  | call (caller : nat)
  | importDone (p : nat) (ok : bool)
  | continue (caller : nat).

Definition step (a : Action) (w : World) : World :=
  match a with
  | call caller => initializeCaches caller w
  | importDone p ok => importSettles p ok w
  | continue caller => resume caller w
  end.

Definition run (actions : list Action) (w : World) : World :=
  fold_left (fun w a => step a w) actions w.

Definition reachable (w : World) : Prop :=
  exists b actions, w = run actions (initialWorld b).

Definition countLine (l : Line) (c : list Line) : nat :=
  List.length (List.filter
            (fun x => match l, x with
                      | starting, starting => true
                      | allInitialized, allInitialized => true
                      | failed, failed => true
                      | _, _ => false
                      end) c).

(** Initializations started, failed and completed, read off the console. *)
Definition starts (w : World) : nat := countLine starting (console w).
Definition failures (w : World) : nat := countLine failed (console w).
Definition successes (w : World) : nat :=
  countLine allInitialized (console w).

(** How often the module [m] has been evaluated, that is, how often its
    cache instance has been constructed. *)
Definition constructions (m : CacheModule) (w : World) : nat :=
  List.length (List.filter (moduleEqb m) (evaluated w)).

(** The result of a synchronous accessor: the value returned (a cache
    variable, which may hold [null]) or the message of the thrown Error. *)
Inductive Completion :=
  | returns (v : option Cache)
  | throws (message : string).

Definition getWidgetCacheSync (v : Vars) : Completion * list Line :=
  match _widgetCache v with
  | None =>
      (throws
         "Widget cache not yet initialized. Call initializeCaches() first.",
       [])
  | Some c => (returns (_widgetCache v), [])
  end.

Definition getWidgetTypeCacheSync (v : Vars) : Completion * list Line :=
  match _widgetTypeCache v with
  | None =>
      (throws
         "Widget type cache not yet initialized. Call initializeCaches() first.",
       [notInitialized modWidgetTypeCache])
  | Some c => (returns (_widgetTypeCache v), [])
  end.

Definition getWidgetComponentCacheSync (v : Vars) : Completion * list Line :=
  match _widgetComponentCache v with
  | None =>
      (throws
         "Widget component cache not yet initialized. Call initializeCaches() first.",
       [notInitialized modWidgetComponentCache])
  | Some c => (returns (_widgetComponentCache v), [])
  end.

(** The cache variable that belongs to a cache module. *)
Definition varOf (m : CacheModule) (v : Vars) : option Cache :=
  match m with
  | modWidgetCache => _widgetCache v
  | modWidgetTypeCache => _widgetTypeCache v
  | modWidgetComponentCache => _widgetComponentCache v
  end.

(** The console has the "... loaded" line of [m]. *)
Definition populatedIn (m : CacheModule) (c : list Line) : bool :=
  existsb (fun l => match l with
                    | loaded m' => moduleEqb m m'
                    | _ => false
                    end) c.

(** An initialization has got past the import of [m]. *)
Definition populated (m : CacheModule) (w : World) : bool :=
  populatedIn m (console w).

(** What is asked of a synchronous accessor for the variable of the
    module [m] in the state [w]: it throws while the variable is [null],
    which is the case as long as no initialization has populated it;
    whatever it returns is not [null], and is the instance that the module
    exports. *)
Definition accessorGuards (m : CacheModule) (w : World)
    (result : Completion * list Line) : Prop :=
  (populated m w = false -> varOf m (vars w) = None) /\
  (varOf m (vars w) = None -> exists message, fst result = throws message) /\
  (forall r, fst result = returns r ->
             r <> None /\ r = varOf m (vars w) /\ r = Some (exported m)).

(** The parenthesis of the specification's sentence on memoization: flag
    and promise are reset only when initialization fails. Read on a state:
    if an initialization was started and the flag is down or the promise
    is [null], then an initialization has failed. *)
Definition resetOnlyAfterFailure (w : World) : Prop :=
  0 < starts w ->
  _isInitializing (vars w) = false \/ _initPromise (vars w) = None ->
  0 < failures w.

(** [initializeCaches] in a state where it only awaits promise [p]. *)
Definition awaitsExisting (caller p : nat) (w w' : World) : Prop :=
  browser w' = browser w /\ vars w' = vars w /\
  promises w' = promises w /\ bodies w' = bodies w /\
  evaluated w' = evaluated w /\ console w' = console w /\
  settled w' = settled w /\
  awaiting w' = (awaiting w ++ [(caller, p)])%list.

(** A page on which one call initializes the three caches and returns. *)
Definition successfulRun : World :=
  run [call 1; importDone 0 true; importDone 0 true; importDone 0 true;
       continue 1]
      (initialWorld true).

(** A page on which a first call is suspended at the first import. *)
Definition inFlight : World := run [call 1] (initialWorld true).

(** The invariant of the page states: the flag is up exactly while one
    body is suspended, whose promise is the memoized one and is pending;
    the component cache variable is set only by a completed
    initialization, whose fulfilled promise stays memoized; the variables
    hold the exported instances, and a variable is set exactly when the
    console has the "... loaded" line of its module; no module is
    evaluated twice. *)
Record Inv (w : World) : Prop := {
  inv_flag :
    _isInitializing (vars w) = true ->
    exists p s,
      bodies w = [(p, s)] /\ _initPromise (vars w) = Some p /\
      promises w !! p = Some pending /\
      _widgetComponentCache (vars w) = None /\
      (s = importWidgetTypeCache -> isSome (_widgetCache (vars w)) = true) /\
      (s = importWidgetComponentCache ->
       isSome (_widgetCache (vars w)) = true /\
       isSome (_widgetTypeCache (vars w)) = true);
  inv_idle : _isInitializing (vars w) = false -> bodies w = [];
  inv_done :
    isSome (_widgetComponentCache (vars w)) = true ->
    isSome (_widgetCache (vars w)) = true /\
    isSome (_widgetTypeCache (vars w)) = true /\
    exists p, _initPromise (vars w) = Some p /\
              promises w !! p = Some fulfilled;
  inv_starts :
    starts w = failures w + successes w + List.length (bodies w);
  inv_successes :
    successes w = if isSome (_widgetComponentCache (vars w)) then 1 else 0;
  inv_evaluated : NoDup (evaluated w);
  inv_instances :
    (forall c, _widgetCache (vars w) = Some c ->
               c = exported modWidgetCache) /\
    (forall c, _widgetTypeCache (vars w) = Some c ->
               c = exported modWidgetTypeCache) /\
    (forall c, _widgetComponentCache (vars w) = Some c ->
               c = exported modWidgetComponentCache);
  inv_populated : forall m, isSome (varOf m (vars w)) = populated m w
}.

End ClientCache.

(** *** client/providers/CacheInitializer.tsx *)

Module CacheInitializer.
Import CacheFramework ClientCache.

(** A thrown or rejected value: an [Error] with its message, or some
    other value. *)
Inductive Thrown := errorObject (message : string) | otherValue.

(** How a promise behaves, with times in milliseconds from the moment the
    initializer starts to wait. *)
Inductive Settles :=
  | resolvesAt (t : N)
  | rejectsAt (t : N) (e : Thrown)
  | neverSettles.

(** What the initializer meets: how [await initializeCaches()] ends (a
    rejection, or the module variables it leaves), the
    [initializationPromise] of the two cache maps when they have one, and
    [navigator.storage.estimate()] when the browser has it ([Some None]:
    it resolves). *)
Record Env := {
  initializeCachesResult : Thrown + Vars;
  widgetInitializationPromise : option Settles;
  widgetTypeInitializationPromise : option Settles;
  storageEstimate : option (option Thrown)
}.

(** The component state: [isInitialized] and [error]. *)
Record State := {
  isInitialized : bool;
  error : option string
}.

Definition initialState : State :=
  {| isInitialized := false; error := None |}.

(** The console lines that tell the paths apart:
    - [initializationComplete]: "IndexedDB initialization complete" (log);
    - [failedOrTimedOut e]: "IndexedDB initialization failed or timed
      out:" with the caught value (warn), followed by "Continuing without
      IndexedDB initialization..." (log);
    - [noPromisesNeeded]: "No initialization promises needed" (log);
    - [enablingProviders]: "Cache initialization complete, enabling React
      providers" (log);
    - [failedToInitialize e]: "Failed to initialize caches:" (error). *)
Inductive Line :=
  | initializationComplete
  | failedOrTimedOut (e : Thrown)
  | noPromisesNeeded
  | enablingProviders
  | failedToInitialize (e : Thrown).

(** [Promise.all]: rejected at the earliest rejection, otherwise
    fulfilled once every promise is, which is never when one never
    settles. *)
Definition both (p q : Settles) : Settles :=
  match p, q with
  | rejectsAt t e, rejectsAt t' e' =>
      if (t <=? t')%N then rejectsAt t e else rejectsAt t' e'
  | rejectsAt t e, _ => rejectsAt t e
  | _, rejectsAt t e => rejectsAt t e
  | neverSettles, _ | _, neverSettles => neverSettles
  | resolvesAt t, resolvesAt t' => resolvesAt (N.max t t')
  end.

Definition promiseAll (ps : list Settles) : Settles :=
  fold_right both (resolvesAt 0) ps.

Definition timeoutMs : N := 10000.

Definition timeoutError : Thrown :=
  errorObject "IndexedDB initialization timeout after 10 seconds".

(** [Promise.race([p, timeoutPromise])]: the time at which the race
    settles and the value it rejects with, if it rejects. The timer
    rejects after [timeoutMs]. *)
Definition raceWithTimeout (p : Settles) : N * option Thrown :=
  match p with
  | resolvesAt t =>
      if (t <? timeoutMs)%N then (t, None)
      else (timeoutMs, Some timeoutError)
  | rejectsAt t e =>
      if (t <? timeoutMs)%N then (t, Some e)
      else (timeoutMs, Some timeoutError)
  | neverSettles => (timeoutMs, Some timeoutError)
  end.

(** What [initializeApp] leaves: the component state, how long it waited
    for the initialization promises, and its console lines. *)
Record Result := {
  state : State;
  waitedForPromises : N;
  lines : list Line
}.

(** The outer [catch]: log, [setError], and still [setIsInitialized(true)]. *)
Definition caught (e : Thrown) (waited : N) (l : list Line) : Result :=
  {| state :=
       {| isInitialized := true;
          error := Some match e with
                        | errorObject m => m
                        | otherValue => "Unknown error"
                        end |};
     waitedForPromises := waited;
     lines := (l ++ [failedToInitialize e])%list |}.

Definition initPromisesOf (env : Env) : list Settles :=
  (match widgetInitializationPromise env with
   | Some p => [p] | None => [] end
   ++
   match widgetTypeInitializationPromise env with
   | Some p => [p] | None => [] end)%list.

(** The wait for the initialization promises, with its inner [catch]. *)
Definition waitForPromises (initPromises : list Settles) : N * list Line :=
  match initPromises with
  | [] => (0%N, [noPromisesNeeded])
  | _ =>
      match raceWithTimeout (promiseAll initPromises) with
      | (t, None) => (t, [initializationComplete])
      | (t, Some e) => (t, [failedOrTimedOut e])
      end
  end.

Definition initializeApp (env : Env) : Result :=
  match initializeCachesResult env with
  | inl e => caught e 0 []
  | inr v =>
      match fst (getWidgetCacheSync v) with
      | throws m => caught (errorObject m) 0 []
      | returns widgetCache =>
          match fst (getWidgetTypeCacheSync v) with
          | throws m => caught (errorObject m) 0 []
          | returns widgetTypeCache =>
              let '(waited, l) := waitForPromises (initPromisesOf env) in
              match storageEstimate env with
              | Some (Some e) => caught e waited l
              | _ =>
                  {| state := {| isInitialized := true; error := None |};
                     waitedForPromises := waited;
                     lines := (l ++ [enablingProviders])%list |}
              end
          end
      end
  end.

(** What the component renders: the loading screen while
    [!isInitialized], the warning panel when [error] is truthy (a
    non-empty message), the children otherwise. *)
Inductive Rendered :=
  | loadingScreen
  | warningPanel (message : string)
  | children.

Definition render (s : State) : Rendered :=
  if negb (isInitialized s) then loadingScreen
  else match error s with
       | Some message =>
           if String.eqb message EmptyString then children
           else warningPanel message
       | None => children
       end.

(** The page after the dynamic import of the first cache module failed. *)
Definition importFailed : World :=
  run [call 1; importDone 0 false; continue 1] (initialWorld true).

(** The initializer's environment on that page: [initializeCaches()]
    rejects with the import's error. *)
Definition importFailedEnv : Env :=
  {| initializeCachesResult :=
       inl (errorObject "Failed to fetch dynamically imported module");
     widgetInitializationPromise := None;
     widgetTypeInitializationPromise := None;
     storageEstimate := None |}.

(** An environment in which the caches are initialized and the IndexedDB
    initialization of the widget cache map never settles. *)
Definition hangingEnv : Env :=
  {| initializeCachesResult := inr (vars successfulRun);
     widgetInitializationPromise := Some neverSettles;
     widgetTypeInitializationPromise := Some (resolvesAt 40);
     storageEstimate := Some None |}.

End CacheInitializer.

(** ** JavaScript strings on the server side *)

(** A JavaScript string is modelled by [string], each character standing
    for one code unit (code units below 256). *)

Module JsString.

(** The white space and line terminators that [trim] removes, among the
    code units below 256: TAB, LF, VT, FF, CR, SP and NBSP. *)
Definition isWhitespace (c : ascii) : bool :=
  match nat_of_ascii c with
  | 9 | 10 | 11 | 12 | 13 | 32 | 160 => true
  | _ => false
  end.

Fixpoint trimStart (s : string) : string :=
  match s with
  | EmptyString => EmptyString
  | String c s' => if isWhitespace c then trimStart s' else s
  end.

Fixpoint trimEnd (s : string) : string :=
  match s with
  | EmptyString => EmptyString
  | String c s' =>
      match trimEnd s' with
      | EmptyString => if isWhitespace c then EmptyString
                       else String c EmptyString
      | t => String c t
      end
  end.

(** [s.trim()] *)
Definition trim (s : string) : string := trimEnd (trimStart s).

(** Every character of [s] is white space. *)
Fixpoint allWhitespace (s : string) : bool :=
  match s with
  | EmptyString => true
  | String c s' => isWhitespace c && allWhitespace s'
  end.

Fixpoint lastChar (s : string) : option ascii :=
  match s with
  | EmptyString => None
  | String c EmptyString => Some c
  | String _ s' => lastChar s'
  end.

Definition firstChar (s : string) : option ascii :=
  match s with
  | EmptyString => None
  | String c _ => Some c
  end.

(** [s] neither starts nor ends with white space. *)
Definition trimmed (s : string) : Prop :=
  (forall c, firstChar s = Some c -> isWhitespace c = false) /\
  (forall c, lastChar s = Some c -> isWhitespace c = false).

(** [t] is [s] without its surrounding white space. *)
Definition trimOf (s t : string) : Prop :=
  trimmed t /\
  exists pre post,
    s = pre +:+ t +:+ post /\
    allWhitespace pre = true /\ allWhitespace post = true.

(** [!v || v.trim().length === 0] *)
Definition missingOrBlank (v : JsStr) : bool :=
  match v with
  | js_string s => String.eqb s EmptyString || (String.length (trim s) =? 0)%nat
  | _ => true
  end.

End JsString.

(** ** The widget library (lib/WidgetLib.ts) *)

Module WidgetLib.
Import JsString.

(** A boolean property that may be [undefined] or [null]. *)
Inductive JsBool := jb_undefined | jb_null | jb_bool (b : bool).

(** The [data] property, as far as the validator looks at it: absent,
    [null], or a value on which [JSON.stringify] returns or throws. *)
Inductive JsData :=
  | data_undefined
  | data_null
  | data_value (stringifies : bool).

(** The properties passed to [create]. *)
Record Widget := {
  widgetTypeId : JsStr;
  name : JsStr;
  isActive : JsBool;
  data : JsData
}.

(** A row of the widget type table. *)
Record WidgetTypeRow := {
  code : string;
  typeIsActive : bool
}.

(** The database: the widget type table by primary key and the widget
    table as rows (id, stored properties) in insertion order. *)
Record Database := {
  widgetTypes : gmap string WidgetTypeRow;
  widgets : list (string * Widget)
}.

(** [widgetTypeModel.findByPk(id)] *)
Definition findByPk (db : Database) (pk : JsStr) : option WidgetTypeRow :=
  match pk with
  | js_string k => widgetTypes db !! k
  | _ => None
  end.

Definition show (v : JsStr) : string :=
  match v with
  | js_string s => s
  | js_null => "null"
  | js_undefined => "undefined"
  end.

(** [validators.onCreate]: the message of the Error thrown, or [true]. *)
Definition onCreate (db : Database) (widget : Widget) : string + bool :=
  if missingOrBlank (widgetTypeId widget) then
    inl "Widget type ID is required"
  else
    match findByPk db (widgetTypeId widget) with
    | None =>
        inl ("Widget type with ID " +:+ show (widgetTypeId widget)
               +:+ " does not exist")
    | Some widgetType =>
        if negb (typeIsActive widgetType) then
          inl ("Widget type " +:+ code widgetType +:+ " is not active")
        else if missingOrBlank (name widget) then
          inl "Widget name is required"
        else if (255 <? String.length (show (name widget)))%nat then
          inl "Widget name must be 255 characters or less"
        else
          match data widget with
          | data_value false => inl "Widget data must be a valid JSON object"
          | _ => inr true
          end
    end.

(** [hooks.preCreate]: the widget with its name trimmed and [isActive]
    defaulted, or the TypeError of [widget.name.trim()] when the name is
    not a string. *)
Definition preCreate (widget : Widget) : string + Widget :=
  match name widget with
  | js_string n =>
      inr {| widgetTypeId := widgetTypeId widget;
             name := js_string (trim n);
             isActive := match isActive widget with
                         | jb_undefined => jb_bool true
                         | other => other
                         end;
             data := data widget |}
  | js_null => inl "Cannot read properties of null (reading 'trim')"
  | js_undefined => inl "Cannot read properties of undefined (reading 'trim')"
  end.

Inductive CreateError :=
  | validationFailed (message : string)
  | hookFailed (message : string).

(** Modelled from the spec: the create operation of the library
    framework (a dependency), in the order of section 4.3: validate with
    the caller-supplied rules, then (with the hook applied) write. A
    rejected create returns the database as it was; [newId] is the
    primary key generated for the row. *)
Definition create (db : Database) (newId : string) (widget : Widget)
  : Database * (CreateError + (string * Widget)) :=
  match onCreate db widget with
  | inl message => (db, inl (validationFailed message))
  | inr _ =>
      match preCreate widget with
      | inl message => (db, inl (hookFailed message))
      | inr w =>
          ({| widgetTypes := widgetTypes db;
              widgets := (widgets db ++ [(newId, w)])%list |},
           inr (newId, w))
      end
  end.

(** The four reasons for which a create is to be rejected. *)
Inductive invalid (db : Database) (widget : Widget) : Prop :=
  | typeDoesNotExist : findByPk db (widgetTypeId widget) = None ->
                       invalid db widget
  | typeNotActive wt : findByPk db (widgetTypeId widget) = Some wt ->
                       typeIsActive wt = false -> invalid db widget
  | nameMissing : name widget = js_undefined \/ name widget = js_null \/
                  name widget = js_string EmptyString -> invalid db widget
  | nameTooLong n : name widget = js_string n ->
                    255 < String.length n -> invalid db widget.

End WidgetLib.

(** ** The widget component library (lib/WidgetComponentLib.ts) *)

Module WidgetComponentLib.
Import JsString.

(** A number property that may be [undefined] or [null]. *)
Inductive JsNum := jn_undefined | jn_null | jn_number (z : Z).

Record WidgetComponent := {
  widgetId : JsStr;
  componentTypeId : JsStr;
  name : JsStr;
  status : JsStr;
  priority : JsNum;
  config : WidgetLib.JsData
}.

(** The database: the ids of the widget table and the component rows. *)
Record Database := {
  widgetIds : gset string;
  components : list (string * WidgetComponent)
}.

(** [widgetModel.findByPk(id)], as far as the validator uses it. *)
Definition findByPk (db : Database) (pk : JsStr) : bool :=
  match pk with
  | js_string k => bool_decide (k ∈ widgetIds db)
  | _ => false
  end.

(** [component.priority < 0 || component.priority > 100], behind the
    [typeof] test. *)
Definition priorityOutOfRange (p : JsNum) : bool :=
  match p with
  | jn_number z => (z <? 0)%Z || (100 <? z)%Z
  | _ => false
  end.

Definition onCreate (db : Database) (component : WidgetComponent)
  : string + bool :=
  if missingOrBlank (widgetId component) then
    inl "Widget ID is required"
  else if negb (findByPk db (widgetId component)) then
    inl ("Widget with ID " +:+ WidgetLib.show (widgetId component)
           +:+ " does not exist")
  else if missingOrBlank (name component) then
    inl "Component name is required"
  else if (255 <? String.length (WidgetLib.show (name component)))%nat then
    inl "Component name must be 255 characters or less"
  else if missingOrBlank (componentTypeId component) then
    inl "Component type ID is required"
  else if priorityOutOfRange (priority component) then
    inl "Priority must be between 0 and 100"
  else
    match config component with
    | WidgetLib.data_value false =>
        inl "Component config must be a valid JSON object"
    | _ => inr true
    end.

Definition preCreate (component : WidgetComponent)
  : string + WidgetComponent :=
  match name component with
  | js_string n =>
      inr {| widgetId := widgetId component;
             componentTypeId := componentTypeId component;
             name := js_string (trim n);
             status := match status component with
                       | js_undefined => js_string "pending"
                       | other => other
                       end;
             priority := match priority component with
                         | jn_undefined => jn_number 0
                         | other => other
                         end;
             config := config component |}
  | js_null => inl "Cannot read properties of null (reading 'trim')"
  | js_undefined => inl "Cannot read properties of undefined (reading 'trim')"
  end.

(** Modelled from the spec: the create operation of the library
    framework, as in [WidgetLib.create]. *)
Definition create (db : Database) (newId : string)
    (component : WidgetComponent)
  : Database * (WidgetLib.CreateError + (string * WidgetComponent)) :=
  match onCreate db component with
  | inl message => (db, inl (WidgetLib.validationFailed message))
  | inr _ =>
      match preCreate component with
      | inl message => (db, inl (WidgetLib.hookFailed message))
      | inr c =>
          ({| widgetIds := widgetIds db;
              components := (components db ++ [(newId, c)])%list |},
           inr (newId, c))
      end
  end.

End WidgetComponentLib.

(** *** Sample rows for the libraries *)

Module LibSample.
Import WidgetLib.

Definition db : Database :=
  {| widgetTypes :=
       <["wt-1" := {| code := "BUTTON"; typeIsActive := true |}]>
         (<["wt-2" := {| code := "INACTIVE_TYPE"; typeIsActive := false |}]>
            ∅);
     widgets := [] |}.

(** A widget that names a widget type which does not exist. *)
Definition orphan : Widget :=
  {| widgetTypeId := js_string "non-existent-type-id";
     name := js_string "Invalid Widget";
     isActive := jb_undefined;
     data := data_undefined |}.

(** A valid widget, with white space around its name and no [isActive]. *)
Definition submit : Widget :=
  {| widgetTypeId := js_string "wt-1";
     name := js_string "  Submit ";
     isActive := jb_undefined;
     data := data_null |}.

Definition componentDb : WidgetComponentLib.Database :=
  {| WidgetComponentLib.widgetIds := {["w1"]};
     WidgetComponentLib.components := [] |}.

(** A valid component with neither status nor priority. *)
Definition component : WidgetComponentLib.WidgetComponent :=
  {| WidgetComponentLib.widgetId := js_string "w1";
     WidgetComponentLib.componentTypeId := js_string "TYPE-A";
     WidgetComponentLib.name := js_string "  Test Component  ";
     WidgetComponentLib.status := js_undefined;
     WidgetComponentLib.priority := WidgetComponentLib.jn_undefined;
     WidgetComponentLib.config := data_undefined |}.

End LibSample.

(** ** Query signatures *)

Module QuerySignature.
Import CacheMapModel.

(** A primitive parameter value. Numbers are the integers. *)
Inductive Prim :=
  | PBool (b : bool)
  | PNum (z : Z)
  | PStr (s : string).

(** A query descriptor: the query type name, the parameters as the
    object holds them (keys in insertion order), and the location scope. *)
Record QueryDescriptor := {
  queryType : string;
  params : list (string * Prim);
  locationScope : LocationScope
}.

(** In a parameter object every key occurs once. *)
Definition wellFormed (d : QueryDescriptor) : Prop :=
  NoDup (List.map fst (params d)).

(** Two descriptors ask the same query: same type, the same parameters up
    to the order of the keys, the same location scope. *)
Definition sameQuery (d1 d2 : QueryDescriptor) : Prop :=
  queryType d1 = queryType d2 /\
  params d1 ≡ₚ params d2 /\
  locationScope d1 = locationScope d2.

Definition dquote : ascii := "034"%char.
Definition backslash : ascii := "092"%char.

(** A string with its quotes and backslashes escaped. *)
Fixpoint escape (s : string) : string :=
  match s with
  | EmptyString => EmptyString
  | String c s' =>
      if Ascii.eqb c dquote || Ascii.eqb c backslash
      then String backslash (String c (escape s'))
      else String c (escape s')
  end.

(** A string literal: escaped, between quotes. *)
Definition quote (s : string) : string :=
  String dquote (escape s +:+ String dquote EmptyString).

Definition showZ (z : Z) : string := NilZero.string_of_int (Z.to_int z).

Definition showPrim (v : Prim) : string :=
  match v with
  | PBool true => "true"
  | PBool false => "false"
  | PNum z => showZ z
  | PStr s => quote s
  end.

(** The characters of a bare token: digits, the minus sign and the
    lower-case letters. *)
Definition bareChar (c : ascii) : bool :=
  let n := nat_of_ascii c in
  ((48 <=? n) && (n <=? 57))%nat || (n =? 45)%nat ||
  ((97 <=? n) && (n <=? 122))%nat.

(** The characters of a number: digits and the minus sign. *)
Definition numChar (c : ascii) : bool :=
  let n := nat_of_ascii c in
  ((48 <=? n) && (n <=? 57))%nat || (n =? 45)%nat.

(** The values written as bare tokens: booleans and numbers. *)
Definition bare (v : Prim) : bool :=
  match v with
  | PStr _ => false
  | _ => true
  end.

(** What follows the value of an entry: the closing brace after the last
    entry, a comma and the remaining entries otherwise. *)
Definition showRest (rest : list (string * Prim)) (entries : string)
  : string :=
  match rest with
  | [] => "}"
  | _ => "," +:+ entries
  end.

Fixpoint allChars (P : ascii -> bool) (s : string) : bool :=
  match s with
  | EmptyString => true
  | String c s' => P c && allChars P s'
  end.

(** The entries of an object after its opening brace: [key:value]
    separated by commas, then the closing brace. *)
Fixpoint showEntries (l : list (string * Prim)) : string :=
  match l with
  | [] => "}"
  | (k, v) :: rest =>
      quote k +:+ ":" +:+ showPrim v +:+ showRest rest (showEntries rest)
  end.

Definition showObject (l : list (string * Prim)) : string :=
  "{" +:+ showEntries l.

(** Insertion of an entry before the first entry with a greater key. *)
Fixpoint insertEntry (e : string * Prim) (l : list (string * Prim))
  : list (string * Prim) :=
  match l with
  | [] => [e]
  | x :: l' =>
      if String.ltb (fst e) (fst x) then e :: l
      else x :: insertEntry e l'
  end.

(** The entries sorted by key. *)
Definition sortByKey (l : list (string * Prim)) : list (string * Prim) :=
  fold_right insertEntry [] l.

Definition segment (seg : string * string) : string * Prim :=
  (fst seg, PStr (snd seg)).

(** Modelled from the spec: [normalize], the query signature of the cache
    framework (a dependency with no source in this repository). Section 3
    of the specification asks for a canonical, order-independent string
    derived from the query type name, the parameters (primitive values,
    keys sorted) and the location scope. Here: the quoted type name, the
    parameter object with its keys sorted, and the location segments in
    their order, separated by colons. *)
Definition normalize (d : QueryDescriptor) : string :=
  quote (queryType d) +:+ ":" +:+ showObject (sortByKey (params d)) +:+
  ":" +:+ showObject (List.map segment (locationScope d)).

(** Modelled from the spec: the completeness class under which the result
    of a query is stored (section 4.3 and property P2). *)
Definition completenessOf (d : QueryDescriptor) : Completeness :=
  match params d, locationScope d with
  | [], [] => if String.eqb (queryType d) "all" then complete else partial
  | _, _ => partial
  end.

(** Modelled from the spec: step 3 of [query]: the result of the remote
    query is stored under the signature of the descriptor. *)
Definition storeResult (cm : CacheMap) (now : nat) (d : QueryDescriptor)
    (keys : list ItemKey) : CacheMap :=
  setQueryResult cm now (normalize d) (locationScope d) keys
    (completenessOf d).

(** The entry cached for a descriptor, in either partition. *)
Definition cachedEntry (cm : CacheMap) (d : QueryDescriptor)
  : option QueryEntry :=
  match cm_queries cm !! (normalize d, locationScope d) with
  | Some e => Some e
  | None => cm_facets cm !! (normalize d, locationScope d)
  end.

(** The two descriptors of property P1. *)
Definition allWidgets : QueryDescriptor :=
  {| queryType := "all"; params := []; locationScope := [] |}.

Definition activeWidgets : QueryDescriptor :=
  {| queryType := "all"; params := [("isActive", PBool true)];
     locationScope := [] |}.

(** The same filter with its keys given in two orders. *)
Definition byTypeActive : QueryDescriptor :=
  {| queryType := "all";
     params := [("widgetTypeId", PStr "abc"); ("isActive", PBool true)];
     locationScope := [] |}.

Definition activeByType : QueryDescriptor :=
  {| queryType := "all";
     params := [("isActive", PBool true); ("widgetTypeId", PStr "abc")];
     locationScope := [] |}.

End QuerySignature.

(** ** The HTTP routes (routes/widgetRoutes.ts, widgetTypeRoutes.ts,
       index.ts) *)

Module Routes.

(** A JavaScript value as the response wrapper inspects it. An object is
    the list of its own properties, each key once. *)
#[local] Unset Elimination Schemes.
Inductive Json :=
  | JUndefined
  | JNull
  | JBool (b : bool)
  | JNumber (z : Z)
  | JString (s : string)
  | JArray (items : list Json)
  | JObject (props : list (string * Json)).
#[local] Set Elimination Schemes.

(** Truthiness: [undefined], [null], [false], [0] and the empty string are
    falsy. *)
Definition truthyJson (v : Json) : bool :=
  match v with
  | JUndefined | JNull => false
  | JBool b => b
  | JNumber z => negb (z =? 0)%Z
  | JString s => negb (String.eqb s EmptyString)
  | JArray _ | JObject _ => true
  end.

(** [body && typeof body === 'object'] *)
Definition isObject (v : Json) : bool :=
  match v with
  | JArray _ | JObject _ => true
  | _ => false
  end.

(** [Array.isArray(body)] *)
Definition isArray (v : Json) : bool :=
  match v with
  | JArray _ => true
  | _ => false
  end.

Fixpoint lookupProp (k : string) (props : list (string * Json))
  : option Json :=
  match props with
  | [] => None
  | (k', v) :: rest => if String.eqb k k' then Some v else lookupProp k rest
  end.

(** [k in body], for the property names the wrapper asks for (none of
    them is a property of an array). *)
Definition hasKey (k : string) (v : Json) : bool :=
  match v with
  | JObject props =>
      match lookupProp k props with Some _ => true | None => false end
  | _ => false
  end.

(** [body.k] *)
Definition getProp (k : string) (v : Json) : Json :=
  match v with
  | JObject props =>
      match lookupProp k props with Some x => x | None => JUndefined end
  | _ => JUndefined
  end.

(** [v || fallback] *)
Definition orElse (v : Json) (fallback : string) : Json :=
  if truthyJson v then v else JString fallback.

(** The state captured by the wrapper's closures: the status code set so
    far and whether the request is a DELETE. *)
Record Wrapper := {
  statusCode : Z;
  isDelete : bool
}.

(** [responseWrapper(req, res, next)], up to [next()]. *)
Definition responseWrapper (method : string) : Wrapper :=
  {| statusCode := 200; isDelete := String.eqb method "DELETE" |}.

(** The wrapped [res.status]. *)
Definition status (code : Z) (w : Wrapper) : Wrapper :=
  {| statusCode := code; isDelete := isDelete w |}.

Definition failure (e : Json) : Json :=
  JObject [("success", JBool false); ("error", e)].

Definition success (data : Json) : Json :=
  JObject [("success", JBool true); ("data", data)].

(** The wrapped [res.json]: the body handed to the original [json]. The
    wrappers of the widget router and of the widget type router differ in
    the message of a deletion only, which is the parameter [deleted]. *)
Definition json (deleted : string) (w : Wrapper) (body : Json) : Json :=
  if isDelete w && truthyJson body && isObject body && hasKey "key" body
     && (statusCode w =? 200)%Z
  then JObject [("success", JBool true); ("message", JString deleted)]
  else if isArray body then success body
  else if (400 <=? statusCode w)%Z then
    if truthyJson body && isObject body then
      if hasKey "success" body || hasKey "error" body then body
      else if hasKey "ik" body && hasKey "message" body then
        failure (orElse (getProp "message" body) "Item not found")
      else if hasKey "message" body then
        failure (orElse (getProp "message" body) "An error occurred")
      else failure (orElse (getProp "error" body) "An error occurred")
    else
      match body with
      | JString _ => failure body
      | _ => failure (JString "An error occurred")
      end
  else if truthyJson body && isObject body && hasKey "success" body
  then body
  else if truthyJson body && isObject body
          && negb (hasKey "success" body) && negb (hasKey "error" body)
  then success body
  else body.

(** The wrapper of the widget router and of the widget type router. *)
Definition widgetJson : Wrapper -> Json -> Json :=
  json "Widget deleted successfully".

Definition widgetTypeJson : Wrapper -> Json -> Json :=
  json "Widget type deleted successfully".

(** A widget as the library returns it, with the fields the routes read;
    times are milliseconds ([getTime()]). *)
Record WidgetItem := {
  id : string;
  widgetTypeId : string;
  name : string;
  isActive : bool;
  createdAt : Z
}.

Record WidgetTypeItem := {
  typeId : string;
  typeCode : string;
  typeName : string;
  typeActive : bool
}.

(** The counters of one widget type in the summary. *)
Record TypeCounts := {
  total : nat;
  active : nat;
  inactive : nat
}.

(** The names that an empty object inherits from [Object.prototype]:
    [byType[typeId]] is truthy for them before any widget was counted. *)
Definition inheritedName (k : string) : bool :=
  existsb (String.eqb k)
    ["constructor"; "toString"; "toLocaleString"; "valueOf";
     "hasOwnProperty"; "isPrototypeOf"; "propertyIsEnumerable";
     "__proto__"; "__defineGetter__"; "__defineSetter__";
     "__lookupGetter__"; "__lookupSetter__"].

(** No widget has a type id that is an inherited name (the ids are
    UUIDs). *)
Definition plainTypeIds (widgets : list WidgetItem) : Prop :=
  Forall (fun w => inheritedName (widgetTypeId w) = false) widgets.

(** One step of the [forEach] of the summary: the entry of the widget's
    type is created on its first widget and its counters are incremented.
    For an inherited name [byType[typeId]] is truthy from the start, so no
    entry is created and the increments go to the inherited value: the
    object keeps its own properties. *)
Definition countWidget (byType : gmap string TypeCounts) (widget : WidgetItem)
  : gmap string TypeCounts :=
  let typeId := widgetTypeId widget in
  if inheritedName typeId then byType
  else
    let entry := match byType !! typeId with
                 | Some c => c
                 | None => {| total := 0; active := 0; inactive := 0 |}
                 end in
    <[typeId :=
        if isActive widget
        then {| total := S (total entry); active := S (active entry);
                inactive := inactive entry |}
        else {| total := S (total entry); active := active entry;
                inactive := S (inactive entry) |}]> byType.

(** The [data] of the summary. *)
Record Summary := {
  sum_total : nat;
  sum_active : nat;
  sum_inactive : nat;
  byType : gmap string TypeCounts
}.

(** The summary of [GET /widgets/summary] for the widgets that
    [operations.all({})] returned. *)
Definition summary (widgets : list WidgetItem) : Summary :=
  let activeWidgets := List.filter (fun w => isActive w) widgets in
  let inactiveWidgets := List.filter (fun w => negb (isActive w)) widgets in
  {| sum_total := List.length widgets;
     sum_active := List.length activeWidgets;
     sum_inactive := List.length inactiveWidgets;
     byType := fold_left countWidget widgets ∅ |}.

Definition countsJson (c : TypeCounts) : Json :=
  JObject [("total", JNumber (Z.of_nat (total c)));
           ("active", JNumber (Z.of_nat (active c)));
           ("inactive", JNumber (Z.of_nat (inactive c)))].

Definition summaryJson (s : Summary) : Json :=
  JObject [("total", JNumber (Z.of_nat (sum_total s)));
           ("active", JNumber (Z.of_nat (sum_active s)));
           ("inactive", JNumber (Z.of_nat (sum_inactive s)));
           ("byType",
            JObject (List.map (fun kv => (fst kv, countsJson (snd kv)))
                              (map_to_list (byType s))))].

(** The handler of [GET /widgets/summary]: [operations.all({})] returned
    the widgets, or threw an Error with a message or some other value.
    The result is the wrapper state after the handler's [res.status] calls
    and the body handed to the wrapped [res.json]. *)
Definition summaryHandler (w : Wrapper)
    (all : CacheInitializer.Thrown + list WidgetItem) : Wrapper * Json :=
  match all with
  | inr widgets =>
      (w, JObject [("success", JBool true);
                   ("data", summaryJson (summary widgets))])
  | inl e =>
      (status 500 w,
       JObject [("success", JBool false);
                ("error",
                 JString match e with
                         | CacheInitializer.errorObject m => m
                         | CacheInitializer.otherValue =>
                             "Failed to get widget summary"
                         end)])
  end.

(** What the client of [GET /widgets/summary] receives. *)
Definition summaryResponse (all : CacheInitializer.Thrown + list WidgetItem)
  : Z * Json :=
  let '(w, body) := summaryHandler (responseWrapper "GET") all in
  (statusCode w, widgetJson w body).

(** The sum of the [total] counters of all groups. *)
Definition groupTotal (m : gmap string TypeCounts) : nat :=
  map_fold (fun _ c acc => total c + acc) 0 m.

(** The widgets of one type. *)
Definition ofType (t : string) (widgets : list WidgetItem)
  : list WidgetItem :=
  List.filter (fun w => String.eqb (widgetTypeId w) t) widgets.

(** The counters of a type in a [byType] object, zero when it has no
    entry. *)
Definition countsOf (m : gmap string TypeCounts) (t : string) : TypeCounts :=
  match m !! t with
  | Some c => c
  | None => {| total := 0; active := 0; inactive := 0 |}
  end.

(** [array.sort((a, b) => key(b) - key(a))] for integer keys: the stable
    sort by descending key, here by insertion from the right. *)
Fixpoint insertDescending {A} (key : A -> Z) (x : A) (l : list A) : list A :=
  match l with
  | [] => [x]
  | y :: l' =>
      if (key y <=? key x)%Z then x :: l else y :: insertDescending key x l'
  end.

Definition sortDescending {A} (key : A -> Z) (l : list A) : list A :=
  fold_right (insertDescending key) [] l.

(** One row of the dashboard's widget type breakdown. *)
Record Breakdown := {
  bd_id : string;
  bd_code : string;
  bd_name : string;
  bd_isActive : bool;
  widgetCount : nat;
  activeWidgetCount : nat
}.

Definition widgetTypeBreakdown (widgetTypes : list WidgetTypeItem)
    (widgets : list WidgetItem) : list Breakdown :=
  List.map
    (fun wt =>
       let typeWidgets :=
         List.filter (fun w => String.eqb (widgetTypeId w) (typeId wt))
                     widgets in
       {| bd_id := typeId wt;
          bd_code := typeCode wt;
          bd_name := typeName wt;
          bd_isActive := typeActive wt;
          widgetCount := List.length typeWidgets;
          activeWidgetCount :=
            List.length (List.filter (fun w => isActive w) typeWidgets) |})
    widgetTypes.

(** The dashboard's recent activity: the widgets sorted by creation time,
    newest first, the first ten of them, each reduced to its id, name,
    type id, active flag and creation time. *)
Definition recentWidgets (widgets : list WidgetItem) : list WidgetItem :=
  List.map
    (fun w => {| id := id w; name := name w;
                 widgetTypeId := widgetTypeId w; isActive := isActive w;
                 createdAt := createdAt w |})
    (take 10 (sortDescending createdAt widgets)).

Record DashboardSummary := {
  totalWidgetTypes : nat;
  activeWidgetTypes : nat;
  totalWidgets : nat;
  activeWidgets : nat
}.

Record Dashboard := {
  dashboardSummary : DashboardSummary;
  breakdown : list Breakdown;
  recentActivity : list WidgetItem
}.

(** The [data] of [GET /dashboard]. *)
Definition dashboard (widgetTypes : list WidgetTypeItem)
    (widgets : list WidgetItem) : Dashboard :=
  let widgetTypeBreakdown := widgetTypeBreakdown widgetTypes widgets in
  let recentWidgets := recentWidgets widgets in
  {| dashboardSummary :=
       {| totalWidgetTypes := List.length widgetTypes;
          activeWidgetTypes :=
            List.length (List.filter (fun wt => typeActive wt) widgetTypes);
          totalWidgets := List.length widgets;
          activeWidgets :=
            List.length (List.filter (fun w => isActive w) widgets) |};
     breakdown := widgetTypeBreakdown;
     recentActivity := recentWidgets |}.

(** The sum of the widget counts of the breakdown rows. *)
Definition breakdownTotal (rows : list Breakdown) : nat :=
  fold_right (fun r acc => widgetCount r + acc) 0 rows.

(** Every widget names a widget type of the list. *)
Definition allTypesListed (widgetTypes : list WidgetTypeItem)
    (widgets : list WidgetItem) : Prop :=
  Forall (fun w => existsb (fun wt => String.eqb (widgetTypeId w) (typeId wt))
                           widgetTypes = true) widgets.

Definition sampleTypes : list WidgetTypeItem :=
  [{| typeId := "wt-1"; typeCode := "BUTTON"; typeName := "Button";
      typeActive := true |};
   {| typeId := "wt-2"; typeCode := "LEGACY"; typeName := "Legacy";
      typeActive := false |}].

(** Sample widgets: two of one type, one of another. *)
Definition sampleWidgets : list WidgetItem :=
  [{| id := "w1"; widgetTypeId := "wt-1"; name := "Submit";
      isActive := true; createdAt := 300 |};
   {| id := "w2"; widgetTypeId := "wt-2"; name := "Legacy";
      isActive := false; createdAt := 100 |};
   {| id := "w3"; widgetTypeId := "wt-1"; name := "Cancel";
      isActive := true; createdAt := 200 |}].

End Routes.

(** ** The asynchronous getters of client/cache/ClientCache.ts and the
       page outside a browser *)

Module ClientGetters.
Import CacheFramework ClientCache.

(** How the promise of an asynchronous getter has settled. *)
Inductive Outcome :=
  | resolves (v : option Cache)
  | rejects.

(** How the call of [initializeCaches] made by [caller] has settled, if it
    has. *)
Definition callSettled (caller : nat) (w : World) : option bool :=
  snd <$> List.find (fun s => Nat.eqb (fst s) caller) (settled w).

(** [getWidgetCache], [getWidgetTypeCache] and [getWidgetComponentCache],
    for the variable of the module [m], up to the first suspension: with
    the variable set the getter returns it; otherwise it calls
    [initializeCaches] (as [caller]) and awaits that call. *)
Definition getCache (m : CacheModule) (caller : nat) (w : World)
  : World * option Outcome :=
  match varOf m (vars w) with
  | Some c => (w, Some (resolves (varOf m (vars w))))
  | None => (initializeCaches caller w, None)
  end.

(** The getter after its [await]: once the awaited call has settled, the
    getter returns the variable as it is then (the [!] of the source is
    erased at run time), or rejects with the call. *)
Definition getCacheResumed (m : CacheModule) (caller : nat) (w : World)
  : option Outcome :=
  match callSettled caller w with
  | Some true => Some (resolves (varOf m (vars w)))
  | Some false => Some rejects
  | None => None
  end.

(** The three variables hold the instances that the modules export. *)
Definition allSet (v : Vars) : Prop :=
  forall m, varOf m v = Some (exported m).

(** A promise is fulfilled, and a call has resolved, only with the
    component cache variable set. *)
Record Resolved (w : World) : Prop := {
  res_promise :
    forall p, promises w !! p = Some fulfilled ->
              isSome (_widgetComponentCache (vars w)) = true;
  res_call :
    forall caller, (caller, true) ∈ settled w ->
                   isSome (_widgetComponentCache (vars w)) = true
}.

(** The page outside a browser: no variable is set, nothing is suspended,
    no module has been evaluated, every promise and every call has been
    rejected, and every start has failed. *)
Record ServerSide (w : World) : Prop := {
  ss_browser : browser w = false;
  ss_vars : forall m, varOf m (vars w) = None;
  ss_flag : _isInitializing (vars w) = false;
  ss_bodies : bodies w = [];
  ss_evaluated : evaluated w = [];
  ss_promises : Forall (fun p => p = rejected) (promises w);
  ss_settled : Forall (fun s => snd s = false) (settled w);
  ss_starts : starts w = failures w
}.

(** A promise is rejected, and a call has been rejected, only after the
    console error of a failed initialization. *)
Record Logged (w : World) : Prop := {
  log_promise :
    forall p, promises w !! p = Some rejected -> 0 < failures w;
  log_call :
    forall caller, (caller, false) ∈ settled w -> 0 < failures w
}.

(** The actions of one initialization, started by [caller], whose three
    imports succeed; [p] is the promise of its body. *)
Definition successfulInitialization (caller p : nat) : list Action :=
  [call caller; importDone p true; importDone p true; importDone p true;
   continue caller].

(** The console lines of a successful initialization. *)
Definition successLines : list Line :=
  [starting; loading modWidgetCache;
   loaded modWidgetCache; loading modWidgetTypeCache;
   loaded modWidgetTypeCache; loading modWidgetComponentCache;
   loaded modWidgetComponentCache; allInitialized].

(** The initializer's environment reports how its call of
    [initializeCaches] (made as [caller]) has ended in the page state
    [w]. *)
Definition observes (env : CacheInitializer.Env) (caller : nat) (w : World)
  : Prop :=
  match CacheInitializer.initializeCachesResult env with
  | inr v => callSettled caller w = Some true /\ v = vars w
  | inl _ => callSettled caller w = Some false
  end.

End ClientGetters.

(** *** The outcomes of the initializer's wait *)

Module Startup.
Import CacheInitializer.




End Startup.

(** *** What the create hooks leave *)

Module HookProps.
Import JsString.

(** A name as the libraries store it: a non-empty string of at most 255
    characters without surrounding white space. *)
Definition storableName (v : JsStr) : Prop :=
  exists s, v = js_string s /\ trimmed s /\ s <> EmptyString /\
            String.length s <= 255.


End HookProps.

(** ** The widget list (client/components/WidgetList.tsx) *)

Module WidgetList.

(** A widget as the list reads it: [createdAt] is the time of the
    property when it is truthy, [eventsCreatedAt] the time of
    [events.created.at]; times are milliseconds ([getTime()]). *)
Record Widget := {
  id : string;
  name : string;
  isActive : bool;
  createdAt : option Z;
  eventsCreatedAt : Z
}.

(** [new Date(a.createdAt || a.events.created.at).getTime()] *)
Definition createdTime (a : Widget) : Z :=
  match createdAt a with
  | Some t => t
  | None => eventsCreatedAt a
  end.

(** [filteredWidgets]: the widgets that pass the active filter, sorted by
    creation time, newest first. *)
Definition filteredWidgets (showInactive : bool) (widgets : list Widget)
  : list Widget :=
  Routes.sortDescending createdTime
    (List.filter (fun widget => showInactive || isActive widget) widgets).

(** [formatData(data)]: [None] stands for falsy data, [Some jsonStr] for
    data on which [JSON.stringify] returns [jsonStr]. *)
Definition formatData (data : option string) : string :=
  match data with
  | None => "No data"
  | Some jsonStr =>
      if Nat.ltb 50 (String.length jsonStr)
      then String.substring 0 47 jsonStr +:+ "..."
      else jsonStr
  end.

Definition sampleList : list Widget :=
  [{| id := "w1"; name := "Old"; isActive := true;
      createdAt := None; eventsCreatedAt := 100 |};
   {| id := "w2"; name := "Retired"; isActive := false;
      createdAt := Some 300%Z; eventsCreatedAt := 250 |};
   {| id := "w3"; name := "New"; isActive := true;
      createdAt := Some 200%Z; eventsCreatedAt := 150 |}].

End WidgetList.

(** * Properties *)

Lemma truthy_string (v : JsStr) :
  truthy v = true <-> exists s, v = js_string s /\ s <> EmptyString.
Proof.
  destruct v as [| |s]; simpl; split; try discriminate.
  - intros (s & Hs & _); discriminate.
  - intros (s & Hs & _); discriminate.
  - intros H. exists s. split; [reflexivity|].
    intros ->. discriminate.
  - intros (s' & [= <-] & Hne).
    destruct (String.eqb_spec s EmptyString); [contradiction|reflexivity].
Qed.


Module CacheMapFacts.
Import CacheMapModel.

Lemma queryIn_clearQueryResults cm now sig scope :
  queryIn (clearQueryResults cm) now sig scope = None.
Proof.
  unfold queryIn, clearQueryResults; simpl.
  by rewrite !lookup_empty.
Qed.

Lemma clearQueryResults_items cm :
  cm_items (clearQueryResults cm) = cm_items cm.
Proof. reflexivity. Qed.

Lemma clearQueryResults_idem cm :
  clearQueryResults (clearQueryResults cm) = clearQueryResults cm.
Proof. reflexivity. Qed.

End CacheMapFacts.

(** ** The cross-cache subscriptions *)

Module CoordinatorFacts.
Import CacheMapModel CacheFramework CacheIndex Coordinator.

Lemma hasNonEmptyId_truthy (event : CacheEvent) :
  hasNonEmptyId event <-> truthy (item_id event) = true.
Proof.
  unfold hasNonEmptyId, item_id. rewrite truthy_string. split.
  - intros (i & s & -> & Hid & Hne). eauto.
  - destruct (item event) as [i|]; intros (s & Hs & Hne);
      [eauto | discriminate].
Qed.

Lemma emit_widgetType_removed (event : CacheEvent) (c : Caches) :
  type event = item_removed -> truthy (item_id event) = true ->
  emit WidgetType event c =
    (clearWidgetQueries c,
     [console level_log "WidgetType item_removed detected:" (item_id event);
      clearQueryResultsCall Widget]).
Proof.
  intros Ht Hid. unfold emit; simpl. unfold widgetTypeHandler.
  rewrite Ht, Hid. reflexivity.
Qed.

Lemma emit_widget_removed (event : CacheEvent) (c : Caches) :
  type event = item_removed -> truthy (item_id event) = true ->
  emit Widget event c =
    (clearWidgetComponentQueries c,
     [console level_log "Widget item_removed detected:" (item_id event);
      console level_log "Widget removed, invalidating related components:"
        (item_id event);
      clearQueryResultsCall WidgetComponent]).
Proof.
  intros Ht Hid. unfold emit; simpl.
  unfold widgetLogHandler, widgetRemovedHandler.
  rewrite Ht, Hid. reflexivity.
Qed.

(** C1. An [item_removed] event from the widgetType cache whose item has a
    non-empty id makes the subscription call [clearQueryResults] on the
    widget cache map: its query and facet partitions are emptied, its items
    stay, and every later [queryIn] on it is a miss. The same event from
    the widget cache does this to the widgetComponent cache. *)
Theorem removal_clears_dependent_cache (event : CacheEvent) (c : Caches) :
  type event = item_removed ->
  hasNonEmptyId event ->
  (let r := emit WidgetType event c in
   clearQueryResultsCall Widget ∈ snd r /\
   contents (cacheMap (widgetCache (fst r))) =
     clearQueryResults (contents (cacheMap (widgetCache c))) /\
   forall now sig scope,
     queryIn (contents (cacheMap (widgetCache (fst r)))) now sig scope
       = None) /\
  (let r := emit Widget event c in
   clearQueryResultsCall WidgetComponent ∈ snd r /\
   contents (cacheMap (widgetComponentCache (fst r))) =
     clearQueryResults (contents (cacheMap (widgetComponentCache c))) /\
   forall now sig scope,
     queryIn (contents (cacheMap (widgetComponentCache (fst r))))
       now sig scope = None).
Proof.
  intros Ht Hid. apply hasNonEmptyId_truthy in Hid. split.
  - rewrite (emit_widgetType_removed _ _ Ht Hid); simpl.
    split; [set_solver|]. split; [reflexivity|].
    intros. apply CacheMapFacts.queryIn_clearQueryResults.
  - rewrite (emit_widget_removed _ _ Ht Hid); simpl.
    split; [set_solver|]. split; [reflexivity|].
    intros. apply CacheMapFacts.queryIn_clearQueryResults.
Qed.

Example components_cached_before :
  queryIn (contents (cacheMap (widgetComponentCache Sample.caches))) 20
    "byWidget" [("widget", "w1")] = Some [Sample.componentKey].
Proof. vm_compute. reflexivity. Qed.

Lemma removal_clears_dependent_cache_witness :
  type (Sample.removed "w1") = item_removed /\
  hasNonEmptyId (Sample.removed "w1") /\
  queryIn
    (contents (cacheMap (widgetComponentCache
       (fst (emit Widget (Sample.removed "w1") Sample.caches)))))
    20 "byWidget" [("widget", "w1")] = None.
Proof.
  assert (Hid : hasNonEmptyId (Sample.removed "w1")).
  { exists {| id := js_string "w1" |}, "w1".
    split; [reflexivity|]. split; [reflexivity|discriminate]. }
  split; [reflexivity|]. split; [exact Hid|].
  apply (removal_clears_dependent_cache (Sample.removed "w1")
           Sample.caches eq_refl Hid).
Defined.

(** C2, as stated, fails: a widget [item_created] event neither applies an
    invalidation rule nor logs a warning (its only effect is a
    [console.log] line). *)
Lemma created_widget_no_rule_no_warning :
  effectsOf Widget (Sample.created "w1") Sample.caches =
    [console level_log "Widget item_created detected:" (js_string "w1")] /\
  ruleOrWarning (effectsOf Widget (Sample.created "w1") Sample.caches)
    = false.
Proof. split; reflexivity. Qed.

(** The effects of an item event, per source. *)
Lemma effectsOf_item_event (source : CacheName) event c :
  isItemEvent (type event) = true ->
  effectsOf source event c =
    console level_log
      (sourceLabel source +:+ " " +:+ eventTypeName (type event)
         +:+ " detected:")
      (item_id event)
    :: (if isRemoved (type event) && truthy (item_id event) then
          match source with
          | Widget =>
              [console level_log
                 "Widget removed, invalidating related components:"
                 (item_id event);
               clearQueryResultsCall WidgetComponent]
          | WidgetType => [clearQueryResultsCall Widget]
          | WidgetComponent => []
          end
        else []).
Proof.
  intros Hev. unfold effectsOf, emit.
  destruct source; simpl;
    unfold widgetLogHandler, widgetRemovedHandler, widgetTypeHandler,
      widgetComponentHandler;
    rewrite ?Hev;
    destruct (isRemoved (type event) && truthy (item_id event));
    reflexivity.
Qed.

(** C2, amended. For each of the three sources and each of the three item
    events, delivery is never silent: the effects contain the
    [console.log] line "<Source> <event> detected:" with the item's id. No
    warning is logged for any pair, and [clearQueryResults] is called
    exactly for an [item_removed] event with a non-empty id from the
    widgetType or the widget cache, on the dependent cache. *)
Theorem every_item_event_is_logged
    (source : CacheName) (event : CacheEvent) (c : Caches) :
  isItemEvent (type event) = true ->
  let effects := effectsOf source event c in
  console level_log
    (sourceLabel source +:+ " " +:+ eventTypeName (type event)
       +:+ " detected:")
    (item_id event) ∈ effects /\
  existsb isWarning effects = false /\
  (forall target,
     clearQueryResultsCall target ∈ effects <->
     type event = item_removed /\ hasNonEmptyId event /\
     dependent source = Some target).
Proof.
  intros Hev effects. subst effects.
  rewrite (effectsOf_item_event source event c Hev).
  split; [apply list_elem_of_here|].
  split.
  - destruct (isRemoved (type event) && truthy (item_id event));
      destruct source; reflexivity.
  - intros target. rewrite hasNonEmptyId_truthy.
    assert (Hrem : isRemoved (type event) = true <->
                   type event = item_removed).
    { destruct (type event); simpl; split; congruence. }
    destruct (isRemoved (type event)) eqn:Hr;
      destruct (truthy (item_id event)) eqn:Hid; simpl.
    + destruct source; simpl;
        rewrite ?elem_of_cons, elem_of_nil; split.
      * intros [H|[H|[H|[]]]]; try discriminate H.
        injection H as ->. split; [by apply Hrem|]. by split.
      * intros (_ & _ & [= <-]). right. right. by left.
      * intros [H|[H|[]]]; try discriminate H.
        injection H as ->. split; [by apply Hrem|]. by split.
      * intros (_ & _ & [= <-]). right. by left.
      * intros [H|[]]; discriminate H.
      * intros (_ & _ & H); discriminate H.
    + rewrite elem_of_cons, elem_of_nil. split.
      * intros [H|[]]; discriminate H.
      * intros (_ & H & _); discriminate H.
    + rewrite elem_of_cons, elem_of_nil. split.
      * intros [H|[]]; discriminate H.
      * intros (H & _). apply Hrem in H. discriminate H.
    + rewrite elem_of_cons, elem_of_nil. split.
      * intros [H|[]]; discriminate H.
      * intros (_ & H & _); discriminate H.
Qed.

Lemma every_item_event_is_logged_witness :
  isItemEvent (type (Sample.created "w1")) = true /\
  existsb isWarning (effectsOf Widget (Sample.created "w1") Sample.caches)
    = false.
Proof.
  split; [reflexivity|].
  apply (every_item_event_is_logged Widget (Sample.created "w1")
           Sample.caches eq_refl).
Defined.

End CoordinatorFacts.

(** ** The cache modules: options and statistics *)

Module CacheModuleFacts.
Import CacheMapModel CacheFramework CacheIndex CacheModuleProps.

Lemma clearQueries_options (c : Cache) :
  options (clearQueries c) = options c /\
  cm_opts (contents (cacheMap (clearQueries c))) =
    cm_opts (contents (cacheMap c)).
Proof. split; reflexivity. Qed.

Lemma deliver_options hs event c :
  let c' := fst (deliver hs event c) in
  Forall (fun h => forall c0 n,
            options (cacheOf n (fst (h event c0))) = options (cacheOf n c0))
         hs ->
  forall n, options (cacheOf n c') = options (cacheOf n c).
Proof.
  simpl. intros Hall. revert c.
  induction Hall as [|h hs Hh _ IH]; intros c n; simpl; [reflexivity|].
  destruct (h event c) as [c1 e1] eqn:E1.
  destruct (deliver hs event c1) as [c2 e2] eqn:E2. simpl.
  specialize (IH c1 n). rewrite E2 in IH. simpl in IH. rewrite IH.
  specialize (Hh c n). rewrite E1 in Hh. exact Hh.
Qed.

Lemma emit_options source event c n :
  options (cacheOf n (fst (emit source event c))) = options (cacheOf n c).
Proof.
  apply deliver_options.
  destruct source; simpl; repeat constructor; intros c0 n0;
    unfold widgetLogHandler, widgetRemovedHandler, widgetTypeHandler,
      widgetComponentHandler;
    repeat match goal with |- context [if ?b then _ else _] =>
             destruct b end;
    destruct n0; reflexivity.
Qed.

(** C4. Each of the three cache modules builds its options, for any
    database and store name, with itemTTL = 900, queryTTL = 300 and
    facetTTL = 60 seconds, so facetTTL <= queryTTL <= itemTTL; each cache
    instance is constructed with these options, its cache map carries
    them, and delivering an event leaves the options of every instance
    as constructed. *)
Theorem cache_options_ttls (dbName storeName : string) :
  ttlsAsSpecified (WidgetCache.createCacheOptions dbName storeName) /\
  ttlsAsSpecified (WidgetTypeCache.createCacheOptions dbName storeName) /\
  ttlsAsSpecified (WidgetComponentCache.createCacheOptions dbName storeName)
  /\
  (forall n,
     ttlsAsSpecified (options (cacheOf n initialCaches)) /\
     cm_opts (contents (cacheMap (cacheOf n initialCaches))) =
       twoLayer (options (cacheOf n initialCaches))) /\
  (forall source event c n,
     options (cacheOf n (fst (emit source event c))) =
       options (cacheOf n c)).
Proof.
  unfold ttlsAsSpecified. repeat split; simpl; try lia.
  all: try (destruct n; simpl; lia).
  - destruct n; reflexivity.
  - intros. apply emit_options.
Qed.

(** C7. In each cache module, [getCacheStats] returns the item count of
    [getCurrentSize], and, when the cache map has a [getTwoLayerStats]
    function, the complete and partial counts of its query metadata as
    queryCount and facetCount; when the property is missing or is not a
    function, both counts are 0. *)
Theorem getCacheStats_fields (c : Cache) (now : nat) :
  statsAsSpecified c now (WidgetCache.getCacheStats c now) /\
  statsAsSpecified c now (WidgetTypeCache.getCacheStats c now) /\
  statsAsSpecified c now (WidgetComponentCache.getCacheStats c now).
Proof.
  unfold statsAsSpecified, WidgetCache.getCacheStats,
    WidgetTypeCache.getCacheStats, WidgetComponentCache.getCacheStats.
  destruct (statsProp (cacheMap c)); simpl; repeat split.
Qed.

Example stats_of_cached_widgets :
  WidgetCache.getCacheStats Sample.widgetsCached 20 =
    {| stat_itemCount := 1; queryCount := 1; facetCount := 0 |} /\
  WidgetCache.getCacheStats Sample.widgetsCached 400 =
    {| stat_itemCount := 1; queryCount := 0; facetCount := 0 |} /\
  WidgetComponentCache.getCacheStats Sample.componentsCached 20 =
    {| stat_itemCount := 1; queryCount := 0; facetCount := 1 |}.
Proof. repeat split; vm_compute; reflexivity. Qed.

End CacheModuleFacts.

(** ** The lazily initialised client caches *)

Module ClientCacheFacts.
Import CacheFramework ClientCache.

Lemma countLine_app l c1 c2 :
  countLine l (c1 ++ c2) = countLine l c1 + countLine l c2.
Proof. unfold countLine. by rewrite List.filter_app, List.length_app. Qed.

Lemma moduleEqb_eq a b : moduleEqb a b = true <-> a = b.
Proof. destruct a, b; simpl; split; congruence. Qed.

Lemma existsb_moduleEqb m ms :
  existsb (moduleEqb m) ms = true <-> m ∈ ms.
Proof.
  rewrite existsb_exists. split.
  - intros (x & Hin & Heq). apply moduleEqb_eq in Heq. subst.
    by apply list_elem_of_In.
  - intros Hin. exists m. split; [by apply list_elem_of_In|].
    by apply moduleEqb_eq.
Qed.

Lemma evaluate_NoDup m ms : NoDup ms -> NoDup (evaluate m ms).
Proof.
  intros Hnd. unfold evaluate.
  destruct (existsb (moduleEqb m) ms) eqn:He; [assumption|].
  apply NoDup_app. split; [assumption|]. split.
  - intros x Hx Hx'. apply list_elem_of_singleton in Hx'. subst x.
    apply existsb_moduleEqb in Hx. congruence.
  - apply NoDup_singleton.
Qed.

Lemma populatedIn_app m c1 c2 :
  populatedIn m (c1 ++ c2) = populatedIn m c1 || populatedIn m c2.
Proof. apply existsb_app. Qed.

Lemma inv_initial b : Inv (initialWorld b).
Proof.
  constructor; simpl; try discriminate; try reflexivity.
  - apply NoDup_nil_2.
  - repeat split; discriminate.
  - by intros [].
Qed.

Lemma not_all_set_component_unset w :
  Inv w -> alreadyInitializing (vars w) = false ->
  _isInitializing (vars w) = false /\ bodies w = [] /\
  _widgetComponentCache (vars w) = None.
Proof.
  intros HI Hg. unfold alreadyInitializing in Hg.
  apply orb_false_iff in Hg as [Hflag Hset].
  split; [assumption|]. split; [by apply (inv_idle w HI)|].
  destruct (_widgetComponentCache (vars w)) eqn:Hc; [|reflexivity].
  destruct (inv_done w HI) as (H1 & H2 & _); [by rewrite Hc|].
  rewrite H1, H2 in Hset. discriminate.
Qed.

Lemma inv_call caller w : Inv w -> Inv (initializeCaches caller w).
Proof.
  intros HI. unfold initializeCaches.
  destruct (alreadyInitializing (vars w)) eqn:Hg.
  - destruct (_initPromise (vars w)); destruct HI; constructor; assumption.
  - destruct (not_all_set_component_unset w HI Hg) as (Hflag & Hb & Hc).
    pose proof (inv_starts w HI) as Hs.
    pose proof (inv_successes w HI) as Hsucc.
    pose proof (inv_instances w HI) as Hinst.
    pose proof (inv_evaluated w HI) as Hev.
    assert (Hpop : forall m l,
              populatedIn m l = false ->
              isSome (varOf m (vars w)) = populatedIn m (console w ++ l)).
    { intros m l Hl. rewrite populatedIn_app, Hl, orb_false_r.
      apply (inv_populated w HI). }
    assert (Hcomp : varOf modWidgetComponentCache (vars w) = None)
      by exact Hc.
    destruct (browser w); constructor; simpl;
      unfold starts, failures, successes in *; simpl;
      rewrite ?countLine_app, ?Hb, ?Hc in *; simpl in *;
      try assumption; try discriminate; try lia.
    1: { intros _. exists (List.length (promises w)), importWidgetCache.
         split; [reflexivity|]. split; [reflexivity|].
         split; [by rewrite lookup_app_r, Nat.sub_diag by lia|].
         split; [reflexivity|]. split; [discriminate|discriminate]. }
    all: try (intros m; unfold populated; simpl;
              rewrite <- Hpop by reflexivity;
              destruct m; simpl; by rewrite ?Hcomp).
    all: try reflexivity; unfold countLine in *; simpl in *; lia.
Qed.

(** A suspended body is the only one, and its promise is the memoized
    pending one. *)
Lemma stageOf_Some w p s :
  Inv w -> stageOf p (bodies w) = Some s ->
  _isInitializing (vars w) = true /\ bodies w = [(p, s)] /\
  _initPromise (vars w) = Some p /\ promises w !! p = Some pending /\
  _widgetComponentCache (vars w) = None /\
  (s = importWidgetTypeCache -> isSome (_widgetCache (vars w)) = true) /\
  (s = importWidgetComponentCache ->
   isSome (_widgetCache (vars w)) = true /\
   isSome (_widgetTypeCache (vars w)) = true).
Proof.
  intros HI Hst.
  destruct (_isInitializing (vars w)) eqn:Hflag.
  - destruct (inv_flag w HI Hflag) as (p0 & s0 & Hb & Hrest).
    rewrite Hb in Hst. unfold stageOf in Hst. simpl in Hst.
    destruct (Nat.eqb_spec p0 p) as [->|Hne]; simpl in Hst;
      [|discriminate].
    injection Hst as ->. by split.
  - rewrite (inv_idle w HI Hflag) in Hst. discriminate.
Qed.

Lemma inv_import p ok w : Inv w -> Inv (importSettles p ok w).
Proof.
  intros HI. unfold importSettles.
  destruct (stageOf p (bodies w)) as [s|] eqn:Hst; [|assumption].
  destruct (stageOf_Some w p s HI Hst)
    as (Hflag & Hb & Hp & Hpend & Hc & Hs2 & Hs3).
  pose proof (inv_starts w HI) as Hs.
  pose proof (inv_successes w HI) as Hsucc.
  destruct (inv_instances w HI) as (Hi1 & Hi2 & Hi3).
  pose proof (inv_evaluated w HI) as Hev.
  pose proof (lookup_lt_Some _ _ _ Hpend) as Hlt.
  assert (Hpop : forall m l,
            isSome (varOf m (vars w)) || populatedIn m l =
            populatedIn m (console w ++ l)).
  { intros m l. rewrite populatedIn_app. f_equal.
    apply (inv_populated w HI). }
  assert (Hrm : removeBody p [(p, s)] = []).
  { unfold removeBody. simpl. by rewrite Nat.eqb_refl. }
  assert (Hset : forall s', setStage p s' [(p, s)] = [(p, s')]).
  { intros s'. unfold setStage. simpl. by rewrite Nat.eqb_refl. }
  unfold starts, failures, successes in *. rewrite Hb, Hc in *.
  destruct ok; [destruct s|]; constructor; simpl;
    unfold starts, failures, successes; simpl;
    rewrite ?countLine_app, ?Hrm, ?Hset, ?Hflag, ?Hp, ?Hc; simpl;
    try discriminate; try reflexivity;
    try (by apply evaluate_NoDup);
    try (unfold countLine in *; simpl in *; lia).
  all: rewrite ?Nat.eqb_refl; simpl;
    try (specialize (Hs2 eq_refl)); try (specialize (Hs3 eq_refl)).
  all: try (unfold countLine in *; simpl in *; lia).
  all: try assumption; try reflexivity.
  all: try (repeat split; intros c Hc'; try discriminate Hc';
            try (injection Hc' as <-; reflexivity); auto; fail).
  all: try (intros _; eexists _, _; repeat split;
            (reflexivity || eassumption || discriminate || tauto); fail).
  all: try (intros m; unfold populated; simpl; rewrite <- Hpop;
            destruct m; simpl;
            rewrite ?Hc, ?orb_true_r, ?orb_false_r; done).
  intros _. destruct Hs3 as [H1 H2].
  split; [assumption|]. split; [assumption|].
  exists p. split; [reflexivity|]. unfold settle.
  by apply list_lookup_insert_eq.
Qed.

Lemma inv_resume caller w : Inv w -> Inv (resume caller w).
Proof.
  intros HI. unfold resume.
  destruct (List.find _ (awaiting w)) as [[c p]|]; [|assumption].
  destruct (promises w !! p) as [[| |]|]; try assumption;
    destruct HI; constructor; assumption.
Qed.

Lemma inv_step a w : Inv w -> Inv (step a w).
Proof.
  destruct a; simpl;
    [apply inv_call | apply inv_import | apply inv_resume].
Qed.

Lemma inv_run actions w : Inv w -> Inv (run actions w).
Proof.
  revert w. induction actions as [|a actions IH]; intros w HI; simpl;
    [assumption|].
  apply IH. by apply inv_step.
Qed.

Lemma reachable_inv w : reachable w -> Inv w.
Proof.
  intros (b & actions & ->). apply inv_run, inv_initial.
Qed.

Lemma constructions_le_1 m w : NoDup (evaluated w) -> constructions m w <= 1.
Proof.
  unfold constructions. generalize (evaluated w) as l.
  induction 1 as [|x l Hnotin Hnd IH]; simpl; [lia|].
  destruct (moduleEqb m x) eqn:He; [|assumption].
  apply moduleEqb_eq in He. subst x.
  assert (Hnone : List.filter (moduleEqb m) l = []).
  { clear -Hnotin. induction l as [|y l IH]; simpl; [reflexivity|].
    destruct (moduleEqb m y) eqn:Hy.
    - apply moduleEqb_eq in Hy. subst y. exfalso. apply Hnotin. by left.
    - apply IH. intros Hin. apply Hnotin. by right. }
  rewrite Hnone. simpl. lia.
Qed.

Lemma successfulRun_reachable : reachable successfulRun.
Proof. exists true. eexists. reflexivity. Qed.

Lemma inFlight_reachable : reachable inFlight.
Proof. exists true. eexists. reflexivity. Qed.

(** C5, as stated, fails in its parenthesis: after a successful
    initialization the flag has been reset (by [finally]) although no
    initialization has failed. *)
Lemma flag_reset_after_success :
  reachable successfulRun /\
  starts successfulRun = 1 /\ failures successfulRun = 0 /\
  settled successfulRun = [(1, true)] /\
  _isInitializing (vars successfulRun) = false /\
  ~ resetOnlyAfterFailure successfulRun.
Proof.
  split; [apply successfulRun_reachable|].
  repeat (split; [reflexivity|]).
  intros H. unfold resetOnlyAfterFailure in H.
  assert (Hf : 0 < failures successfulRun).
  { apply H; [vm_compute; lia | left; reflexivity]. }
  vm_compute in Hf. lia.
Qed.

(** C5, amended. In every reachable state, a call of [initializeCaches]
    made while an initialization is in flight, or after one has completed
    successfully (the three variables are set), starts nothing: it changes
    no variable, creates no promise, starts no body, evaluates no module
    and logs nothing, and the caller awaits the memoized promise, which is
    the pending promise of the one suspended body while in flight and a
    fulfilled one afterwards. No cache module is evaluated (no instance
    constructed) more than once, at most one body is suspended and at most
    one initialization succeeds. The memoized promise is [null] only when
    every started initialization has failed; the flag is up exactly while
    a body is suspended, so it is reset on success as well as on failure. *)
Theorem initialization_is_memoized (w : World) (caller : nat) :
  reachable w ->
  (_isInitializing (vars w) = true \/
   (isSome (_widgetCache (vars w)) = true /\
    isSome (_widgetTypeCache (vars w)) = true /\
    isSome (_widgetComponentCache (vars w)) = true) ->
   exists p,
     _initPromise (vars w) = Some p /\
     awaitsExisting caller p w (initializeCaches caller w) /\
     starts (initializeCaches caller w) = starts w /\
     (_isInitializing (vars w) = true ->
      promises w !! p = Some pending /\ exists s, bodies w = [(p, s)]) /\
     (_isInitializing (vars w) = false ->
      promises w !! p = Some fulfilled)) /\
  (forall m, constructions m w <= 1) /\
  List.length (bodies w) <= 1 /\
  successes w <= 1 /\
  starts w = failures w + successes w + List.length (bodies w) /\
  (_initPromise (vars w) = None -> starts w = failures w) /\
  (_isInitializing (vars w) = true <-> bodies w <> []).
Proof.
  intros Hr. pose proof (reachable_inv w Hr) as HI.
  pose proof (inv_starts w HI) as Hs.
  pose proof (inv_successes w HI) as Hsucc.
  assert (Hmem : alreadyInitializing (vars w) = true ->
                 exists p, _initPromise (vars w) = Some p /\
                   (_isInitializing (vars w) = true ->
                    promises w !! p = Some pending /\
                    exists s, bodies w = [(p, s)]) /\
                   (_isInitializing (vars w) = false ->
                    promises w !! p = Some fulfilled)).
  { intros Hg. destruct (_isInitializing (vars w)) eqn:Hflag.
    - destruct (inv_flag w HI Hflag) as (p & s & Hb & Hp & Hpend & _).
      exists p. split; [assumption|]. split; [eauto|discriminate].
    - unfold alreadyInitializing in Hg. rewrite Hflag in Hg. simpl in Hg.
      apply andb_true_iff in Hg as [_ Hc].
      destruct (inv_done w HI Hc) as (_ & _ & p & Hp & Hful).
      exists p. split; [assumption|]. split; [discriminate|auto]. }
  split; [|split; [|split; [|split; [|split; [|split]]]]].
  - intros Hcase.
    assert (Hg : alreadyInitializing (vars w) = true).
    { unfold alreadyInitializing.
      destruct Hcase as [->|(-> & -> & ->)]; [reflexivity|].
      apply orb_true_r. }
    destruct (Hmem Hg) as (p & Hp & Hfl & Hdone).
    exists p. split; [assumption|].
    unfold initializeCaches. rewrite Hg, Hp.
    split; [by repeat split|]. split; [reflexivity|]. by split.
  - intros m. apply constructions_le_1, (inv_evaluated w HI).
  - destruct (_isInitializing (vars w)) eqn:Hflag.
    + destruct (inv_flag w HI Hflag) as (p & s & -> & _). simpl. lia.
    + rewrite (inv_idle w HI Hflag). simpl. lia.
  - rewrite Hsucc. destruct (isSome _); lia.
  - exact Hs.
  - intros Hnone.
    destruct (_isInitializing (vars w)) eqn:Hflag.
    + destruct (inv_flag w HI Hflag) as (p & s & _ & Hp & _). congruence.
    + rewrite (inv_idle w HI Hflag) in Hs. simpl in Hs.
      destruct (isSome (_widgetComponentCache (vars w))) eqn:Hc.
      * destruct (inv_done w HI Hc) as (_ & _ & p & Hp & _). congruence.
      * lia.
  - split.
    + intros Hflag. destruct (inv_flag w HI Hflag) as (p & s & -> & _).
      discriminate.
    + intros Hne. destruct (_isInitializing (vars w)) eqn:Hflag;
        [reflexivity|].
      by rewrite (inv_idle w HI Hflag) in Hne.
Qed.

Lemma initialization_is_memoized_witness :
  reachable inFlight /\
  _isInitializing (vars inFlight) = true /\
  exists p, _initPromise (vars inFlight) = Some p /\
            awaitsExisting 2 p inFlight (initializeCaches 2 inFlight).
Proof.
  split; [apply inFlight_reachable|]. split; [reflexivity|].
  destruct (initialization_is_memoized inFlight 2 inFlight_reachable)
    as [H _].
  destruct (H (or_introl eq_refl)) as (p & Hp & Haw & _).
  exists p. by split.
Defined.

Example accessors_throw_initially (b : bool) :
  getWidgetCacheSync (vars (initialWorld b)) =
    (throws
       "Widget cache not yet initialized. Call initializeCaches() first.",
     []) /\
  getWidgetTypeCacheSync (vars (initialWorld b)) =
    (throws
       "Widget type cache not yet initialized. Call initializeCaches() first.",
     [notInitialized modWidgetTypeCache]) /\
  getWidgetComponentCacheSync (vars (initialWorld b)) =
    (throws
       "Widget component cache not yet initialized. Call initializeCaches() first.",
     [notInitialized modWidgetComponentCache]).
Proof. repeat split. Qed.

(** C10. In every reachable state each synchronous accessor throws an
    Error while its cache variable is [null], which it is as long as no
    initialization has populated it (has got past the import of its
    module); and whatever an accessor returns is a non-null value: the
    variable's content, which is the instance exported by the cache
    module. *)
Theorem sync_accessors_guard (w : World) :
  reachable w ->
  accessorGuards modWidgetCache w (getWidgetCacheSync (vars w)) /\
  accessorGuards modWidgetTypeCache w (getWidgetTypeCacheSync (vars w)) /\
  accessorGuards modWidgetComponentCache w
    (getWidgetComponentCacheSync (vars w)).
Proof.
  intros Hr. pose proof (reachable_inv w Hr) as HI.
  destruct (inv_instances w HI) as (H1 & H2 & H3).
  pose proof (inv_populated w HI) as Hpop.
  assert (Hunset : forall m, populated m w = false ->
                             varOf m (vars w) = None).
  { intros m Hm. specialize (Hpop m). rewrite Hm in Hpop.
    by destruct (varOf m (vars w)). }
  unfold accessorGuards, getWidgetCacheSync, getWidgetTypeCacheSync,
    getWidgetComponentCacheSync.
  repeat split; try (apply Hunset); simpl;
    try (intros ->; eexists; reflexivity);
    match goal with
    | H : fst (match ?v with _ => _ end) = returns _ |- _ =>
        destruct v as [c|] eqn:Hv; simpl in H;
        [injection H as <- | discriminate H]
    end;
    try discriminate; try reflexivity; f_equal; auto.
Qed.

Lemma sync_accessors_guard_witness :
  reachable successfulRun /\
  fst (getWidgetCacheSync (vars successfulRun)) =
    returns (Some WidgetCache.widgetCache) /\
  accessorGuards modWidgetCache successfulRun
    (getWidgetCacheSync (vars successfulRun)).
Proof.
  split; [apply successfulRun_reachable|]. split; [reflexivity|].
  apply (sync_accessors_guard successfulRun successfulRun_reachable).
Defined.

End ClientCacheFacts.

(** ** The cache initializer *)

Module CacheInitializerFacts.
Import CacheFramework ClientCache CacheInitializer.

Lemma raceWithTimeout_bounded p :
  (fst (raceWithTimeout p) <= timeoutMs)%N.
Proof.
  destruct p as [t|t e|]; simpl.
  - destruct (N.ltb_spec t timeoutMs); simpl; lia.
  - destruct (N.ltb_spec t timeoutMs); simpl; lia.
  - lia.
Qed.

Lemma waitForPromises_bounded ps :
  (fst (waitForPromises ps) <= timeoutMs)%N.
Proof.
  unfold waitForPromises. destruct ps as [|p ps]; [simpl; lia|].
  pose proof (raceWithTimeout_bounded (promiseAll (p :: ps))) as H.
  destruct (raceWithTimeout (promiseAll (p :: ps))) as [t [e|]]; exact H.
Qed.

(** The initializer waits at most ten seconds for the initialization
    promises and always ends with [isInitialized = true]. *)
Lemma initializeApp_bounded_and_initialized env :
  (waitedForPromises (initializeApp env) <= 10000)%N /\
  isInitialized (state (initializeApp env)) = true.
Proof.
  unfold initializeApp.
  destruct (initializeCachesResult env) as [e|v]; [simpl; split; [lia|done]|].
  destruct (fst (getWidgetCacheSync v)); [|simpl; split; [lia|done]].
  destruct (fst (getWidgetTypeCacheSync v)); [|simpl; split; [lia|done]].
  pose proof (waitForPromises_bounded (initPromisesOf env)) as H.
  destruct (waitForPromises (initPromisesOf env)) as [t l].
  destruct (storageEstimate env) as [[e|]|]; simpl; split; done.
Qed.

(** When the caches are initialized, a failure or a timeout of the
    IndexedDB initialization promises is logged as a warning and the
    application is rendered. *)
Lemma degraded_start_renders_children env v c1 c2 :
  initializeCachesResult env = inr v ->
  _widgetCache v = Some c1 -> _widgetTypeCache v = Some c2 ->
  (forall e, storageEstimate env <> Some (Some e)) ->
  render (state (initializeApp env)) = children.
Proof.
  intros Hv H1 H2 Hest. unfold initializeApp, getWidgetCacheSync,
    getWidgetTypeCacheSync. rewrite Hv, H1, H2. simpl.
  destruct (waitForPromises (initPromisesOf env)) as [t l].
  destruct (storageEstimate env) as [[e|]|]; try reflexivity.
  by destruct (Hest e).
Qed.

Example hanging_store_times_out :
  initializeApp hangingEnv =
    {| state := {| isInitialized := true; error := None |};
       waitedForPromises := 10000;
       lines := [failedOrTimedOut timeoutError; enablingProviders] |} /\
  render (state (initializeApp hangingEnv)) = children.
Proof. split; reflexivity. Qed.

(** Whenever [initializeCaches()] rejects with an Error that has a
    message, the warning panel is what is rendered. *)
Lemma rejected_initialization_renders_warning env message :
  initializeCachesResult env = inl (errorObject message) ->
  message <> EmptyString ->
  isInitialized (state (initializeApp env)) = true /\
  render (state (initializeApp env)) = warningPanel message.
Proof.
  intros Hrej Hne. unfold initializeApp. rewrite Hrej. simpl.
  split; [reflexivity|]. unfold render. simpl.
  by destruct (String.eqb_spec message EmptyString).
Qed.

(** C6, where the code departs from it. On the page where the dynamic
    import of a cache module failed, [initializeCaches()] rejects; the
    initializer logs the error, records its message and marks the
    application as initialized, and the component then renders the warning
    panel in place of the application. *)
Theorem failed_initialization_renders_warning_only :
  settled importFailed = [(1, false)] /\
  initializeApp importFailedEnv =
    {| state :=
         {| isInitialized := true;
            error := Some "Failed to fetch dynamically imported module" |};
       waitedForPromises := 0;
       lines :=
         [failedToInitialize
            (errorObject "Failed to fetch dynamically imported module")] |}
  /\
  render (state (initializeApp importFailedEnv)) =
    warningPanel "Failed to fetch dynamically imported module" /\
  render (state (initializeApp importFailedEnv)) <> children.
Proof. repeat split; try reflexivity. discriminate. Qed.

End CacheInitializerFacts.

(** ** String trimming *)

Module JsStringFacts.
Import JsString.

Lemma append_cons c (a b : string) : String c a +:+ b = String c (a +:+ b).
Proof. reflexivity. Qed.

Lemma append_nil (b : string) : EmptyString +:+ b = b.
Proof. reflexivity. Qed.

Lemma trimStart_prefix s :
  exists pre, s = pre +:+ trimStart s /\ allWhitespace pre = true.
Proof.
  induction s as [|c s IH]; simpl.
  - exists EmptyString. by split.
  - destruct (isWhitespace c) eqn:Hc.
    + destruct IH as (pre & Hs & Hpre).
      exists (String c pre). simpl. rewrite Hc, Hpre. split; [|done].
      rewrite append_cons. f_equal. exact Hs.
    + exists EmptyString. by split.
Qed.

Lemma trimStart_first s c :
  firstChar (trimStart s) = Some c -> isWhitespace c = false.
Proof.
  induction s as [|a s IH]; simpl; [discriminate|].
  destruct (isWhitespace a) eqn:Ha; [assumption|].
  simpl. by intros [= <-].
Qed.

Lemma trimEnd_suffix s :
  exists post, s = trimEnd s +:+ post /\ allWhitespace post = true.
Proof.
  induction s as [|c s (post & Hs & Hpost)]; simpl.
  - exists EmptyString. by split.
  - destruct (trimEnd s) as [|d t] eqn:Ht.
    + destruct (isWhitespace c) eqn:Hc.
      * exists (String c post). simpl. rewrite Hc, Hpost.
        split; [|done]. rewrite append_nil in *. by rewrite <- Hs.
      * exists post. split; [|done]. rewrite append_cons. by f_equal.
    + exists post. split; [|done]. rewrite append_cons. by f_equal.
Qed.

Lemma trimEnd_last s c :
  lastChar (trimEnd s) = Some c -> isWhitespace c = false.
Proof.
  induction s as [|a s IH]; simpl; [discriminate|].
  destruct (trimEnd s) as [|d t] eqn:Ht.
  - destruct (isWhitespace a) eqn:Ha; simpl; [discriminate|].
    by intros [= <-].
  - exact IH.
Qed.

Lemma trimEnd_first s c :
  firstChar (trimEnd s) = Some c -> firstChar s = Some c.
Proof.
  destruct s as [|a s]; simpl; [discriminate|].
  destruct (trimEnd s) as [|d t].
  - destruct (isWhitespace a); simpl; [discriminate|done].
  - done.
Qed.

Lemma append_assoc (a b c : string) : (a +:+ b) +:+ c = a +:+ (b +:+ c).
Proof.
  induction a as [|x a IH]; [reflexivity|].
  rewrite !append_cons. by rewrite IH.
Qed.

(** [trim] removes exactly the surrounding white space. *)
Lemma trim_spec s : trimOf s (trim s).
Proof.
  unfold trimOf, trimmed, trim. split; [split|].
  - intros c Hc. apply trimEnd_first in Hc.
    by apply trimStart_first in Hc.
  - apply trimEnd_last.
  - destruct (trimStart_prefix s) as (pre & Hs & Hpre).
    destruct (trimEnd_suffix (trimStart s)) as (post & Ht & Hpost).
    exists pre, post. split; [|by split].
    rewrite <- Ht. exact Hs.
Qed.

Example trim_example :
  trim "  Test Component  " = "Test Component" /\ trim "   " = EmptyString /\
  trim "a b" = "a b".
Proof. repeat split. Qed.

End JsStringFacts.

(** ** The widget libraries *)

Module WidgetLibFacts.
Import JsString WidgetLib.

Lemma rejected_create_writes_nothing db newId widget db' e :
  create db newId widget = (db', inl e) -> db' = db.
Proof.
  unfold create.
  destruct (onCreate db widget); [by intros [= <- _]|].
  destruct (preCreate widget); [by intros [= <- _]|discriminate].
Qed.

Lemma onCreate_accepts_named db widget b :
  onCreate db widget = inr b ->
  exists n, name widget = js_string n /\ n <> EmptyString /\
            String.length n <= 255.
Proof.
  unfold onCreate.
  destruct (missingOrBlank (widgetTypeId widget)); [discriminate|].
  destruct (findByPk db (widgetTypeId widget)) as [wt|]; [|discriminate].
  destruct (negb (typeIsActive wt)); [discriminate|].
  destruct (name widget) as [| |n]; simpl; try discriminate.
  destruct (String.eqb_spec n EmptyString); simpl; [discriminate|].
  destruct (String.length (trim n) =? 0)%nat; [discriminate|].
  destruct (Nat.ltb_spec 255 (String.length n)); [discriminate|].
  intros _. exists n. repeat split; [assumption|lia].
Qed.

(** C8. A widget whose type does not exist or is not active, whose name
    is missing or empty, or whose name is longer than 255 characters, is
    rejected by the [onCreate] validator, and the create operation then
    returns the validation error with the database unchanged; in general
    a create that is rejected leaves the database as it was. *)
Theorem invalid_widget_is_rejected db newId widget :
  invalid db widget ->
  (exists message,
     onCreate db widget = inl message /\
     create db newId widget = (db, inl (validationFailed message))) /\
  (forall db' e, create db newId widget = (db', inl e) -> db' = db).
Proof.
  intros Hinv. split; [|intros db' e; apply rejected_create_writes_nothing].
  assert (Hrej : exists message, onCreate db widget = inl message).
  { unfold onCreate.
    destruct (missingOrBlank (widgetTypeId widget)); [eauto|].
    destruct Hinv as [Hnone | row Hsome Hact | Hname | n Hname Hlen].
    - rewrite Hnone. eauto.
    - rewrite Hsome, Hact. simpl. eauto.
    - destruct (findByPk db (widgetTypeId widget)) as [wt|]; [|eauto].
      destruct (negb (typeIsActive wt)); [eauto|].
      destruct Hname as [-> | [-> | ->]]; simpl; eauto.
    - destruct (findByPk db (widgetTypeId widget)) as [wt|]; [|eauto].
      destruct (negb (typeIsActive wt)); [eauto|].
      rewrite Hname. simpl.
      destruct (String.eqb n EmptyString || (String.length (trim n) =? 0)%nat);
        [eauto|].
      destruct (Nat.ltb_spec 255 (String.length n)); [eauto|lia]. }
  destruct Hrej as (message & Hrej). exists message.
  split; [assumption|]. unfold create. by rewrite Hrej.
Qed.

Lemma invalid_widget_is_rejected_witness :
  invalid LibSample.db LibSample.orphan /\
  create LibSample.db "id-1" LibSample.orphan =
    (LibSample.db,
     inl (validationFailed
            "Widget type with ID non-existent-type-id does not exist")).
Proof.
  assert (Hinv : invalid LibSample.db LibSample.orphan).
  { apply typeDoesNotExist. vm_compute. reflexivity. }
  split; [exact Hinv|].
  destruct (invalid_widget_is_rejected LibSample.db "id-1" LibSample.orphan
              Hinv) as [(message & Hrej & Hcreate) _].
  rewrite Hcreate. f_equal. f_equal. f_equal.
  assert (Hm : onCreate LibSample.db LibSample.orphan =
               inl "Widget type with ID non-existent-type-id does not exist").
  { vm_compute. reflexivity. }
  congruence.
Defined.

Example inactive_type_and_long_name_rejected :
  (exists m, onCreate LibSample.db
               {| widgetTypeId := js_string "wt-2";
                  name := js_string "Widget for inactive type";
                  isActive := jb_undefined; data := data_undefined |}
             = inl m /\ m = "Widget type INACTIVE_TYPE is not active") /\
  (exists m, onCreate LibSample.db
               {| widgetTypeId := js_string "wt-1"; name := js_string EmptyString;
                  isActive := jb_undefined; data := data_undefined |}
             = inl m /\ m = "Widget name is required").
Proof. split; eexists; split; vm_compute; reflexivity. Qed.

End WidgetLibFacts.

Module CreateHookFacts.
Import JsString.

Lemma component_onCreate_accepts_named db component b :
  WidgetComponentLib.onCreate db component = inr b ->
  exists n, WidgetComponentLib.name component = js_string n.
Proof.
  unfold WidgetComponentLib.onCreate.
  destruct (missingOrBlank (WidgetComponentLib.widgetId component));
    [discriminate|].
  destruct (negb _); [discriminate|].
  destruct (WidgetComponentLib.name component) as [| |n]; simpl;
    try discriminate.
  intros _. by exists n.
Qed.

(** C9. A widget that the validator accepts is written as the [preCreate]
    hook leaves it: with its name trimmed of the surrounding white space
    and, when it came without an [isActive] value, with [isActive = true].
    A widget component that the validator accepts is written with its name
    trimmed, with status "pending" when it came without a status and with
    priority 0 when it came without a priority. *)
Theorem create_applies_defaults :
  (forall db newId widget,
     WidgetLib.onCreate db widget = inr true ->
     exists n w,
       WidgetLib.name widget = js_string n /\
       WidgetLib.create db newId widget =
         ({| WidgetLib.widgetTypes := WidgetLib.widgetTypes db;
             WidgetLib.widgets :=
               (WidgetLib.widgets db ++ [(newId, w)])%list |},
          inr (newId, w)) /\
       WidgetLib.name w = js_string (trim n) /\
       trimOf n (trim n) /\
       (WidgetLib.isActive widget = WidgetLib.jb_undefined ->
        WidgetLib.isActive w = WidgetLib.jb_bool true)) /\
  (forall db newId component,
     WidgetComponentLib.onCreate db component = inr true ->
     exists n c,
       WidgetComponentLib.name component = js_string n /\
       WidgetComponentLib.create db newId component =
         ({| WidgetComponentLib.widgetIds :=
               WidgetComponentLib.widgetIds db;
             WidgetComponentLib.components :=
               (WidgetComponentLib.components db ++ [(newId, c)])%list |},
          inr (newId, c)) /\
       WidgetComponentLib.name c = js_string (trim n) /\
       trimOf n (trim n) /\
       (WidgetComponentLib.status component = js_undefined ->
        WidgetComponentLib.status c = js_string "pending") /\
       (WidgetComponentLib.priority component =
          WidgetComponentLib.jn_undefined ->
        WidgetComponentLib.priority c = WidgetComponentLib.jn_number 0)).
Proof.
  split.
  - intros db newId widget Hok.
    destruct (WidgetLibFacts.onCreate_accepts_named db widget true Hok)
      as (n & Hn & _).
    eexists n, _. split; [assumption|].
    unfold WidgetLib.create, WidgetLib.preCreate. rewrite Hok, Hn.
    split; [reflexivity|]. simpl. split; [reflexivity|].
    split; [apply JsStringFacts.trim_spec|]. by intros ->.
  - intros db newId component Hok.
    destruct (component_onCreate_accepts_named db component true Hok)
      as (n & Hn).
    eexists n, _. split; [assumption|].
    unfold WidgetComponentLib.create, WidgetComponentLib.preCreate.
    rewrite Hok, Hn. split; [reflexivity|]. simpl. split; [reflexivity|].
    split; [apply JsStringFacts.trim_spec|]. split; by intros ->.
Qed.

Lemma create_applies_defaults_witness :
  WidgetLib.onCreate LibSample.db LibSample.submit = inr true /\
  WidgetComponentLib.onCreate LibSample.componentDb LibSample.component
    = inr true /\
  exists w c,
    snd (WidgetLib.create LibSample.db "id-1" LibSample.submit)
      = inr ("id-1", w) /\
    WidgetLib.name w = js_string "Submit" /\
    WidgetLib.isActive w = WidgetLib.jb_bool true /\
    snd (WidgetComponentLib.create LibSample.componentDb "id-2"
           LibSample.component) = inr ("id-2", c) /\
    WidgetComponentLib.name c = js_string "Test Component" /\
    WidgetComponentLib.status c = js_string "pending" /\
    WidgetComponentLib.priority c = WidgetComponentLib.jn_number 0.
Proof.
  assert (H1 : WidgetLib.onCreate LibSample.db LibSample.submit = inr true)
    by (vm_compute; reflexivity).
  assert (H2 : WidgetComponentLib.onCreate LibSample.componentDb
                 LibSample.component = inr true)
    by (vm_compute; reflexivity).
  split; [exact H1|]. split; [exact H2|].
  destruct create_applies_defaults as [Hw Hc].
  destruct (Hw LibSample.db "id-1" LibSample.submit H1)
    as (n & w & Hn & Hcreate & Hname & _ & Hactive).
  destruct (Hc LibSample.componentDb "id-2" LibSample.component H2)
    as (m & c & Hm & Hcreate' & Hname' & _ & Hstatus & Hprio).
  exists w, c. rewrite Hcreate, Hcreate'. simpl.
  injection Hn as <-. injection Hm as <-.
  repeat split; auto.
Defined.

End CreateHookFacts.

(** ** Query signatures *)

Module QuerySignatureFacts.
Import CacheMapModel QuerySignature.

Import JsStringFacts.

(** *** Quoted strings end at their closing quote *)

Lemma string_cons_inj c c' (s s' : string) :
  String c s = String c' s' -> c = c' /\ s = s'.
Proof. intros H. injection H. auto. Qed.

Lemma special_not_plain c :
  Ascii.eqb c dquote || Ascii.eqb c backslash = false ->
  c <> dquote /\ c <> backslash.
Proof.
  intros H. apply orb_false_iff in H as [H1 H2].
  split; intros ->; [rewrite Ascii.eqb_refl in H1
                    |rewrite Ascii.eqb_refl in H2]; discriminate.
Qed.

Lemma dquote_not_backslash : dquote <> backslash.
Proof. discriminate. Qed.

Lemma escape_closing s : forall s' r r',
  escape s +:+ String dquote r = escape s' +:+ String dquote r' ->
  s = s' /\ r = r'.
Proof.
  induction s as [|c s IH]; intros [|c' s'] r r'; simpl.
  - rewrite !append_nil. intros H.
    apply string_cons_inj in H as [_ ->]. done.
  - rewrite append_nil.
    destruct (Ascii.eqb c' dquote || Ascii.eqb c' backslash) eqn:Hc';
      rewrite !append_cons; intros H;
      apply string_cons_inj in H as [H _].
    + by destruct dquote_not_backslash.
    + apply special_not_plain in Hc' as [Hq _]. by destruct Hq.
  - rewrite append_nil.
    destruct (Ascii.eqb c dquote || Ascii.eqb c backslash) eqn:Hc;
      rewrite !append_cons; intros H;
      apply string_cons_inj in H as [H _].
    + by destruct dquote_not_backslash.
    + apply special_not_plain in Hc as [Hq _]. by destruct Hq.
  - destruct (Ascii.eqb c dquote || Ascii.eqb c backslash) eqn:Hc;
      destruct (Ascii.eqb c' dquote || Ascii.eqb c' backslash) eqn:Hc';
      rewrite !append_cons; intros H;
      apply string_cons_inj in H as [H1 H].
    + apply string_cons_inj in H as [-> H].
      destruct (IH _ _ _ H) as [-> ->]. done.
    + apply special_not_plain in Hc' as [_ Hb]. by destruct Hb.
    + apply special_not_plain in Hc as [_ Hb]. by destruct Hb.
    + subst c'. destruct (IH _ _ _ H) as [-> ->]. done.
Qed.

Lemma quote_closing s s' r r' :
  quote s +:+ r = quote s' +:+ r' -> s = s' /\ r = r'.
Proof.
  unfold quote. rewrite !append_cons, !append_assoc, !append_cons,
    !append_nil.
  intros H. apply string_cons_inj in H as [_ H].
  by apply escape_closing in H.
Qed.

(** *** Bare tokens end at the first character that is not theirs *)

Lemma token_closing a : forall a' c c' r r',
  allChars bareChar a = true -> allChars bareChar a' = true ->
  bareChar c = false -> bareChar c' = false ->
  a +:+ String c r = a' +:+ String c' r' ->
  a = a' /\ String c r = String c' r'.
Proof.
  induction a as [|x a IH]; intros [|x' a'] c c' r r' Ha Ha' Hc Hc';
    rewrite ?append_nil, ?append_cons; intros H.
  - done.
  - apply string_cons_inj in H as [-> _].
    simpl in Ha'. rewrite Hc in Ha'. discriminate.
  - apply string_cons_inj in H as [<- _].
    simpl in Ha. rewrite Hc' in Ha. discriminate.
  - apply string_cons_inj in H as [-> H]. simpl in Ha, Ha'.
    apply andb_true_iff in Ha as [_ Ha].
    apply andb_true_iff in Ha' as [_ Ha'].
    destruct (IH _ _ _ _ _ Ha Ha' Hc Hc' H) as [-> ->]. done.
Qed.

(** *** Numbers *)

Lemma numChar_bareChar c : numChar c = true -> bareChar c = true.
Proof. unfold numChar, bareChar. by intros ->. Qed.

Lemma allChars_weaken (P Q : ascii -> bool) s :
  (forall c, P c = true -> Q c = true) ->
  allChars P s = true -> allChars Q s = true.
Proof.
  intros HPQ. induction s as [|c s IH]; simpl; [done|].
  intros H. apply andb_true_iff in H as [Hc Hs].
  by rewrite (HPQ c Hc), (IH Hs).
Qed.

Lemma string_of_uint_numChars d :
  allChars numChar (NilEmpty.string_of_uint d) = true.
Proof. induction d; simpl; try done. Qed.

Lemma showZ_numChars z : allChars numChar (showZ z) = true.
Proof.
  assert (H : forall d, allChars numChar (NilZero.string_of_uint d) = true).
  { intros d. destruct d; try apply string_of_uint_numChars. done. }
  unfold showZ. destruct (Z.to_int z) as [d|d]; simpl; [apply H|].
  apply H.
Qed.

Lemma to_int_not_nil z :
  Z.to_int z <> Decimal.Pos Decimal.Nil /\
  Z.to_int z <> Decimal.Neg Decimal.Nil.
Proof.
  destruct z as [|p|p]; simpl; split; try discriminate;
    intros H; injection H as H; by apply Unsigned.to_uint_nonnil in H.
Qed.

Lemma showZ_inj z z' : showZ z = showZ z' -> z = z'.
Proof.
  unfold showZ. intros H. apply DecimalZ.to_int_inj.
  destruct (to_int_not_nil z) as [H1 H2].
  destruct (to_int_not_nil z') as [H1' H2'].
  pose proof (NilZero.isi _ H1 H2) as Hz.
  pose proof (NilZero.isi _ H1' H2') as Hz'.
  rewrite H in Hz. congruence.
Qed.

Lemma showZ_nonempty z : exists x t, showZ z = String x t.
Proof.
  pose proof (to_int_not_nil z) as [H1 H2]. unfold showZ.
  destruct (Z.to_int z) as [d|d]; simpl; [|eauto].
  destruct d; simpl; eauto.
Qed.

(** *** Primitive values *)

Lemma bare_showPrim v :
  bare v = true ->
  allChars bareChar (showPrim v) = true /\
  exists x t, showPrim v = String x t /\ bareChar x = true.
Proof.
  destruct v as [[|]|z|s]; simpl; try discriminate; intros _.
  - split; [done|]. eexists _, _. by split.
  - split; [done|]. eexists _, _. by split.
  - assert (Hb : allChars bareChar (showZ z) = true).
    { apply (allChars_weaken numChar); [apply numChar_bareChar|].
      apply showZ_numChars. }
    split; [assumption|].
    destruct (showZ_nonempty z) as (x & t & Hx). exists x, t.
    split; [assumption|]. rewrite Hx in Hb. simpl in Hb.
    by apply andb_true_iff in Hb as [-> _].
Qed.

Lemma bare_showPrim_inj v v' :
  bare v = true -> bare v' = true -> showPrim v = showPrim v' -> v = v'.
Proof.
  destruct v as [[|]|z|s], v' as [[|]|z'|s']; simpl;
    try discriminate; intros _ _ H;
    first [ reflexivity
          | discriminate H
          | apply showZ_inj in H; by subst
          | exfalso; pose proof (showZ_numChars z) as Hn;
            rewrite H in Hn; discriminate Hn
          | exfalso; pose proof (showZ_numChars z') as Hn;
            rewrite <- H in Hn; discriminate Hn ].
Qed.

Lemma showPrim_closing v v' c c' r r' :
  bareChar c = false -> bareChar c' = false ->
  showPrim v +:+ String c r = showPrim v' +:+ String c' r' ->
  v = v' /\ String c r = String c' r'.
Proof.
  intros Hc Hc' H.
  destruct (bare v) eqn:Hv; destruct (bare v') eqn:Hv'.
  - destruct (bare_showPrim v Hv) as [Ha _].
    destruct (bare_showPrim v' Hv') as [Ha' _].
    destruct (token_closing _ _ _ _ _ _ Ha Ha' Hc Hc' H) as [Heq Hr].
    split; [|assumption]. by apply bare_showPrim_inj.
  - destruct (bare_showPrim v Hv) as (_ & x & t & Hx & Hbx).
    destruct v' as [| |s']; try discriminate Hv'.
    rewrite Hx in H. simpl in H. unfold quote in H.
    rewrite !append_cons in H. apply string_cons_inj in H as [-> _].
    discriminate Hbx.
  - destruct (bare_showPrim v' Hv') as (_ & x & t & Hx & Hbx).
    destruct v as [| |s]; try discriminate Hv.
    rewrite Hx in H. simpl in H. unfold quote in H.
    rewrite !append_cons in H. apply string_cons_inj in H as [<- _].
    discriminate Hbx.
  - destruct v as [| |s]; try discriminate Hv.
    destruct v' as [| |s']; try discriminate Hv'.
    simpl in H. apply quote_closing in H as [-> Hr]. done.
Qed.

(** *** Objects *)

Lemma showRest_form rest entries r :
  exists c r0,
    showRest rest entries +:+ r = String c r0 /\ bareChar c = false /\
    ((rest = [] /\ c = "}"%char /\ r0 = r) \/
     (rest <> [] /\ c = ","%char /\ r0 = entries +:+ r)).
Proof.
  destruct rest as [|e rest]; simpl.
  - exists "}"%char, r. split; [done|]. split; [done|]. by left.
  - exists ","%char, (entries +:+ r). rewrite append_cons, append_nil.
    split; [done|]. split; [done|]. by right.
Qed.

Lemma showEntries_closing l : forall l' r r',
  showEntries l +:+ r = showEntries l' +:+ r' -> l = l' /\ r = r'.
Proof.
  induction l as [|[k v] l IH]; intros [|[k' v'] l'] r r'; simpl.
  - rewrite !append_cons, !append_nil. intros H.
    by apply string_cons_inj in H as [_ ->].
  - unfold quote. rewrite !append_cons. intros H.
    apply string_cons_inj in H as [H _]. discriminate H.
  - unfold quote. rewrite !append_cons. intros H.
    apply string_cons_inj in H as [H _]. discriminate H.
  - rewrite !append_assoc. intros H.
    apply quote_closing in H as [-> H].
    rewrite !append_cons, !append_nil in H.
    apply string_cons_inj in H as [_ H].
    destruct (showRest_form l (showEntries l) r)
      as (c & r0 & Hc & Hbare & Hcase).
    destruct (showRest_form l' (showEntries l') r')
      as (c' & r0' & Hc' & Hbare' & Hcase').
    rewrite Hc, Hc' in H.
    apply showPrim_closing in H as [-> H]; [|assumption|assumption].
    apply string_cons_inj in H as [Hcc Hr0].
    destruct Hcase as [(-> & -> & ->)|(Hne & -> & ->)];
      destruct Hcase' as [(-> & -> & ->)|(Hne' & -> & ->)];
      try discriminate Hcc.
    + by subst.
    + apply IH in Hr0 as [-> ->]. done.
Qed.

Lemma showObject_closing l l' r r' :
  showObject l +:+ r = showObject l' +:+ r' -> l = l' /\ r = r'.
Proof.
  unfold showObject. rewrite !append_cons, !append_nil. intros H.
  apply string_cons_inj in H as [_ H]. by apply showEntries_closing in H.
Qed.

Lemma append_empty_r (s : string) : s +:+ EmptyString = s.
Proof.
  induction s as [|c s IH]; [done|]. by rewrite append_cons, IH.
Qed.

Lemma segment_inj l l' :
  List.map segment l = List.map segment l' -> l = l'.
Proof.
  revert l'. induction l as [|[a b] l IH]; intros [|[a' b'] l']; simpl;
    try done.
  unfold segment at 1 3. simpl. intros [= -> -> H]. by rewrite (IH _ H).
Qed.

(** Signatures determine the query type, the sorted parameters and the
    location scope. *)
Lemma normalize_parts d1 d2 :
  normalize d1 = normalize d2 ->
  queryType d1 = queryType d2 /\
  sortByKey (params d1) = sortByKey (params d2) /\
  locationScope d1 = locationScope d2.
Proof.
  unfold normalize. intros H.
  apply quote_closing in H as [Hq H].
  rewrite !append_cons, !append_nil in H.
  apply string_cons_inj in H as [_ H].
  apply showObject_closing in H as [Hp H].
  apply string_cons_inj in H as [_ H].
  rewrite <- (append_empty_r (showObject (List.map segment (locationScope d1))))
    in H.
  rewrite <- (append_empty_r (showObject (List.map segment (locationScope d2))))
    in H.
  apply showObject_closing in H as [Hl _].
  apply segment_inj in Hl. done.
Qed.

(** *** Sorting the keys *)

Lemma ltb_lt a b : String.ltb a b = true <-> String_as_OT.lt a b.
Proof.
  rewrite <- String_as_OT.cmp_lt. unfold String.ltb, String_as_OT.cmp.
  destruct (String.compare a b); split; congruence.
Qed.

Lemma ltb_trans a b c :
  String.ltb a b = true -> String.ltb b c = true -> String.ltb a c = true.
Proof. rewrite !ltb_lt. apply String_as_OT.lt_trans. Qed.

Lemma ltb_total a b :
  a <> b -> String.ltb a b = false -> String.ltb b a = true.
Proof.
  intros Hne Hab. unfold String.ltb in *.
  pose proof (String_as_OT.cmp_antisym b a) as Hanti.
  unfold String_as_OT.cmp in Hanti. rewrite Hanti.
  destruct (String.compare a b) eqn:Hc; simpl in *.
  - apply String_as_OT.cmp_eq in Hc. contradiction.
  - discriminate Hab.
  - reflexivity.
Qed.

Lemma ltb_asym a b : String.ltb a b = true -> String.ltb b a = false.
Proof.
  unfold String.ltb.
  pose proof (String_as_OT.cmp_antisym b a) as Hanti.
  unfold String_as_OT.cmp in Hanti. rewrite Hanti.
  destruct (String.compare a b); simpl; congruence.
Qed.

Lemma insertEntry_perm e l : insertEntry e l ≡ₚ e :: l.
Proof.
  induction l as [|x l IH]; simpl; [done|].
  destruct (String.ltb (fst e) (fst x)); [done|].
  rewrite IH. apply Permutation_swap.
Qed.

Lemma sortByKey_perm l : sortByKey l ≡ₚ l.
Proof.
  induction l as [|x l IH]; simpl; [done|].
  by rewrite insertEntry_perm, IH.
Qed.

(** Insertions of entries with different keys commute. *)
Lemma insertEntry_comm a b l :
  fst a <> fst b ->
  insertEntry a (insertEntry b l) = insertEntry b (insertEntry a l).
Proof.
  intros Hne. induction l as [|x l IH]; simpl.
  - destruct (String.ltb (fst a) (fst b)) eqn:Hab.
    + by rewrite (ltb_asym _ _ Hab).
    + by rewrite (ltb_total _ _ Hne Hab).
  - destruct (String.ltb (fst b) (fst x)) eqn:Hbx;
      destruct (String.ltb (fst a) (fst x)) eqn:Hax; simpl;
      rewrite ?Hbx, ?Hax.
    + destruct (String.ltb (fst a) (fst b)) eqn:Hab.
      * rewrite (ltb_asym _ _ Hab). simpl. by rewrite ?Hbx.
      * rewrite (ltb_total _ _ Hne Hab). simpl. by rewrite ?Hax.
    + destruct (String.ltb (fst a) (fst b)) eqn:Hab.
      * by rewrite (ltb_trans _ _ _ Hab Hbx) in Hax.
      * simpl. by rewrite ?Hax.
    + destruct (String.ltb (fst b) (fst a)) eqn:Hba.
      * by rewrite (ltb_trans _ _ _ Hba Hax) in Hbx.
      * simpl. by rewrite ?Hbx.
    + by rewrite IH.
Qed.

Lemma sortByKey_Permutation l1 l2 :
  NoDup (List.map fst l1) -> l1 ≡ₚ l2 -> sortByKey l1 = sortByKey l2.
Proof.
  intros Hnd Hp. induction Hp as [|x l l' Hp IH|x y l|l l' l'' Hp1 IH1 Hp2 IH2].
  - done.
  - simpl. simpl in Hnd. apply NoDup_cons in Hnd as [_ Hnd].
    by rewrite IH.
  - simpl. apply insertEntry_comm.
    simpl in Hnd. apply NoDup_cons in Hnd as [Hnotin _].
    intros Heq. apply Hnotin. rewrite Heq. by left.
  - rewrite IH1 by assumption. apply IH2.
    assert (Hm : List.map fst l ≡ₚ List.map fst l')
      by (by apply Permutation_map).
    by rewrite <- Hm.
Qed.

(** *** Signatures as cache keys *)

Lemma cachedEntry_storeResult cm now d keys :
  cachedEntry (storeResult cm now d keys) d =
    Some {| qe_keys := keys; qe_completeness := completenessOf d;
            qe_stamp := now |}.
Proof.
  unfold cachedEntry, storeResult, setQueryResult.
  destruct (completenessOf d); simpl.
  - by rewrite lookup_insert_eq.
  - by rewrite lookup_delete_eq, lookup_insert_eq.
Qed.

Lemma cachedEntry_storeResult_other cm now d d' keys :
  normalize d <> normalize d' ->
  cachedEntry (storeResult cm now d' keys) d = cachedEntry cm d.
Proof.
  intros Hne.
  assert (Hk : (normalize d', locationScope d')
               <> (normalize d, locationScope d)) by congruence.
  unfold cachedEntry, storeResult, setQueryResult.
  destruct (completenessOf d'); simpl;
    by rewrite lookup_insert_ne, lookup_delete_ne.
Qed.

Example signatures :
  normalize byTypeActive = normalize activeByType /\
  normalize allWidgets <> normalize activeWidgets /\
  completenessOf allWidgets = complete /\
  completenessOf activeWidgets = partial.
Proof.
  split; [vm_compute; reflexivity|].
  split; [vm_compute; discriminate|]. split; reflexivity.
Qed.

(** C3. For descriptors whose parameter objects hold each key once, two
    descriptors have the same signature exactly when they ask the same
    query: same query type, same parameters up to the order of the keys,
    same location scope. So descriptors that differ in query type,
    parameters or location scope have different signatures, and the
    result stored for one leaves the entry cached for the other in place.
    In particular the unfiltered "all" query and the "all" query with
    [isActive: true] have different signatures and, once both results are
    stored, each has its own entry. *)
Theorem signature_identifies_query (d1 d2 : QueryDescriptor) :
  wellFormed d1 -> wellFormed d2 ->
  (normalize d1 = normalize d2 <-> sameQuery d1 d2) /\
  (~ sameQuery d1 d2 ->
   normalize d1 <> normalize d2 /\
   forall cm now keys,
     cachedEntry (storeResult cm now d2 keys) d1 = cachedEntry cm d1) /\
  normalize allWidgets <> normalize activeWidgets /\
  (forall cm now now' keys keys',
     let cm' := storeResult (storeResult cm now allWidgets keys) now'
                  activeWidgets keys' in
     cachedEntry cm' allWidgets =
       Some {| qe_keys := keys; qe_completeness := complete;
               qe_stamp := now |} /\
     cachedEntry cm' activeWidgets =
       Some {| qe_keys := keys'; qe_completeness := partial;
               qe_stamp := now' |}).
Proof.
  intros Hwf1 Hwf2.
  assert (Hiff : normalize d1 = normalize d2 <-> sameQuery d1 d2).
  { split.
    - intros H. apply normalize_parts in H as (Hq & Hp & Hl).
      split; [assumption|]. split; [|assumption].
      rewrite <- (sortByKey_perm (params d1)), Hp. apply sortByKey_perm.
    - intros (Hq & Hp & Hl). unfold normalize.
      by rewrite Hq, Hl, (sortByKey_Permutation _ _ Hwf1 Hp). }
  assert (Hne : normalize allWidgets <> normalize activeWidgets)
    by (vm_compute; discriminate).
  split; [exact Hiff|]. split; [|split; [exact Hne|]].
  - intros Hdiff.
    assert (Hsig : normalize d1 <> normalize d2)
      by (intros H; by apply Hdiff, Hiff).
    split; [exact Hsig|]. intros cm now keys.
    by apply cachedEntry_storeResult_other.
  - intros cm now now' keys keys' cm'. subst cm'. split.
    + rewrite (cachedEntry_storeResult_other _ _ _ _ _ Hne).
      apply cachedEntry_storeResult.
    + apply cachedEntry_storeResult.
Qed.

Lemma wellFormed_samples : wellFormed byTypeActive /\ wellFormed activeByType.
Proof.
  unfold wellFormed. simpl.
  split;
    repeat (apply NoDup_cons;
            split; [repeat (apply not_elem_of_cons; split; [discriminate|]);
                    apply not_elem_of_nil|]);
    apply NoDup_nil_2.
Qed.

Lemma signature_identifies_query_witness :
  wellFormed byTypeActive /\ wellFormed activeByType /\
  (normalize byTypeActive = normalize activeByType <->
   sameQuery byTypeActive activeByType).
Proof.
  destruct wellFormed_samples as [H1 H2].
  split; [exact H1|]. split; [exact H2|].
  apply (signature_identifies_query byTypeActive activeByType H1 H2).
Defined.

End QuerySignatureFacts.

(** ** The response wrapper and the summary of the widget routes *)

Module RoutesFacts.
Import Routes.

Ltac lookups props :=
  repeat (simpl;
          match goal with
          | H : lookupProp _ props = _ |- _ => rewrite H
          end).

(** X1. The wrapped [res.json] is idempotent: handing its result to it
    again, in the same state of the wrapper, changes nothing. A response
    that already has the envelope is never wrapped twice. *)
Theorem json_idempotent (deleted : string) (w : Wrapper) (body : Json) :
  json deleted w (json deleted w body) = json deleted w body.
Proof.
  unfold json, success, failure, orElse.
  destruct (isDelete w);
    destruct (statusCode w =? 200)%Z eqn:E200;
    destruct (400 <=? statusCode w)%Z eqn:E400;
    try (exfalso; apply Z.eqb_eq in E200; apply Z.leb_le in E400; lia);
    destruct body as [| |b|z|s|items|props]; simpl; try reflexivity.
  all: try (destruct b; reflexivity).
  all: try (destruct (z =? 0)%Z eqn:Ez; simpl; rewrite ?Ez; simpl;
            rewrite ?Ez; reflexivity).
  all: try (destruct (String.eqb s EmptyString) eqn:Es; simpl; rewrite ?Es;
            simpl; rewrite ?Es; reflexivity).
  all: unfold hasKey, getProp;
    destruct (lookupProp "key" props) eqn:Hkey;
    destruct (lookupProp "success" props) eqn:Hsuccess;
    destruct (lookupProp "error" props) eqn:Herror;
    destruct (lookupProp "ik" props) eqn:Hik;
    destruct (lookupProp "message" props) eqn:Hmessage;
    lookups props; reflexivity.
Qed.

(** X2. Under an error status (400 or above) every response leaves the
    wrapper with a [success] or an [error] field. The wrapper itself
    reports [success: true] under an error status only for an array body;
    otherwise a response with [success: true] is the handler's own body,
    passed through unchanged. *)
Theorem error_status_has_envelope
    (deleted : string) (w : Wrapper) (body : Json) :
  (400 <= statusCode w)%Z ->
  (hasKey "success" (json deleted w body) = true \/
   hasKey "error" (json deleted w body) = true) /\
  (getProp "success" (json deleted w body) = JBool true ->
   isArray body = true \/ json deleted w body = body).
Proof.
  intros Hstatus. unfold json, success, failure, orElse.
  assert (E200 : (statusCode w =? 200)%Z = false)
    by (apply Z.eqb_neq; lia).
  assert (E400 : (400 <=? statusCode w)%Z = true)
    by (apply Z.leb_le; lia).
  rewrite E200, E400, !andb_false_r.
  destruct body as [| |b|z|s|items|props]; simpl;
    rewrite ?andb_false_r; simpl;
    try (split; [by left | discriminate]).
  - split; [by left|]. intros _. by left.
  - unfold hasKey, getProp.
    destruct (lookupProp "success" props) eqn:Hsuccess;
      destruct (lookupProp "error" props) eqn:Herror;
      destruct (lookupProp "ik" props) eqn:Hik;
      destruct (lookupProp "message" props) eqn:Hmessage;
      simpl; rewrite ?Hsuccess, ?Herror; simpl;
      (split; [auto | first [discriminate | intros _; by right]]).
Qed.

Lemma error_status_has_envelope_witness :
  (400 <= statusCode (status 404 (responseWrapper "GET")))%Z /\
  (hasKey "success"
     (widgetJson (status 404 (responseWrapper "GET"))
        (JObject [("ik", JString "w9");
                  ("message", JString "Widget not found")])) = true \/
   hasKey "error"
     (widgetJson (status 404 (responseWrapper "GET"))
        (JObject [("ik", JString "w9");
                  ("message", JString "Widget not found")])) = true).
Proof.
  assert (H : (400 <= statusCode (status 404 (responseWrapper "GET")))%Z)
    by (simpl; lia).
  split; [exact H|].
  apply (error_status_has_envelope "Widget deleted successfully"
           (status 404 (responseWrapper "GET"))
           (JObject [("ik", JString "w9");
                     ("message", JString "Widget not found")]) H).
Defined.

Example not_found_response :
  widgetJson (status 404 (responseWrapper "GET"))
    (JObject [("ik", JString "w9"); ("message", JString "Widget not found")])
  = JObject [("success", JBool false);
             ("error", JString "Widget not found")] /\
  widgetTypeJson (responseWrapper "DELETE")
    (JObject [("key", JString "wt-1"); ("code", JString "BUTTON")])
  = JObject [("success", JBool true);
             ("message", JString "Widget type deleted successfully")] /\
  widgetJson (status 500 (responseWrapper "GET")) (JArray [])
  = JObject [("success", JBool true); ("data", JArray [])].
Proof. repeat split. Qed.

(** X3. Every object or array body leaves the wrapper with a
    [success] or an [error] field, at any status. Under a status below 400
    an array, or an item (an object with neither field), is delivered
    unchanged as the [data] of a [success: true] envelope; the one
    exception is the item returned by a DELETE with status 200, which is
    replaced by the deletion message. *)
Theorem object_bodies_get_envelope
    (deleted : string) (w : Wrapper) (body : Json) :
  isObject body = true ->
  let r := json deleted w body in
  (hasKey "success" r = true \/ hasKey "error" r = true) /\
  ((statusCode w < 400)%Z ->
   hasKey "success" body = false -> hasKey "error" body = false ->
   (r = success body /\ getProp "data" r = body) \/
   (isDelete w = true /\ hasKey "key" body = true /\
    statusCode w = 200%Z /\
    r = JObject [("success", JBool true); ("message", JString deleted)])).
Proof.
  intros Hobj r. subst r. unfold json, success, failure, orElse.
  destruct body as [| |b|z|s|items|props]; try discriminate; simpl.
  - rewrite !andb_false_r. simpl. split; [by left|].
    intros _ _ _. left. by split.
  - unfold hasKey, getProp.
    destruct (isDelete w);
      destruct (Z.eqb_spec (statusCode w) 200) as [E200|E200];
      destruct (Z.leb_spec 400 (statusCode w)) as [E400|E400];
      try lia;
      destruct (lookupProp "key" props) eqn:Hkey;
      destruct (lookupProp "success" props) eqn:Hsuccess;
      destruct (lookupProp "error" props) eqn:Herror;
      destruct (lookupProp "ik" props) eqn:Hik;
      destruct (lookupProp "message" props) eqn:Hmessage;
      simpl; rewrite ?Hsuccess, ?Herror; simpl;
      (split; [auto|]); intros Hlt; try lia; try discriminate;
      intros _ _; first [by left | right; by repeat split].
Qed.

Lemma object_bodies_get_envelope_witness :
  isObject (JObject [("id", JString "w1"); ("name", JString "Submit")])
    = true /\
  widgetJson (status 201 (responseWrapper "POST"))
    (JObject [("id", JString "w1"); ("name", JString "Submit")])
  = success (JObject [("id", JString "w1"); ("name", JString "Submit")]).
Proof.
  split; [reflexivity|].
  destruct (object_bodies_get_envelope "Widget deleted successfully"
              (status 201 (responseWrapper "POST"))
              (JObject [("id", JString "w1"); ("name", JString "Submit")])
              eq_refl) as [_ Hitem].
  destruct Hitem as [[Hr _]|(Hdel & _)];
    [simpl; lia|reflexivity|reflexivity|exact Hr|discriminate].
Defined.

(** *** The summary *)

Lemma filter_partition {A} (f : A -> bool) (l : list A) :
  List.length l =
  List.length (List.filter f l)
  + List.length (List.filter (fun x => negb (f x)) l).
Proof.
  induction l as [|x l IH]; simpl; [reflexivity|].
  destruct (f x); simpl; lia.
Qed.

Lemma countsOf_countWidget m w t :
  inheritedName (widgetTypeId w) = false ->
  countsOf (countWidget m w) t =
  if String.eqb (widgetTypeId w) t then
    if isActive w
    then {| total := S (total (countsOf m t));
            active := S (active (countsOf m t));
            inactive := inactive (countsOf m t) |}
    else {| total := S (total (countsOf m t));
            active := active (countsOf m t);
            inactive := S (inactive (countsOf m t)) |}
  else countsOf m t.
Proof.
  intros Hplain. unfold countsOf, countWidget. rewrite Hplain.
  destruct (String.eqb_spec (widgetTypeId w) t) as [->|Hne].
  - rewrite lookup_insert_eq. by destruct (isActive w).
  - by rewrite lookup_insert_ne.
Qed.

Lemma countWidget_None m w t :
  inheritedName (widgetTypeId w) = false ->
  countWidget m w !! t = None <->
  m !! t = None /\ String.eqb (widgetTypeId w) t = false.
Proof.
  intros Hplain. unfold countWidget. rewrite Hplain.
  destruct (String.eqb_spec (widgetTypeId w) t) as [->|Hne].
  - rewrite lookup_insert_eq. split; [discriminate|]. by intros [_ ?].
  - rewrite lookup_insert_ne by done. split; [by split|by intros [? _]].
Qed.

Lemma fold_countWidget widgets : forall m t,
  plainTypeIds widgets ->
  let m' := fold_left countWidget widgets m in
  total (countsOf m' t) =
    total (countsOf m t) + List.length (ofType t widgets) /\
  active (countsOf m' t) =
    active (countsOf m t)
    + List.length (List.filter (fun w => isActive w) (ofType t widgets)) /\
  inactive (countsOf m' t) =
    inactive (countsOf m t)
    + List.length (List.filter (fun w => negb (isActive w))
                               (ofType t widgets)) /\
  (m' !! t = None <-> m !! t = None /\ ofType t widgets = []).
Proof.
  induction widgets as [|w ws IH]; intros m t Hplain; simpl.
  - repeat split; try lia; tauto.
  - apply Forall_cons in Hplain as [Hw Hws].
    specialize (IH (countWidget m w) t Hws). simpl in IH.
    destruct IH as (Ht & Ha & Hi & Hn).
    rewrite Ht, Ha, Hi, Hn, countsOf_countWidget, countWidget_None
      by assumption.
    unfold ofType. simpl.
    destruct (String.eqb (widgetTypeId w) t); simpl.
    + destruct (isActive w); simpl;
        (split; [lia|]); (split; [lia|]); (split; [lia|]);
        split; intros H; exfalso; intuition discriminate.
    + (split; [lia|]); (split; [lia|]); (split; [lia|]).
      intuition.
Qed.

Lemma groupTotal_insert m t c :
  m !! t = None -> groupTotal (<[t := c]> m) = total c + groupTotal m.
Proof.
  intros Hnone. unfold groupTotal.
  rewrite map_fold_insert_L; [reflexivity| |assumption].
  intros. lia.
Qed.

Lemma groupTotal_countWidget m w :
  inheritedName (widgetTypeId w) = false ->
  groupTotal (countWidget m w) = S (groupTotal m).
Proof.
  intros Hplain. unfold countWidget. rewrite Hplain.
  destruct (m !! widgetTypeId w) as [c|] eqn:Hc.
  - rewrite <- (insert_delete_id m (widgetTypeId w) c Hc) at 2.
    rewrite <- insert_delete_eq.
    rewrite !groupTotal_insert by apply lookup_delete_eq.
    destruct (isActive w); simpl; lia.
  - rewrite groupTotal_insert by assumption.
    destruct (isActive w); simpl; lia.
Qed.

Lemma groupTotal_fold widgets : forall m,
  plainTypeIds widgets ->
  groupTotal (fold_left countWidget widgets m) =
  groupTotal m + List.length widgets.
Proof.
  induction widgets as [|w ws IH]; intros m Hplain; simpl; [lia|].
  apply Forall_cons in Hplain as [Hw Hws].
  rewrite IH, groupTotal_countWidget by assumption. lia.
Qed.

(** X4. The summary of the widget router is consistent, for widgets whose
    type ids are not names inherited from [Object.prototype]: the total is
    the sum of the active and the inactive count; the totals of the groups
    add up to the total; a type has a group exactly when some widget has
    that type, and the group counts the widgets of the type, active plus
    inactive. *)
Theorem summary_is_consistent (widgets : list WidgetItem) (t : string) :
  plainTypeIds widgets ->
  let s := summary widgets in
  sum_total s = sum_active s + sum_inactive s /\
  groupTotal (byType s) = sum_total s /\
  match byType s !! t with
  | Some c =>
      total c = List.length (ofType t widgets) /\
      active c =
        List.length (List.filter (fun w => isActive w) (ofType t widgets)) /\
      total c = active c + inactive c /\
      0 < total c
  | None => ofType t widgets = []
  end.
Proof.
  intros Hplain s. subst s. unfold summary; simpl.
  split; [apply filter_partition|].
  split; [by rewrite groupTotal_fold|].
  destruct (fold_countWidget widgets ∅ t Hplain) as (Ht & Ha & Hi & Hn).
  simpl in *. unfold countsOf in Ht, Ha, Hi.
  rewrite lookup_empty in Ht, Ha, Hi, Hn. simpl in *.
  destruct (fold_left countWidget widgets ∅ !! t) as [c|] eqn:Hc.
  - split; [assumption|]. split; [assumption|].
    pose proof (filter_partition (fun w => isActive w) (ofType t widgets)).
    split; [lia|].
    destruct (ofType t widgets) eqn:Hof; simpl in *; [|lia].
    assert (Hcontra : Some c = None) by (apply Hn; by split).
    discriminate.
  - by apply Hn.
Qed.

Lemma sampleWidgets_plain : plainTypeIds sampleWidgets.
Proof. repeat constructor. Qed.

Lemma summary_is_consistent_witness :
  plainTypeIds sampleWidgets /\
  sum_total (summary sampleWidgets) = 3 /\
  byType (summary sampleWidgets) !! "wt-1" =
    Some {| total := 2; active := 2; inactive := 0 |} /\
  groupTotal (byType (summary sampleWidgets)) =
    sum_total (summary sampleWidgets).
Proof.
  split; [exact sampleWidgets_plain|]. split; [reflexivity|].
  split; [vm_compute; reflexivity|].
  apply (summary_is_consistent sampleWidgets "wt-1" sampleWidgets_plain).
Defined.

(** The response of [GET /widgets/summary] passes the response
    wrapper unchanged: with status 200 and the summary as [data] when the
    library returned the widgets, with status 500 and the error's message
    when it threw. *)
Lemma summary_response_unwrapped
    (all : CacheInitializer.Thrown + list WidgetItem) :
  summaryResponse all =
    (statusCode (fst (summaryHandler (responseWrapper "GET") all)),
     snd (summaryHandler (responseWrapper "GET") all)) /\
  match all with
  | inr widgets =>
      summaryResponse all =
        (200%Z, success (summaryJson (summary widgets)))
  | inl (CacheInitializer.errorObject m) =>
      summaryResponse all = (500%Z, failure (JString m))
  | inl CacheInitializer.otherValue =>
      summaryResponse all =
        (500%Z, failure (JString "Failed to get widget summary"))
  end.
Proof.
  destruct all as [[m|]|widgets]; split; reflexivity.
Qed.

(** *** Sorting newest first *)

Section SortDescending.
Context {A : Type} (key : A -> Z).

Lemma insertDescending_perm x l : insertDescending key x l ≡ₚ x :: l.
Proof.
  induction l as [|y l IH]; simpl; [done|].
  destruct (key y <=? key x)%Z; [done|].
  rewrite IH. apply Permutation_swap.
Qed.

Lemma sortDescending_perm l : sortDescending key l ≡ₚ l.
Proof.
  induction l as [|x l IH]; simpl; [done|].
  by rewrite insertDescending_perm, IH.
Qed.

Lemma insertDescending_sorted x l :
  StronglySorted (fun a b => (key b <= key a)%Z) l ->
  StronglySorted (fun a b => (key b <= key a)%Z) (insertDescending key x l).
Proof.
  induction 1 as [|y l Hsorted IH Hall]; simpl.
  - repeat constructor.
  - destruct (Z.leb_spec (key y) (key x)) as [Hle|Hlt].
    + constructor; [by constructor|].
      constructor; [assumption|].
      eapply Forall_impl; [exact Hall|]. simpl. intros z Hz. lia.
    + constructor; [assumption|].
      rewrite insertDescending_perm. constructor; [lia|assumption].
Qed.

Lemma sortDescending_sorted l :
  StronglySorted (fun a b => (key b <= key a)%Z) (sortDescending key l).
Proof.
  induction l as [|x l IH]; simpl; [constructor|].
  by apply insertDescending_sorted.
Qed.

End SortDescending.

Lemma recentWidgets_take widgets :
  recentWidgets widgets = take 10 (sortDescending createdAt widgets).
Proof.
  unfold recentWidgets. rewrite <- (List.map_id (take 10 _)) at 2.
  apply List.map_ext. by intros [].
Qed.

(** X5. The dashboard's recent activity lists at most ten widgets, all
    of them when there are ten or fewer, newest first; and no widget that
    is left out is newer than a listed one. *)
Theorem recent_activity_newest (widgetTypes : list WidgetTypeItem)
    (widgets : list WidgetItem) :
  let recent := recentActivity (dashboard widgetTypes widgets) in
  List.length recent = Nat.min 10 (List.length widgets) /\
  StronglySorted (fun a b => (createdAt b <= createdAt a)%Z) recent /\
  exists rest,
    widgets ≡ₚ (recent ++ rest)%list /\
    forall a b, a ∈ recent -> b ∈ rest -> (createdAt b <= createdAt a)%Z.
Proof.
  simpl. rewrite recentWidgets_take.
  pose proof (sortDescending_perm createdAt widgets) as Hperm.
  pose proof (sortDescending_sorted createdAt widgets) as Hsorted.
  split; [|split].
  - by rewrite length_take, (Permutation_length Hperm).
  - rewrite <- (take_drop 10 (sortDescending createdAt widgets)) in Hsorted.
    by apply StronglySorted_app_1_l in Hsorted.
  - exists (drop 10 (sortDescending createdAt widgets)).
    rewrite take_drop. split; [done|].
    intros a b Ha Hb.
    rewrite <- (take_drop 10 (sortDescending createdAt widgets)) in Hsorted.
    by apply (StronglySorted_app_1_elem_of _ _ _ _ _ Hsorted Ha Hb).
Qed.

Example recent_of_sample :
  List.map id (sortDescending createdAt sampleWidgets) = ["w1"; "w3"; "w2"].
Proof. reflexivity. Qed.

(** *** The widget type breakdown *)

Lemma breakdownTotal_cons widgetTypes w widgets :
  breakdownTotal (widgetTypeBreakdown widgetTypes (w :: widgets)) =
  List.length
    (List.filter (fun wt => String.eqb (widgetTypeId w) (typeId wt))
                 widgetTypes)
  + breakdownTotal (widgetTypeBreakdown widgetTypes widgets).
Proof.
  induction widgetTypes as [|wt wts IH]; simpl; [reflexivity|].
  unfold breakdownTotal in *. simpl. rewrite IH.
  destruct (String.eqb (widgetTypeId w) (typeId wt)); simpl; lia.
Qed.

Lemma no_match_outside t (widgetTypes : list WidgetTypeItem) :
  t ∉ List.map typeId widgetTypes ->
  List.filter (fun wt => String.eqb t (typeId wt)) widgetTypes = [].
Proof.
  induction widgetTypes as [|wt wts IH]; simpl; [reflexivity|].
  intros Hnotin. apply not_elem_of_cons in Hnotin as [Hne Hnotin].
  destruct (String.eqb_spec t (typeId wt)); [contradiction|]. by apply IH.
Qed.

Lemma matches_at_most_once t (widgetTypes : list WidgetTypeItem) :
  NoDup (List.map typeId widgetTypes) ->
  List.length
    (List.filter (fun wt => String.eqb t (typeId wt)) widgetTypes) <= 1.
Proof.
  induction widgetTypes as [|wt wts IH]; simpl; [lia|].
  intros Hnd. apply NoDup_cons in Hnd as [Hnotin Hnd].
  destruct (String.eqb_spec t (typeId wt)) as [->|Hne]; [|by apply IH].
  rewrite (no_match_outside _ _ Hnotin). simpl. lia.
Qed.

Lemma matches_when_listed t (widgetTypes : list WidgetTypeItem) :
  existsb (fun wt => String.eqb t (typeId wt)) widgetTypes = true ->
  1 <= List.length
         (List.filter (fun wt => String.eqb t (typeId wt)) widgetTypes).
Proof.
  induction widgetTypes as [|wt wts IH]; simpl; [discriminate|].
  destruct (String.eqb t (typeId wt)); simpl; [lia|exact IH].
Qed.

(** X6. In the dashboard, for widget types with distinct ids: there is
    one breakdown row per widget type; in every row the active count is
    at most the widget count; the widget counts of the rows add up to at
    most the total number of widgets, and to exactly that number when
    every widget names a listed type. *)
Theorem breakdown_counts (widgetTypes : list WidgetTypeItem)
    (widgets : list WidgetItem) :
  NoDup (List.map typeId widgetTypes) ->
  let d := dashboard widgetTypes widgets in
  List.map bd_id (breakdown d) = List.map typeId widgetTypes /\
  Forall (fun r => activeWidgetCount r <= widgetCount r) (breakdown d) /\
  breakdownTotal (breakdown d) <= totalWidgets (dashboardSummary d) /\
  (allTypesListed widgetTypes widgets ->
   breakdownTotal (breakdown d) = totalWidgets (dashboardSummary d)).
Proof.
  intros Hnd. simpl. split; [|split; [|split]].
  - unfold widgetTypeBreakdown. rewrite List.map_map. reflexivity.
  - unfold widgetTypeBreakdown. apply Forall_forall. intros r Hr.
    apply list_elem_of_In, in_map_iff in Hr as (wt & <- & _). simpl.
    match goal with
    | |- List.length (List.filter ?f ?l) <= _ =>
        rewrite (filter_partition f l) at 1
    end.
    apply Nat.le_add_r.
  - induction widgets as [|w ws IH]; simpl.
    + unfold widgetTypeBreakdown, breakdownTotal.
      induction widgetTypes; simpl; [lia|]. apply IHwidgetTypes.
      by apply NoDup_cons in Hnd as [_ ?].
    + rewrite breakdownTotal_cons.
      pose proof (matches_at_most_once (widgetTypeId w) _ Hnd). lia.
  - intros Hall. induction Hall as [|w ws Hw Hws IH]; simpl.
    + unfold widgetTypeBreakdown, breakdownTotal. clear Hnd.
      induction widgetTypes; simpl; [lia|]. apply IHwidgetTypes.
    + rewrite breakdownTotal_cons, IH.
      pose proof (matches_at_most_once (widgetTypeId w) _ Hnd).
      pose proof (matches_when_listed (widgetTypeId w) _ Hw). lia.
Qed.

Lemma breakdown_counts_witness :
  NoDup (List.map typeId sampleTypes) /\
  allTypesListed sampleTypes sampleWidgets /\
  breakdownTotal (breakdown (dashboard sampleTypes sampleWidgets)) = 3.
Proof.
  assert (Hnd : NoDup (List.map typeId sampleTypes)).
  { simpl.
    repeat (apply NoDup_cons;
            split; [repeat (apply not_elem_of_cons; split; [discriminate|]);
                    apply not_elem_of_nil|]);
    apply NoDup_nil_2. }
  assert (Hall : allTypesListed sampleTypes sampleWidgets)
    by (repeat constructor).
  split; [exact Hnd|]. split; [exact Hall|].
  destruct (breakdown_counts sampleTypes sampleWidgets Hnd)
    as (_ & _ & _ & Heq).
  exact (Heq Hall).
Defined.

End RoutesFacts.

(** ** The asynchronous getters and the page outside a browser *)

Module ClientGettersFacts.
Import CacheFramework ClientCache ClientGetters.

Lemma resolved_initial b : Resolved (initialWorld b).
Proof.
  constructor; simpl.
  - intros p Hp. by rewrite lookup_nil in Hp.
  - intros caller Hc. by apply elem_of_nil in Hc.
Qed.

Lemma lookup_snoc_fulfilled (ps : list PromiseState) s p :
  s <> fulfilled ->
  (ps ++ [s])%list !! p = Some fulfilled -> ps !! p = Some fulfilled.
Proof.
  intros Hs Hp.
  destruct (decide (p < List.length ps)) as [Hlt|Hge].
  - by rewrite lookup_app_l in Hp.
  - rewrite lookup_app_r in Hp by lia.
    destruct (p - List.length ps) as [|n]; simpl in Hp.
    + congruence.
    + by rewrite lookup_nil in Hp.
Qed.

Lemma resolved_call caller w :
  Inv w -> Resolved w -> Resolved (initializeCaches caller w).
Proof.
  intros HI [Hp Hc]. unfold initializeCaches.
  destruct (alreadyInitializing (vars w)) eqn:Hg.
  - destruct (_initPromise (vars w)) as [p|] eqn:Hinit.
    + constructor; simpl; assumption.
    + constructor; simpl; [assumption|].
      intros c Hin. apply elem_of_app in Hin as [Hin|Hin]; [by eauto|].
      unfold alreadyInitializing in Hg. apply orb_true_iff in Hg as [Hf|Hs].
      * destruct (inv_flag w HI Hf) as (p & s & _ & Hq & _). congruence.
      * by apply andb_true_iff in Hs as [_ Hs].
  - destruct (browser w); constructor; simpl; try assumption.
    + intros p Hq. apply lookup_snoc_fulfilled in Hq; [by eauto|discriminate].
    + intros p Hq. apply lookup_snoc_fulfilled in Hq; [by eauto|discriminate].
Qed.

Lemma isSome_assign_component s v :
  isSome (_widgetComponentCache v) = true ->
  isSome (_widgetComponentCache (assign s v)) = true.
Proof. by destruct s. Qed.

Lemma resolved_import p ok w :
  Resolved w -> Resolved (importSettles p ok w).
Proof.
  intros [Hp Hc]. unfold importSettles.
  destruct (stageOf p (bodies w)) as [s|]; [|by constructor].
  destruct ok.
  - destruct s; constructor; simpl; try done; eauto.
  - constructor; simpl; [|assumption].
    intros q Hq. unfold settle in Hq.
    destruct (decide (p = q)) as [->|Hne].
    + destruct (decide (q < List.length (promises w))) as [Hlt|Hge].
      * rewrite list_lookup_insert_eq in Hq by done. discriminate.
      * rewrite list_insert_ge in Hq by lia. by eauto.
    + rewrite list_lookup_insert_ne in Hq by done. by eauto.
Qed.

Lemma resolved_resume caller w : Resolved w -> Resolved (resume caller w).
Proof.
  intros [Hp Hc]. unfold resume.
  destruct (List.find _ (awaiting w)) as [[c p]|]; [|by constructor].
  destruct (promises w !! p) as [[| |]|] eqn:Hq; try by constructor.
  - constructor; simpl; [assumption|].
    intros c' Hin. apply elem_of_app in Hin as [Hin|Hin]; by eauto.
  - constructor; simpl; [assumption|].
    intros c' Hin. apply elem_of_app in Hin as [Hin|Hin]; [by eauto|].
    apply list_elem_of_singleton in Hin. discriminate.
Qed.

Lemma resolved_run actions w :
  Inv w -> Resolved w -> Resolved (run actions w).
Proof.
  revert w. induction actions as [|a actions IH]; intros w HI HR; simpl;
    [assumption|].
  apply IH; [by apply ClientCacheFacts.inv_step|].
  destruct a; simpl;
    [by apply resolved_call | by apply resolved_import
     | by apply resolved_resume].
Qed.

Lemma reachable_resolved w : reachable w -> Resolved w.
Proof.
  intros (b & actions & ->).
  apply resolved_run; [apply ClientCacheFacts.inv_initial|].
  apply resolved_initial.
Qed.

Lemma isSome_exported m w :
  Inv w -> isSome (varOf m (vars w)) = true ->
  varOf m (vars w) = Some (exported m).
Proof.
  intros HI Hs. destruct (inv_instances w HI) as (H1 & H2 & H3).
  destruct m; simpl in *.
  - destruct (_widgetCache (vars w)) as [c|]; [|discriminate].
    by rewrite (H1 c).
  - destruct (_widgetTypeCache (vars w)) as [c|]; [|discriminate].
    by rewrite (H2 c).
  - destruct (_widgetComponentCache (vars w)) as [c|]; [|discriminate].
    by rewrite (H3 c).
Qed.

Lemma component_set_allSet w :
  Inv w -> isSome (_widgetComponentCache (vars w)) = true -> allSet (vars w).
Proof.
  intros HI Hc m. apply isSome_exported; [assumption|].
  destruct (inv_done w HI Hc) as (H1 & H2 & _). by destruct m.
Qed.

Lemma callSettled_elem caller w b :
  callSettled caller w = Some b -> (caller, b) ∈ settled w.
Proof.
  unfold callSettled.
  destruct (List.find _ (settled w)) as [[c b']|] eqn:Hf; [|discriminate].
  intros [= <-]. apply find_some in Hf as [Hin Heq].
  apply Nat.eqb_eq in Heq. simpl in Heq. subst c.
  by apply list_elem_of_In.
Qed.

(** A call of [initializeCaches] that has resolved leaves the three
    variables set. *)
Lemma resolved_call_allSet w caller :
  reachable w -> callSettled caller w = Some true -> allSet (vars w).
Proof.
  intros Hr Hs. apply component_set_allSet; [by apply ClientCacheFacts.reachable_inv|].
  apply (res_call w (reachable_resolved w Hr) caller).
  by apply callSettled_elem.
Qed.

(** X7. The asynchronous getters never resolve with [null]: in every
    reachable state, a getter that finds its variable set resolves with
    the instance that the module exports, without calling
    [initializeCaches]; a getter that awaited [initializeCaches] either
    rejects with it or resolves with the exported instance; and once a call
    of [initializeCaches] has resolved, all three variables are set. *)
Theorem async_getters_never_null (w : World) (m : CacheModule)
    (caller : nat) :
  reachable w ->
  (forall o, snd (getCache m caller w) = Some o ->
             o = resolves (Some (exported m)) /\
             fst (getCache m caller w) = w) /\
  (forall o, getCacheResumed m caller w = Some o ->
             o = rejects \/ o = resolves (Some (exported m))) /\
  (callSettled caller w = Some true -> allSet (vars w)).
Proof.
  intros Hr. pose proof (ClientCacheFacts.reachable_inv w Hr) as HI. split; [|split].
  - unfold getCache. intros o.
    destruct (varOf m (vars w)) as [c|] eqn:Hv; [|discriminate].
    simpl. intros [= <-]. split; [|reflexivity].
    rewrite <- Hv. f_equal. apply isSome_exported; [assumption|].
    by rewrite Hv.
  - unfold getCacheResumed. intros o.
    destruct (callSettled caller w) as [[|]|] eqn:Hs; [| |discriminate].
    + intros [= <-]. right. f_equal.
      by apply (resolved_call_allSet w caller).
    + intros [= <-]. by left.
  - by apply resolved_call_allSet.
Qed.

Lemma async_getters_never_null_witness :
  reachable successfulRun /\
  getCacheResumed modWidgetTypeCache 1 successfulRun
    = Some (resolves (Some WidgetTypeCache.widgetTypeCache)) /\
  allSet (vars successfulRun).
Proof.
  split; [apply ClientCacheFacts.successfulRun_reachable|].
  split; [reflexivity|].
  destruct (async_getters_never_null successfulRun modWidgetTypeCache 1
              ClientCacheFacts.successfulRun_reachable) as (_ & _ & Hall).
  apply Hall. reflexivity.
Defined.

Lemma serverSide_initial : ServerSide (initialWorld false).
Proof.
  constructor; simpl; try reflexivity.
  - by intros [].
  - constructor.
  - constructor.
Qed.

Lemma serverSide_not_initializing w :
  ServerSide w -> alreadyInitializing (vars w) = false.
Proof.
  intros HS. unfold alreadyInitializing. rewrite (ss_flag w HS).
  pose proof (ss_vars w HS modWidgetCache) as H. simpl in H.
  by rewrite H.
Qed.

Lemma serverSide_step a w : ServerSide w -> ServerSide (step a w).
Proof.
  intros HS. destruct a as [caller|p ok|caller]; simpl.
  - unfold initializeCaches.
    rewrite (serverSide_not_initializing w HS), (ss_browser w HS).
    destruct HS as [Hb Hv Hf Hbo He Hp Hs Hst].
    constructor; simpl; try assumption; try reflexivity.
    + apply Forall_app. split; [assumption|]. by repeat constructor.
    + unfold starts, failures in *. simpl.
      rewrite !ClientCacheFacts.countLine_app, Hst. reflexivity.
  - unfold importSettles. by rewrite (ss_bodies w HS).
  - unfold resume.
    destruct (List.find _ (awaiting w)) as [[c p]|]; [|assumption].
    destruct (promises w !! p) as [s|] eqn:Hp; [|assumption].
    pose proof (ss_promises w HS) as Hall.
    rewrite Forall_forall in Hall.
    assert (s = rejected) as ->.
    { apply Hall. by apply (list_elem_of_lookup_2 _ p). }
    destruct HS as [Hb Hv Hf Hbo He Hpr Hs Hst].
    constructor; simpl; try assumption.
    apply Forall_app. split; [assumption|]. by repeat constructor.
Qed.

Lemma serverSide_run actions w : ServerSide w -> ServerSide (run actions w).
Proof.
  revert w. induction actions as [|a actions IH]; intros w HS; simpl;
    [assumption|].
  by apply IH, serverSide_step.
Qed.

(** X8. Outside a browser nothing is ever initialized: whatever calls
    are made, no cache module is evaluated and no cache variable is set,
    every synchronous accessor throws, no call of [initializeCaches]
    resolves (every one that settles has been rejected), and every
    initialization that started has failed. *)
Theorem server_side_never_initializes (actions : list Action) :
  let w := run actions (initialWorld false) in
  evaluated w = [] /\
  (forall m, varOf m (vars w) = None) /\
  (exists message, fst (getWidgetCacheSync (vars w)) = throws message) /\
  (exists message, fst (getWidgetTypeCacheSync (vars w)) = throws message) /\
  (exists message,
     fst (getWidgetComponentCacheSync (vars w)) = throws message) /\
  (forall caller, callSettled caller w <> Some true) /\
  (forall m caller o, getCacheResumed m caller w = Some o -> o = rejects) /\
  starts w = failures w.
Proof.
  intros w.
  pose proof (serverSide_run actions _ serverSide_initial) as HS.
  fold w in HS.
  assert (Hnot : forall caller, callSettled caller w <> Some true).
  { intros caller Hs. apply callSettled_elem in Hs.
    pose proof (ss_settled w HS) as Hall. rewrite Forall_forall in Hall.
    specialize (Hall _ Hs). discriminate. }
  repeat split.
  - apply (ss_evaluated w HS).
  - apply (ss_vars w HS).
  - unfold getWidgetCacheSync.
    pose proof (ss_vars w HS modWidgetCache) as H. simpl in H. rewrite H.
    by eexists.
  - unfold getWidgetTypeCacheSync.
    pose proof (ss_vars w HS modWidgetTypeCache) as H. simpl in H.
    rewrite H. by eexists.
  - unfold getWidgetComponentCacheSync.
    pose proof (ss_vars w HS modWidgetComponentCache) as H. simpl in H.
    rewrite H. by eexists.
  - assumption.
  - intros m caller o. unfold getCacheResumed.
    destruct (callSettled caller w) as [[|]|] eqn:Hs;
      [by destruct (Hnot caller)|by intros [= <-]|discriminate].
  - apply (ss_starts w HS).
Qed.

Example server_side_call_rejects :
  let w := run [call 1; continue 1; call 2; continue 2] (initialWorld false) in
  settled w = [(1, false); (2, false)] /\
  console w = [starting; failed; starting; failed].
Proof. split; reflexivity. Qed.

Lemma find_snoc {A} (f : A -> bool) (l : list A) (x : A) :
  (forall y, y ∈ l -> f y = false) -> f x = true ->
  List.find f (l ++ [x])%list = Some x.
Proof.
  intros Hl Hx. induction l as [|y l IH]; simpl.
  - by rewrite Hx.
  - rewrite (Hl y) by apply list_elem_of_here.
    apply IH. intros z Hz. apply Hl. by apply list_elem_of_further.
Qed.

Lemma filter_snoc_out {A} (f : A -> bool) (l : list A) (x : A) :
  (forall y, y ∈ l -> f y = true) -> f x = false ->
  List.filter f (l ++ [x])%list = l.
Proof.
  intros Hl Hx. induction l as [|y l IH]; simpl.
  - by rewrite Hx.
  - rewrite (Hl y) by apply list_elem_of_here. f_equal.
    apply IH. intros z Hz. apply Hl. by apply list_elem_of_further.
Qed.

(** A successful import met by the one suspended body. *)
Lemma importSettles_single w p s :
  bodies w = [(p, s)] ->
  importSettles p true w =
    match s with
    | importWidgetCache =>
        {| browser := browser w; vars := assign s (vars w);
           promises := promises w;
           bodies := [(p, importWidgetTypeCache)];
           evaluated := evaluate (moduleOf s) (evaluated w);
           awaiting := awaiting w; settled := settled w;
           console := (console w ++ [loaded modWidgetCache;
                                     loading modWidgetTypeCache])%list |}
    | importWidgetTypeCache =>
        {| browser := browser w; vars := assign s (vars w);
           promises := promises w;
           bodies := [(p, importWidgetComponentCache)];
           evaluated := evaluate (moduleOf s) (evaluated w);
           awaiting := awaiting w; settled := settled w;
           console := (console w ++ [loaded modWidgetTypeCache;
                                     loading modWidgetComponentCache])%list |}
    | importWidgetComponentCache =>
        {| browser := browser w; vars := clearFlag (assign s (vars w));
           promises := settle p fulfilled (promises w);
           bodies := [];
           evaluated := evaluate (moduleOf s) (evaluated w);
           awaiting := awaiting w; settled := settled w;
           console := (console w ++ [loaded modWidgetComponentCache;
                                     allInitialized])%list |}
    end.
Proof.
  intros Hb. unfold importSettles, stageOf, setStage, removeBody.
  rewrite Hb. simpl. rewrite Nat.eqb_refl. simpl.
  destruct s; reflexivity.
Qed.

Ltac innermostImport s :=
  match goal with
  | |- context [importSettles ?p true ?x] =>
      lazymatch x with
      | context [importSettles] => fail
      | _ => rewrite (importSettles_single x p s) by reflexivity
      end
  end.

(** A caller that awaits the fulfilled promise [p], and nothing else,
    continues: its call resolves. *)
Lemma resume_fulfilled w caller p rest :
  awaiting w = (rest ++ [(caller, p)])%list ->
  (forall q, (caller, q) ∉ rest) ->
  promises w !! p = Some fulfilled ->
  resume caller w =
    {| browser := browser w; vars := vars w; promises := promises w;
       bodies := bodies w; evaluated := evaluated w;
       awaiting := rest;
       settled := (settled w ++ [(caller, true)])%list;
       console := console w |}.
Proof.
  intros Ha Hfresh Hp. unfold resume. rewrite Ha.
  rewrite (find_snoc _ rest (caller, p)).
  - rewrite Hp. f_equal. apply filter_snoc_out.
    + intros [c q] Hin. simpl. apply negb_true_iff, Nat.eqb_neq.
      intros ->. by apply (Hfresh q).
    + simpl. by rewrite Nat.eqb_refl.
  - intros [c q] Hin. simpl. apply Nat.eqb_neq. intros ->.
    by apply (Hfresh q).
  - simpl. apply Nat.eqb_refl.
Qed.

(** X9. Initialization completes, also after a failure: in every
    reachable state of a browser page in which no initialization is in
    flight and the caches are not all set, a call by a caller that awaits
    nothing starts a new initialization; when its three imports succeed
    and the caller continues, the call has resolved, the three variables
    hold the exported instances, the flag is down, the fulfilled promise
    stays memoized and the console has the lines of one complete
    initialization. *)
Theorem initialization_completes (w : World) (caller : nat) :
  reachable w ->
  browser w = true ->
  alreadyInitializing (vars w) = false ->
  (forall p, (caller, p) ∉ awaiting w) ->
  let p := List.length (promises w) in
  let w' := run (successfulInitialization caller p) w in
  settled w' = (settled w ++ [(caller, true)])%list /\
  awaiting w' = awaiting w /\
  allSet (vars w') /\
  _isInitializing (vars w') = false /\
  _initPromise (vars w') = Some p /\
  promises w' !! p = Some fulfilled /\
  bodies w' = [] /\
  console w' = (console w ++ successLines)%list.
Proof.
  intros Hr Hb Hg Hfresh p w'.
  pose proof (ClientCacheFacts.reachable_inv w Hr) as HI.
  destruct (ClientCacheFacts.not_all_set_component_unset w HI Hg)
    as (Hflag & Hbodies & Hcomp).
  assert (Hlookup :
    settle p fulfilled (promises w ++ [pending])%list !! p = Some fulfilled).
  { unfold settle. apply list_lookup_insert_eq.
    rewrite length_app. simpl. unfold p. lia. }
  assert (Hw' : w' =
    {| browser := true;
       vars := {| _widgetCache := Some (exported modWidgetCache);
                  _widgetTypeCache := Some (exported modWidgetTypeCache);
                  _widgetComponentCache :=
                    Some (exported modWidgetComponentCache);
                  _isInitializing := false;
                  _initPromise := Some p |};
       promises := settle p fulfilled (promises w ++ [pending])%list;
       bodies := [];
       evaluated :=
         evaluate modWidgetComponentCache
           (evaluate modWidgetTypeCache
              (evaluate modWidgetCache (evaluated w)));
       awaiting := awaiting w;
       settled := (settled w ++ [(caller, true)])%list;
       console :=
         ((((console w ++ [starting; loading modWidgetCache])
              ++ [loaded modWidgetCache; loading modWidgetTypeCache])
             ++ [loaded modWidgetTypeCache; loading modWidgetComponentCache])
            ++ [loaded modWidgetComponentCache; allInitialized])%list |}).
  { subst w'. unfold successfulInitialization, run. simpl.
    assert (E0 : initializeCaches caller w =
      {| browser := true;
         vars := {| _widgetCache := _widgetCache (vars w);
                    _widgetTypeCache := _widgetTypeCache (vars w);
                    _widgetComponentCache := _widgetComponentCache (vars w);
                    _isInitializing := true;
                    _initPromise := Some p |};
         promises := (promises w ++ [pending])%list;
         bodies := [(p, importWidgetCache)];
         evaluated := evaluated w;
         awaiting := (awaiting w ++ [(caller, p)])%list;
         settled := settled w;
         console := (console w ++ [starting; loading modWidgetCache])%list |}).
    { unfold initializeCaches. rewrite Hg, Hb, Hbodies. reflexivity. }
    rewrite E0.
    innermostImport importWidgetCache.
    innermostImport importWidgetTypeCache.
    innermostImport importWidgetComponentCache.
    rewrite (resume_fulfilled _ caller p (awaiting w));
      [reflexivity|reflexivity|assumption|exact Hlookup]. }
  rewrite Hw'. simpl. repeat split; try assumption.
  - by intros [].
  - unfold successLines. rewrite <- !app_assoc. reflexivity.
Qed.

Lemma initialization_completes_witness :
  reachable CacheInitializer.importFailed /\
  failures CacheInitializer.importFailed = 1 /\
  settled (run (successfulInitialization 2 1) CacheInitializer.importFailed)
    = [(1, false); (2, true)].
Proof.
  assert (Hr : reachable CacheInitializer.importFailed).
  { exists true. eexists. reflexivity. }
  split; [exact Hr|]. split; [reflexivity|].
  assert (Hfresh : forall p, (2, p) ∉ awaiting CacheInitializer.importFailed).
  { intros p Hin. by apply elem_of_nil in Hin. }
  destruct (initialization_completes CacheInitializer.importFailed 2 Hr
              eq_refl eq_refl Hfresh) as (Hs & _).
  exact Hs.
Defined.

Lemma step_keeps_variable a w m c :
  Inv w -> varOf m (vars w) = Some c -> varOf m (vars (step a w)) = Some c.
Proof.
  intros HI Hv. destruct a as [caller|p ok|caller]; simpl.
  - unfold initializeCaches.
    destruct (alreadyInitializing (vars w));
      [by destruct (_initPromise (vars w))|].
    destruct (browser w); by destruct m.
  - unfold importSettles.
    destruct (stageOf p (bodies w)) as [s|]; [|assumption].
    assert (Hc : c = exported m).
    { destruct (inv_instances w HI) as (H1 & H2 & H3).
      destruct m; simpl in Hv; [by apply H1|by apply H2|by apply H3]. }
    destruct ok; [|by destruct m].
    destruct s, m; simpl in *; congruence.
  - unfold resume.
    destruct (List.find _ (awaiting w)) as [[c' p]|]; [|assumption].
    by destruct (promises w !! p) as [[| |]|].
Qed.

(** X10. A cache variable that is set stays set, to the same instance:
    no call, import or continuation that follows a reachable state resets
    it, so a synchronous accessor that has returned once returns the same
    instance ever after. *)
Theorem cache_variables_are_stable (w : World) (m : CacheModule)
    (c : Cache) (actions : list Action) :
  reachable w ->
  varOf m (vars w) = Some c ->
  varOf m (vars (run actions w)) = Some c /\
  c = exported m /\
  match m with
  | modWidgetCache =>
      fst (getWidgetCacheSync (vars (run actions w))) = returns (Some c)
  | modWidgetTypeCache =>
      fst (getWidgetTypeCacheSync (vars (run actions w))) = returns (Some c)
  | modWidgetComponentCache =>
      fst (getWidgetComponentCacheSync (vars (run actions w)))
        = returns (Some c)
  end.
Proof.
  intros Hr Hv.
  pose proof (ClientCacheFacts.reachable_inv w Hr) as HI.
  assert (Hrun : varOf m (vars (run actions w)) = Some c).
  { clear Hr. revert w HI Hv.
    induction actions as [|a actions IH]; intros w HI Hv; simpl;
      [assumption|].
    apply IH; [by apply ClientCacheFacts.inv_step|].
    by apply step_keeps_variable. }
  split; [exact Hrun|]. split.
  - pose proof (isSome_exported m w HI) as He. rewrite Hv in He.
    specialize (He eq_refl). congruence.
  - unfold getWidgetCacheSync, getWidgetTypeCacheSync,
      getWidgetComponentCacheSync.
    destruct m; simpl in Hrun; by rewrite Hrun.
Qed.

Lemma cache_variables_are_stable_witness :
  reachable successfulRun /\
  varOf modWidgetCache (vars successfulRun) = Some WidgetCache.widgetCache /\
  varOf modWidgetCache
    (vars (run [call 2; importDone 0 false; continue 2] successfulRun))
    = Some WidgetCache.widgetCache.
Proof.
  split; [apply ClientCacheFacts.successfulRun_reachable|].
  split; [reflexivity|].
  apply (cache_variables_are_stable successfulRun modWidgetCache
           WidgetCache.widgetCache
           [call 2; importDone 0 false; continue 2]
           ClientCacheFacts.successfulRun_reachable eq_refl).
Defined.

Lemma logged_initial b : Logged (initialWorld b).
Proof.
  constructor; simpl.
  - intros p Hp. by rewrite lookup_nil in Hp.
  - intros caller Hc. by apply elem_of_nil in Hc.
Qed.

Lemma lookup_snoc_other (ps : list PromiseState) s x p :
  x <> s -> (ps ++ [s])%list !! p = Some x -> ps !! p = Some x.
Proof.
  intros Hs Hp.
  destruct (decide (p < List.length ps)) as [Hlt|Hge].
  - by rewrite lookup_app_l in Hp.
  - rewrite lookup_app_r in Hp by lia.
    destruct (p - List.length ps) as [|n]; simpl in Hp.
    + congruence.
    + by rewrite lookup_nil in Hp.
Qed.

Lemma lookup_settle_other (ps : list PromiseState) p s q x :
  x <> s -> settle p s ps !! q = Some x -> ps !! q = Some x.
Proof.
  intros Hs Hq. unfold settle in Hq.
  destruct (decide (p = q)) as [->|Hne].
  - destruct (decide (q < List.length ps)) as [Hlt|Hge].
    + rewrite list_lookup_insert_eq in Hq by done. congruence.
    + by rewrite list_insert_ge in Hq by lia.
  - by rewrite list_lookup_insert_ne in Hq by done.
Qed.

Lemma logged_step a w : Logged w -> Logged (step a w).
Proof.
  intros [Hp Hc]. destruct a as [caller|p ok|caller]; simpl.
  - unfold initializeCaches.
    destruct (alreadyInitializing (vars w)).
    + destruct (_initPromise (vars w)) as [p|];
        constructor; simpl; try assumption.
      intros c Hin. apply elem_of_app in Hin as [Hin|Hin]; [by eauto|].
      apply list_elem_of_singleton in Hin. discriminate.
    + destruct (browser w); constructor; unfold failures in *; simpl;
        rewrite ClientCacheFacts.countLine_app.
      * intros q Hq. apply lookup_snoc_other in Hq; [|discriminate].
        specialize (Hp q Hq). lia.
      * intros c Hin. specialize (Hc c Hin). lia.
      * intros q Hq. unfold countLine. simpl. lia.
      * intros c Hin. unfold countLine. simpl. lia.
  - unfold importSettles.
    destruct (stageOf p (bodies w)) as [s|]; [|by constructor].
    destruct ok.
    + destruct s; constructor; unfold failures in *; simpl;
        rewrite ClientCacheFacts.countLine_app.
      * intros q Hq. specialize (Hp q Hq). lia.
      * intros c Hin. specialize (Hc c Hin). lia.
      * intros q Hq. specialize (Hp q Hq). lia.
      * intros c Hin. specialize (Hc c Hin). lia.
      * intros q Hq. apply lookup_settle_other in Hq; [|discriminate].
        specialize (Hp q Hq). lia.
      * intros c Hin. specialize (Hc c Hin). lia.
    + constructor; unfold failures in *; simpl;
        rewrite ClientCacheFacts.countLine_app; unfold countLine; simpl;
        intros; lia.
  - unfold resume.
    destruct (List.find _ (awaiting w)) as [[c p]|]; [|by constructor].
    destruct (promises w !! p) as [[| |]|] eqn:Hq; try by constructor.
    + constructor; simpl; [assumption|].
      intros c' Hin. apply elem_of_app in Hin as [Hin|Hin]; [by eauto|].
      apply list_elem_of_singleton in Hin. discriminate.
    + constructor; simpl; [assumption|].
      intros c' Hin. apply elem_of_app in Hin as [Hin|Hin]; by eauto.
Qed.

Lemma reachable_logged w : reachable w -> Logged w.
Proof.
  intros (b & actions & ->). generalize (logged_initial b).
  generalize (initialWorld b) as w.
  induction actions as [|a actions IH]; intros w HL; simpl; [assumption|].
  by apply IH, logged_step.
Qed.

(** X11. No call of [initializeCaches] settles silently: in every
    reachable state, a call that has resolved comes with the console line
    of the one successful initialization and with the "loaded" line of
    each of the three modules, and a call that has been rejected comes
    with the console error of a failed initialization. *)
Theorem settled_calls_are_logged (w : World) (caller : nat) :
  reachable w ->
  (callSettled caller w = Some true ->
   successes w = 1 /\ forall m, populated m w = true) /\
  (callSettled caller w = Some false -> 0 < failures w).
Proof.
  intros Hr. pose proof (ClientCacheFacts.reachable_inv w Hr) as HI.
  split.
  - intros Hs.
    pose proof (res_call w (reachable_resolved w Hr) caller
                  (callSettled_elem caller w true Hs)) as Hc.
    split.
    + rewrite (inv_successes w HI). by rewrite Hc.
    + intros m. rewrite <- (inv_populated w HI).
      by rewrite (component_set_allSet w HI Hc m).
  - intros Hs. apply (log_call w (reachable_logged w Hr) caller).
    by apply callSettled_elem.
Qed.

Lemma settled_calls_are_logged_witness :
  reachable CacheInitializer.importFailed /\
  callSettled 1 CacheInitializer.importFailed = Some false /\
  0 < failures CacheInitializer.importFailed.
Proof.
  assert (Hr : reachable CacheInitializer.importFailed).
  { exists true. eexists. reflexivity. }
  split; [exact Hr|]. split; [reflexivity|].
  destruct (settled_calls_are_logged CacheInitializer.importFailed 1 Hr)
    as [_ Hfailed].
  apply Hfailed. reflexivity.
Defined.

End ClientGettersFacts.

(** ** The initializer's wait and what is rendered after it *)

Module StartupFacts.
Import CacheFramework ClientCache CacheInitializer ClientGetters Startup.






(** X13. The application is rendered only over initialized caches: in a
    reachable page state in which the initializer's call of
    [initializeCaches] has settled as its environment reports, if the
    component renders its children then the three synchronous accessors,
    which the adapters among the children call, return the exported
    instances. The one exception is a call rejected with an Error whose
    message is empty, after which the children are rendered as well. *)
Theorem children_only_over_caches (w : World) (caller : nat) (env : Env) :
  reachable w ->
  observes env caller w ->
  render (state (initializeApp env)) = children ->
  initializeCachesResult env = inl (errorObject EmptyString) \/
  (fst (getWidgetCacheSync (vars w))
     = returns (Some WidgetCache.widgetCache) /\
   fst (getWidgetTypeCacheSync (vars w))
     = returns (Some WidgetTypeCache.widgetTypeCache) /\
   fst (getWidgetComponentCacheSync (vars w))
     = returns (Some WidgetComponentCache.widgetComponentCache)).
Proof.
  intros Hr Hobs Hrender. unfold observes in Hobs.
  destruct (initializeCachesResult env) as [e|v] eqn:Hres.
  - left. unfold initializeApp in Hrender. rewrite Hres in Hrender.
    unfold render in Hrender. simpl in Hrender.
    destruct e as [m|]; simpl in Hrender; [|discriminate].
    destruct (String.eqb_spec m EmptyString) as [->|Hne];
      [reflexivity|discriminate].
  - right. destruct Hobs as [Hs ->].
    pose proof (ClientGettersFacts.resolved_call_allSet w caller Hr Hs)
      as Hall.
    pose proof (Hall modWidgetCache) as H1.
    pose proof (Hall modWidgetTypeCache) as H2.
    pose proof (Hall modWidgetComponentCache) as H3.
    simpl in H1, H2, H3.
    unfold getWidgetCacheSync, getWidgetTypeCacheSync,
      getWidgetComponentCacheSync.
    rewrite H1, H2, H3. by repeat split.
Qed.

Lemma children_only_over_caches_witness :
  reachable successfulRun /\
  observes hangingEnv 1 successfulRun /\
  render (state (initializeApp hangingEnv)) = children /\
  fst (getWidgetComponentCacheSync (vars successfulRun))
    = returns (Some WidgetComponentCache.widgetComponentCache).
Proof.
  assert (Hobs : observes hangingEnv 1 successfulRun)
    by (split; reflexivity).
  split; [apply ClientCacheFacts.successfulRun_reachable|].
  split; [exact Hobs|]. split; [reflexivity|].
  destruct (children_only_over_caches successfulRun 1 hangingEnv
              ClientCacheFacts.successfulRun_reachable Hobs eq_refl)
    as [Hbad|(_ & _ & H3)]; [discriminate|exact H3].
Defined.

End StartupFacts.

(** ** What the event subscriptions leave alone *)

Module SubscriptionFrameFacts.
Import CacheMapModel CacheFramework CacheIndex Coordinator.

(** X14. The frame of the event subscriptions. Delivering any event from
    any cache changes at most the dependent cache of the source, and that
    only by [clearQueryResults] and only for an [item_removed] event whose
    item has a truthy id: every other event (creation, update, removal
    without an id, any other type) leaves the three caches as they are.
    No event changes the items, the options or the coordinate of any cache,
    the cache it came from, or the widget type cache; an event of the
    component cache changes nothing; and one event leads to at most one
    [clearQueryResults] call. *)
Theorem subscriptions_frame (source : CacheName) (event : CacheEvent)
    (c : Caches) :
  let c' := fst (emit source event c) in
  let effects := snd (emit source event c) in
  (forall n,
     cacheOf n c' = cacheOf n c \/
     (dependent source = Some n /\
      isRemoved (type event) && truthy (item_id event) = true /\
      cacheOf n c' = clearQueries (cacheOf n c))) /\
  (forall n,
     cm_items (contents (cacheMap (cacheOf n c')))
       = cm_items (contents (cacheMap (cacheOf n c))) /\
     options (cacheOf n c') = options (cacheOf n c) /\
     coordinate (cacheOf n c') = coordinate (cacheOf n c)) /\
  cacheOf source c' = cacheOf source c /\
  widgetTypeCache c' = widgetTypeCache c /\
  (isRemoved (type event) && truthy (item_id event) = false ->
   c' = c /\ existsb isClear effects = false) /\
  (source = WidgetComponent -> c' = c) /\
  List.length (List.filter isClear effects) <= 1.
Proof.
  unfold emit, subscribers.
  destruct source; simpl;
    unfold widgetLogHandler, widgetRemovedHandler, widgetTypeHandler,
      widgetComponentHandler;
    destruct (type event); simpl;
    destruct (truthy (item_id event)); simpl;
    (split; [intros []; simpl; auto|]);
    (split; [intros []; simpl; auto|]);
    repeat split; try reflexivity; try discriminate; try lia.
Qed.

Example widget_type_removal_keeps_components :
  let c' := fst (emit WidgetType (Sample.removed "wt-1") Sample.caches) in
  widgetComponentCache c' = Sample.componentsCached /\
  widgetCache c' = clearQueries Sample.widgetsCached.
Proof. split; reflexivity. Qed.

End SubscriptionFrameFacts.

(** ** The create hooks keep what the validators checked *)

Module HookFacts.
Import JsString HookProps.

Lemma trimStart_fixed s :
  (forall c, firstChar s = Some c -> isWhitespace c = false) ->
  trimStart s = s.
Proof.
  destruct s as [|a s]; simpl; [reflexivity|].
  intros H. by rewrite (H a eq_refl).
Qed.

Lemma trimEnd_fixed s :
  (forall c, lastChar s = Some c -> isWhitespace c = false) ->
  trimEnd s = s.
Proof.
  induction s as [|a s IH]; [reflexivity|].
  intros H. simpl. destruct s as [|b s].
  - simpl. by rewrite (H a eq_refl).
  - rewrite IH; [reflexivity|]. intros c Hc. by apply H.
Qed.

Lemma trim_idempotent s : trim (trim s) = trim s.
Proof.
  destruct (JsStringFacts.trim_spec s) as [[Hfirst Hlast] _].
  unfold trim at 1. rewrite (trimStart_fixed _ Hfirst).
  by apply trimEnd_fixed.
Qed.

Lemma length_append (a b : string) :
  String.length (a +:+ b) = String.length a + String.length b.
Proof.
  induction a as [|c a IH]; [reflexivity|].
  rewrite JsStringFacts.append_cons. simpl. by rewrite IH.
Qed.

Lemma trim_length_le s : String.length (trim s) <= String.length s.
Proof.
  destruct (JsStringFacts.trim_spec s) as [_ (pre & post & Hs & _)].
  rewrite Hs at 2. rewrite !length_append. lia.
Qed.

Lemma length_zero_empty s : String.length s = 0 <-> s = EmptyString.
Proof. destruct s; simpl; split; congruence. Qed.

(** A name that the validators accept is a string whose trimmed form is
    storable and still accepted. *)
Lemma accepted_name v :
  missingOrBlank v = false ->
  Nat.ltb 255 (String.length (WidgetLib.show v)) = false ->
  exists n, v = js_string n /\
            storableName (js_string (trim n)) /\
            missingOrBlank (js_string (trim n)) = false /\
            Nat.ltb 255 (String.length (trim n)) = false.
Proof.
  intros Hblank Hlen. destruct v as [| |n]; try discriminate.
  exists n. split; [reflexivity|]. simpl in Hblank, Hlen.
  apply orb_false_iff in Hblank as [_ Hz].
  apply Nat.eqb_neq in Hz. apply Nat.ltb_ge in Hlen.
  pose proof (trim_length_le n) as Hle.
  assert (Hne : trim n <> EmptyString).
  { intros He. apply Hz. by rewrite He. }
  split; [|split].
  - exists (trim n). split; [reflexivity|].
    split; [apply (JsStringFacts.trim_spec n)|]. split; [assumption|lia].
  - simpl. rewrite trim_idempotent. apply orb_false_iff. split.
    + by destruct (String.eqb_spec (trim n) EmptyString).
    + by apply Nat.eqb_neq.
  - apply Nat.ltb_ge. lia.
Qed.

Section Widget.
Import WidgetLib.

(** X15. The [preCreate] hook of the widget library keeps a widget
    valid. For a widget that [onCreate] accepts, the hook does not throw;
    its result is accepted by [onCreate] again and is left unchanged by a
    second run of the hook; the name it leaves is storable (trimmed,
    non-empty, at most 255 characters); [isActive] is no longer
    [undefined], and is the caller's value when one was given; the type id
    and the data are untouched. *)
Theorem widget_hook_keeps_valid (db : Database) (widget : Widget) :
  onCreate db widget = inr true ->
  exists w',
    preCreate widget = inr w' /\
    onCreate db w' = inr true /\
    preCreate w' = inr w' /\
    storableName (name w') /\
    isActive w' <> jb_undefined /\
    (isActive widget <> jb_undefined -> isActive w' = isActive widget) /\
    widgetTypeId w' = widgetTypeId widget /\
    data w' = data widget.
Proof.
  unfold onCreate.
  destruct (missingOrBlank (widgetTypeId widget)) eqn:Hid; [discriminate|].
  destruct (findByPk db (widgetTypeId widget)) as [wt|] eqn:Hpk;
    [|discriminate].
  destruct (negb (typeIsActive wt)) eqn:Hact; [discriminate|].
  destruct (missingOrBlank (name widget)) eqn:Hname; [discriminate|].
  destruct (Nat.ltb 255 (String.length (show (name widget)))) eqn:Hlen;
    [discriminate|].
  intros Hdata.
  destruct (accepted_name _ Hname Hlen) as (n & Hn & Hst & Hblank & Hlen').
  unfold preCreate. rewrite Hn. eexists. split; [reflexivity|].
  cbn [widgetTypeId name isActive data show].
  rewrite Hid, Hpk, Hact, Hblank, Hlen', trim_idempotent.
  repeat split; try assumption.
  - by destruct (isActive widget).
  - by destruct (isActive widget).
  - intros Hdef. by destruct (isActive widget).
Qed.

Lemma widget_hook_keeps_valid_witness :
  onCreate LibSample.db LibSample.submit = inr true /\
  exists w', preCreate LibSample.submit = inr w' /\
             name w' = js_string "Submit" /\ isActive w' = jb_bool true /\
             onCreate LibSample.db w' = inr true.
Proof.
  split; [reflexivity|].
  destruct (widget_hook_keeps_valid LibSample.db LibSample.submit eq_refl)
    as (w' & Hpre & Hok & _).
  exists w'. split; [exact Hpre|].
  split; [|split; [|exact Hok]]; injection Hpre as <-; reflexivity.
Defined.

End Widget.

Section Component.
Import WidgetComponentLib.



End Component.

End HookFacts.

(** ** The widget list *)

Module WidgetListFacts.
Import WidgetList.

Lemma filter_elem_of {A} (f : A -> bool) (l : list A) (x : A) :
  x ∈ List.filter f l <-> x ∈ l /\ f x = true.
Proof.
  rewrite !list_elem_of_In. apply List.filter_In.
Qed.

Lemma filter_all {A} (f : A -> bool) (l : list A) :
  (forall x, f x = true) -> List.filter f l = l.
Proof.
  intros Hf. induction l as [|x l IH]; simpl; [reflexivity|].
  by rewrite Hf, IH.
Qed.

(** X17. The widget list shows the widgets newest first and loses none:
    the rows are ordered by descending creation time (the [createdAt]
    property, or the creation event's time without it); they are a
    rearrangement of the widgets that pass the filter, so a widget is
    listed exactly when it is active or inactive widgets are shown; with
    inactive widgets shown every widget is listed once, and without them
    only active ones are. *)
Theorem filteredWidgets_listing (showInactive : bool)
    (widgets : list Widget) :
  let listed := filteredWidgets showInactive widgets in
  StronglySorted (fun a b => (createdTime b <= createdTime a)%Z) listed /\
  listed ≡ₚ List.filter (fun w => showInactive || isActive w) widgets /\
  (forall w, w ∈ listed <->
             w ∈ widgets /\ (showInactive = true \/ isActive w = true)) /\
  (if showInactive then listed ≡ₚ widgets
   else Forall (fun w => isActive w = true) listed) /\
  List.length listed <= List.length widgets.
Proof.
  intros listed. subst listed. unfold filteredWidgets.
  pose proof (RoutesFacts.sortDescending_perm createdTime
                (List.filter (fun w => showInactive || isActive w) widgets))
    as Hperm.
  split; [apply RoutesFacts.sortDescending_sorted|].
  split; [exact Hperm|]. split; [|split].
  - intros w. rewrite Hperm, filter_elem_of.
    by rewrite orb_true_iff.
  - destruct showInactive.
    + rewrite Hperm. by rewrite filter_all.
    + apply Forall_forall. intros w Hw. rewrite Hperm in Hw.
      by apply filter_elem_of in Hw as [_ Hw].
  - rewrite Hperm.
    rewrite (RoutesFacts.filter_partition
               (fun w => showInactive || isActive w) widgets) at 1.
    apply Nat.le_add_r.
Qed.

Example filteredWidgets_sample :
  List.map id (filteredWidgets false sampleList) = ["w3"; "w1"] /\
  List.map id (filteredWidgets true sampleList) = ["w2"; "w3"; "w1"].
Proof. split; reflexivity. Qed.

Lemma substring_prefix n s :
  n <= String.length s ->
  String.length (String.substring 0 n s) = n /\
  exists rest, s = String.substring 0 n s +:+ rest.
Proof.
  revert s. induction n as [|n IH]; intros s Hn.
  - destruct s; simpl; (split; [reflexivity|]); by eexists.
  - destruct s as [|c s]; simpl in *; [lia|].
    destruct (IH s) as (Hlen & rest & Hrest); [lia|].
    split; [by rewrite Hlen|]. exists rest.
    rewrite JsStringFacts.append_cons. by rewrite <- Hrest.
Qed.

(** X18. A data cell of the widget list is never longer than 50
    characters: a serialization of at most 50 characters is shown as it
    is; a longer one is cut to its first 47 characters followed by three
    dots, which makes exactly 50. *)
Theorem formatData_fits (data : option string) :
  String.length (formatData data) <= 50 /\
  match data with
  | None => formatData data = "No data"
  | Some jsonStr =>
      if Nat.leb (String.length jsonStr) 50
      then formatData data = jsonStr
      else String.length (formatData data) = 50 /\
           exists shown rest,
             formatData data = shown +:+ "..." /\
             String.length shown = 47 /\
             jsonStr = shown +:+ rest
  end.
Proof.
  destruct data as [jsonStr|]; simpl; [|split; [lia|reflexivity]].
  destruct (Nat.ltb_spec 50 (String.length jsonStr)) as [Hlong|Hshort].
  - destruct (substring_prefix 47 jsonStr) as (Hlen & rest & Hrest); [lia|].
    assert (Hfifty :
      String.length (String.substring 0 47 jsonStr +:+ "...") = 50).
    { rewrite HookFacts.length_append, Hlen. reflexivity. }
    split; [lia|].
    destruct (Nat.leb_spec (String.length jsonStr) 50); [lia|].
    split; [assumption|].
    exists (String.substring 0 47 jsonStr), rest. by repeat split.
  - split; [lia|].
    destruct (Nat.leb_spec (String.length jsonStr) 50); [reflexivity|lia].
Qed.

Example formatData_sample :
  formatData (Some "{}") = "{}" /\ formatData None = "No data".
Proof. split; reflexivity. Qed.

End WidgetListFacts.
